(** * ai-jobfinder: the rate-limited extraction pipeline and its caches

    A shallow embedding of [src/services.py], [src/api.py], [src/types.py]
    and the orchestration of [main.py].

    - JSON documents are a small inductive type; a file on disk holds the
      text of a JSON document, text that the JSON parser rejects, or bytes
      that do not decode as text.
    - Python exceptions are an error result; every effectful function is a
      state transformer over [World] (files, directories, wall clock, the
      request timestamps, the logs of outbound API calls and of logger
      records).  The store takes every write: a write that the operating
      system refuses is not part of the model.
    - Wall-clock readings ([time.time()]) are rationals.
    - External collaborators (Firecrawl, OpenAI) are oracles. *)

From Stdlib Require Import ZArith QArith Lqa Lia List Permutation Ascii String.
From stdpp Require Import base option list gmap strings fin_maps.

Local Open Scope Z_scope.
#[local] Set Warnings "-register-all".

(** ** Exceptions and results *)

(** The subclasses of [Exception] that the program can meet. *)
Inductive exn : Type :=
| JSONDecodeError
| UnicodeDecodeError
| ValidationError
| ValueError (msg : string)
| TypeError
| AttributeError
| IndexError
| KeyError
| FileNotFoundError
| ApiError (msg : string)
| Exit (code : Z).

(** How a Python call ends: it returns or it raises. *)
Inductive result (A : Type) : Type :=
| Ok (a : A)
| Raise (e : exn).
Arguments Ok {A} a.
Arguments Raise {A} e.

(** ** JSON values, as [json.load] produces them *)

Inductive json : Type :=
| JNull
| JBool (b : bool)
| JNum (n : Z)
| JStr (s : string)
| JArr (items : list json)
| JObj (fields : list (string * json)).

(** [dict.get(key)] on a parsed object. *)
Fixpoint obj_get (key : string) (fields : list (string * json)) : option json :=
  match fields with
  | [] => None
  | (k, v) :: rest => if String.eqb k key then Some v else obj_get key rest
  end.

(** Python truthiness ([not x] is [negb (truthy x)]). *)
Definition truthy (v : json) : bool :=
  match v with
  | JNull => false
  | JBool b => b
  | JNum n => negb (n =? 0)
  | JStr s => negb (String.eqb s "")
  | JArr items => match items with [] => false | _ => true end
  | JObj fields => match fields with [] => false | _ => true end
  end.

(** [result.get(key)]: only a mapping has [.get]. *)
Definition py_get (key : string) (v : json) : result json :=
  match v with
  | JObj fields => Ok (default JNull (obj_get key fields))
  | _ => Raise AttributeError
  end.

(** ** src/types.py *)

Record JobSchema : Type := mkJob {
  job_title : string;
  sub_division_of_organization : string;
  key_skills : list string;
  compensation : string;
  location : string;
  apply_link : string
}.

Record JobSchemas : Type := mkJobs { jobs : list JobSchema }.

Definition as_str (v : json) : option string :=
  match v with JStr s => Some s | _ => None end.

Definition as_str_list (v : json) : option (list string) :=
  match v with JArr items => mapM as_str items | _ => None end.

(** Field validation of [JobSchema]: every field is required and typed,
    unknown keys are ignored. *)
Definition JobSchema_fields (fields : list (string * json)) : option JobSchema :=
  t ← obj_get "job_title" fields ≫= as_str;
  d ← obj_get "sub_division_of_organization" fields ≫= as_str;
  k ← obj_get "key_skills" fields ≫= as_str_list;
  c ← obj_get "compensation" fields ≫= as_str;
  l ← obj_get "location" fields ≫= as_str;
  a ← obj_get "apply_link" fields ≫= as_str;
  Some (mkJob t d k c l a).

(** The constructor call [JobSchema] on the unpacked [data]: unpacking
    needs a mapping, then the model validates. *)
Definition JobSchema_new (data : json) : result JobSchema :=
  match data with
  | JObj fields =>
      match JobSchema_fields fields with
      | Some j => Ok j
      | None => Raise ValidationError
      end
  | _ => Raise TypeError
  end.

(** [job.model_dump()]. *)
Definition model_dump (j : JobSchema) : json :=
  JObj [ ("job_title", JStr (job_title j));
         ("sub_division_of_organization", JStr (sub_division_of_organization j));
         ("key_skills", JArr (JStr <$> key_skills j));
         ("compensation", JStr (compensation j));
         ("location", JStr (location j));
         ("apply_link", JStr (apply_link j)) ].

(** The comprehension building one [JobSchema] per item of a parsed list:
    the first failure aborts. *)
Fixpoint JobSchema_list (items : list json) : result (list JobSchema) :=
  match items with
  | [] => Ok []
  | x :: rest =>
      match JobSchema_new x with
      | Ok j =>
          match JobSchema_list rest with
          | Ok js => Ok (j :: js)
          | Raise e => Raise e
          end
      | Raise e => Raise e
      end
  end.

(** The constructor call [JobSchemas] on the unpacked [data]: a mapping with
    a [jobs] list of job mappings. *)
Definition JobSchemas_new (data : json) : result JobSchemas :=
  match data with
  | JObj fields =>
      match obj_get "jobs" fields with
      | Some (JArr items) =>
          match JobSchema_list items with
          | Ok js => Ok (mkJobs js)
          | Raise _ => Raise ValidationError
          end
      | _ => Raise ValidationError
      end
  | _ => Raise TypeError
  end.

(** What [get_job_recommendations] writes: [{"jobs": [job.model_dump() ...]}]. *)
Definition dump_jobs (r : JobSchemas) : json :=
  JObj [ ("jobs", JArr (model_dump <$> jobs r)) ].

(** ** The world the program runs in *)

(** What a file holds, or the content of a completion: the text of a JSON
    document, text that the JSON parser rejects, or bytes that do not decode
    as text.  The content of a completion is a string, never of the third
    kind; the functions that read it are defined there as [json.loads] is on
    bytes. *)
Inductive text : Type :=
| JsonText (v : json)
| Garbage (raw : string)
| Undecodable.

Inductive level : Type := INFO | WARNING | ERROR.

(** The prompt of [get_job_recommendations], by its interpolated parts. *)
Record Prompt : Type := mkPrompt {
  p_num_recommendations : Z;
  p_resume : string;
  p_job_listings : list json
}.

Record World : Type := mkWorld {
  files : gmap string text;           (* the files, by path *)
  dirs : gset string;                 (* the directories that exist *)
  clock : Q;                          (* what time.time() returns *)
  request_timestamps : list Q;        (* the shared deque, oldest first *)
  scrape_calls : list string;         (* urls sent to firecrawl.scrape_url *)
  extract_calls : list string;        (* links sent to firecrawl.extract *)
  completion_calls : list Prompt;     (* prompts sent to OpenAI *)
  records : list (level * string)     (* what the logger emitted *)
}.

Definition set_files (f : gmap string text) (w : World) : World :=
  mkWorld f (dirs w) (clock w) (request_timestamps w) (scrape_calls w) (extract_calls w)
          (completion_calls w) (records w).
Definition set_dirs (d : gset string) (w : World) : World :=
  mkWorld (files w) d (clock w) (request_timestamps w) (scrape_calls w)
          (extract_calls w) (completion_calls w) (records w).
Definition set_clock (t : Q) (w : World) : World :=
  mkWorld (files w) (dirs w) t (request_timestamps w) (scrape_calls w) (extract_calls w)
          (completion_calls w) (records w).
Definition set_request_timestamps (ts : list Q) (w : World) : World :=
  mkWorld (files w) (dirs w) (clock w) ts (scrape_calls w) (extract_calls w)
          (completion_calls w) (records w).
Definition set_scrape_calls (c : list string) (w : World) : World :=
  mkWorld (files w) (dirs w) (clock w) (request_timestamps w) c (extract_calls w)
          (completion_calls w) (records w).
Definition set_extract_calls (c : list string) (w : World) : World :=
  mkWorld (files w) (dirs w) (clock w) (request_timestamps w) (scrape_calls w) c
          (completion_calls w) (records w).
Definition set_completion_calls (c : list Prompt) (w : World) : World :=
  mkWorld (files w) (dirs w) (clock w) (request_timestamps w) (scrape_calls w)
          (extract_calls w) c (records w).
Definition set_records (r : list (level * string)) (w : World) : World :=
  mkWorld (files w) (dirs w) (clock w) (request_timestamps w) (scrape_calls w)
          (extract_calls w) (completion_calls w) r.

(** A computation reads and updates the world and returns or raises.  [None]
    is not a Python outcome: the model was given too little fuel, or a
    schedule that does not bring the run to its end. *)
Definition M (A : Type) : Type := World -> option (result A * World).

Definition ret {A} (a : A) : M A := fun w => Some (Ok a, w).
Definition raise {A} (e : exn) : M A := fun w => Some (Raise e, w).
Definition bind {A B} (c : M A) (k : A -> M B) : M B :=
  fun w => match c w with
           | Some (Ok a, w') => k a w'
           | Some (Raise e, w') => Some (Raise e, w')
           | None => None
           end.
(** [try: body / except Exception] with the outcome handed on. *)
Definition attempt {A} (c : M A) : M (result A) :=
  fun w => match c w with
           | Some (r, w') => Some (Ok r, w')
           | None => None
           end.
Definition lift {A} (r : result A) : M A := fun w => Some (r, w).
Definition unfinished {A} : M A := fun _ => None.

Notation "'let*' x ':=' c 'in' k" := (bind c (fun x => k))
  (at level 10, x name, c at level 100, k at level 200).
Notation "c ';;' k" := (bind c (fun _ => k))
  (at level 100, k at level 200, right associativity).

Definition emit (l : level) (msg : string) : M unit :=
  fun w => Some (Ok tt, set_records (records w ++ [(l, msg)]) w).
Definition logger_info := emit INFO.
Definition logger_warning := emit WARNING.
Definition logger_exception := emit ERROR.

(** [time.time()] and [time.sleep] / [asyncio.sleep]: a sleep moves the clock
    on by the requested duration. *)
Definition time_time : M Q := fun w => Some (Ok (clock w), w).
Definition sleep (d : Q) : M unit :=
  fun w => Some (Ok tt, set_clock (clock w + d)%Q w).

(** [Path.exists] on the path of a file. *)
Definition path_exists (p : string) : M bool :=
  fun w => Some (Ok (bool_decide (is_Some (files w !! p))), w).

(** [json.load] on the file opened for reading: reading decodes the bytes,
    then the text is parsed. *)
Definition json_load (p : string) : M json :=
  fun w => match files w !! p with
           | Some (JsonText v) => Some (Ok v, w)
           | Some (Garbage _) => Some (Raise JSONDecodeError, w)
           | Some Undecodable => Some (Raise UnicodeDecodeError, w)
           | None => Some (Raise FileNotFoundError, w)
           end.

(** [json.dump] into the file opened for writing.  The store takes the
    write; what the functions do when the operating system refuses it is
    not modelled. *)
Definition json_dump (v : json) (p : string) : M unit :=
  fun w => Some (Ok tt, set_files (<[p := JsonText v]> (files w)) w).

(** The path itself and every prefix of it that ends before a [/]. *)
Fixpoint path_and_parents (seen rest : string) : list string :=
  match rest with
  | EmptyString => [seen]
  | String c rest' =>
      (if Ascii.eqb c "/" then [seen] else [])
      ++ path_and_parents (seen +:+ String c EmptyString) rest'
  end.

(** [Path(p).mkdir(parents=True, exist_ok=True)]: the directory is there
    afterwards, with the directories above it. *)
Definition mkdir_parents (p : string) : M unit :=
  fun w => Some (Ok tt, set_dirs (dirs w ∪ list_to_set (path_and_parents "" p)) w).

(** ** The external collaborators *)

(** The Firecrawl client.  A scrape may answer differently each time it is
    asked: its oracle also sees how many scrapes came before. *)
Record FirecrawlApp : Type := mkFirecrawl {
  scrape_url : nat -> string -> result json;
  extract : string -> result json
}.

(** One choice of a completion: its message content, possibly missing,
    already stripped of surrounding blanks. *)
Record Choice : Type := mkChoice { content : option text }.

Record OpenAI : Type := mkOpenAI {
  completions_parse : nat -> Prompt -> result (list Choice)
}.

Definition firecrawl_scrape_url (firecrawl : FirecrawlApp) (url : string) : M json :=
  fun w => Some (scrape_url firecrawl (length (scrape_calls w)) url,
                 set_scrape_calls (scrape_calls w ++ [url]) w).
Definition firecrawl_extract (firecrawl : FirecrawlApp) (link : string) : M json :=
  fun w => Some (extract firecrawl link,
                 set_extract_calls (extract_calls w ++ [link]) w).
Definition openai_parse (openai : OpenAI) (p : Prompt) : M (list Choice) :=
  fun w => Some (completions_parse openai (length (completion_calls w)) p,
                 set_completion_calls (completion_calls w ++ [p]) w).

(** ** Cache keys *)

(** [url.replace("/", "_")]. *)
Fixpoint safe_url (url : string) : string :=
  match url with
  | EmptyString => EmptyString
  | String c rest =>
      String (if Ascii.eqb c "/" then "_"%char else c) (safe_url rest)
  end.

Definition scrape_result_path (output_dir url : string) : string :=
  output_dir +:+ "/scrape_result-" +:+ safe_url url +:+ ".json".
Definition processed_jobs_path (output_dir url : string) : string :=
  output_dir +:+ "/processed_jobs-" +:+ safe_url url +:+ ".json".
Definition recommendations_path (output_dir url : string) : string :=
  output_dir +:+ "/recommendations-" +:+ safe_url url +:+ ".json".

(** ** services.scrape_jobs_page *)

Fixpoint str_contains (needle s : string) : bool :=
  String.prefix needle s
  || match s with
     | EmptyString => false
     | String _ rest => str_contains needle rest
     end.

(** ["json" in scrape_result], by the type of the container. *)
Definition py_in (key : string) (v : json) : result bool :=
  match v with
  | JObj fields => Ok (bool_decide (is_Some (obj_get key fields)))
  | JArr items =>
      Ok (existsb (fun x => match x with JStr s => String.eqb s key | _ => false end)
                  items)
  | JStr s => Ok (str_contains key s)
  | _ => Raise TypeError
  end.

(** [None] is [JNull], which is also what a cached [null] loads as. *)
Definition scrape_jobs_page (firecrawl : FirecrawlApp) (url output_dir : string)
  : M json :=
  let path := scrape_result_path output_dir url in
  let* cached := path_exists path in
  if cached then json_load path
  else
    let* outcome :=
      attempt (let* scrape_result := firecrawl_scrape_url firecrawl url in
               let* has_json := lift (if truthy scrape_result
                                      then py_in "json" scrape_result
                                      else Ok false) in
               if negb (truthy scrape_result) || negb has_json
               then raise (ValueError "Failed to get valid scrape result")
               else ret scrape_result) in
    match outcome with
    | Raise _ =>
        logger_exception ("Failed to scrape jobs from " +:+ url);;
        ret JNull
    | Ok scrape_result =>
        json_dump scrape_result path;;
        ret scrape_result
    end.

(** ** services.extract_job_data *)

(** What both extractors do with the answer of [firecrawl.extract], up to
    the construction of the record; [on_data] is what the asynchronous one
    does in between (the synchronous one does nothing there). *)
Definition read_extract_result (link : string) (result : json) (on_data : M unit)
  : M (option JobSchema) :=
  let* success := lift (py_get "success" result) in
  if negb (truthy success) then
    logger_warning ("Failed to extract data from " +:+ link);;
    ret None
  else
    let* data := lift (py_get "data" result) in
    if negb (truthy data) then
      logger_warning ("No data extracted from " +:+ link);;
      ret None
    else
      on_data;;
      let* job := lift (JobSchema_new data) in
      ret (Some job).

Definition extract_job_data (link : string) (firecrawl : FirecrawlApp)
  : M (option JobSchema) :=
  let* outcome :=
    attempt (let* result := firecrawl_extract firecrawl link in
             read_extract_result link result (ret tt)) in
  match outcome with
  | Ok r => ret r
  | Raise _ =>
      logger_exception ("Failed to extract data from " +:+ link);;
      ret None
  end.

(** ** api.wait_for_rate_limit *)

Definition Qlt_bool (a b : Q) : bool := negb (Qle_bool b a).

Definition get_request_timestamps : M (list Q) :=
  fun w => Some (Ok (request_timestamps w), w).
Definition put_request_timestamps (ts : list Q) : M unit :=
  fun w => Some (Ok tt, set_request_timestamps ts w).

(** [while request_timestamps and request_timestamps[0] < bound: popleft()]. *)
Fixpoint evict_older (bound : Q) (ts : list Q) : list Q :=
  match ts with
  | [] => []
  | t :: rest => if Qlt_bool t bound then evict_older bound rest else ts
  end.

Definition wait_for_rate_limit (rate_limit window_size : Z) : M unit :=
  let* current_time := time_time in
  let* ts := get_request_timestamps in
  put_request_timestamps (evict_older (current_time - inject_Z window_size)%Q ts);;
  let* ts := get_request_timestamps in
  if Z.of_nat (length ts) >=? rate_limit then
    match ts with
    | [] => raise IndexError
    | oldest :: _ =>
        let sleep_time := (oldest - (current_time - inject_Z window_size) + (1 # 10))%Q in
        if Qlt_bool 0 sleep_time then
          logger_info "Rate limit reached. Waiting";;
          sleep sleep_time
        else ret tt
    end
  else ret tt.

(** ** services.extract_job_data_async *)

(** The [while len(request_timestamps) >= rate_limit] loop of one task, run
    without another task touching the deque in between.  Each pass through
    the body takes one unit of fuel. *)
Fixpoint rate_limit_loop (fuel : nat) (rate_limit window_size : Z) (current_time : Q)
  : M unit :=
  let* ts := get_request_timestamps in
  if Z.of_nat (length ts) >=? rate_limit then
    match fuel with
    | O => unfinished
    | S fuel' =>
        match ts with
        | [] => raise IndexError
        | oldest_time :: rest =>
            if Qlt_bool (current_time - inject_Z window_size)%Q oldest_time then
              let wait_time :=
                (oldest_time - (current_time - inject_Z window_size) + (1 # 10))%Q in
              sleep wait_time;;
              let* current_time := time_time in
              rate_limit_loop fuel' rate_limit window_size current_time
            else
              put_request_timestamps rest;;
              rate_limit_loop fuel' rate_limit window_size current_time
        end
    end
  else ret tt.

(** Two passes for each timestamp held (one sleep, one eviction), and one
    more on the emptied deque when the limit is not positive, are all the
    loop can make when it runs alone. *)
Definition rate_gate (rate_limit window_size : Z) : M unit :=
  let* current_time := time_time in
  let* ts := get_request_timestamps in
  rate_limit_loop (S (2 * length ts)) rate_limit window_size current_time.

(** Between the payload check and the construction of the record. *)
Definition record_request (link : string) : M unit :=
  let* now := time_time in
  let* ts := get_request_timestamps in
  put_request_timestamps (ts ++ [now]);;
  logger_info ("Successfully processed " +:+ link).

(** The [try] block of the task once the answer of the call is there. *)
Definition settle (link : string) (answer : result json) : M (option JobSchema) :=
  let* outcome :=
    attempt (let* result := lift answer in
             read_extract_result link result (record_request link)) in
  match outcome with
  | Ok r => ret r
  | Raise _ =>
      logger_exception ("Failed to extract data from " +:+ link);;
      ret None
  end.

(** The body of one task under [async with semaphore], run on its own: the
    permit is free, nothing else runs while it sleeps or calls, and the clock
    moves only while it sleeps.  Tasks running side by side are the subject
    of the scheduler below, where time passes between the steps. *)
Definition extract_job_data_async (link : string) (firecrawl : FirecrawlApp)
    (rate_limit window_size : Z) : M (option JobSchema) :=
  rate_gate rate_limit window_size;;
  let* outcome :=
    attempt (let* result := firecrawl_extract firecrawl link in
             read_extract_result link result (record_request link)) in
  match outcome with
  | Ok r => ret r
  | Raise _ =>
      logger_exception ("Failed to extract data from " +:+ link);;
      ret None
  end.

(** ** services.process_job_links_async: the tasks under the event loop *)

(** [links[:max_jobs]]: a negative stop counts from the end. *)
Definition slice_to {A} (l : list A) (stop : Z) : list A :=
  if 0 <=? stop then take (Z.to_nat stop) l
  else take (length l - Z.to_nat (- stop))%nat l.

(** Where a task stands.  From [Gating] to [Calling] it holds a permit of
    the semaphore. *)
Inductive phase : Type :=
| Created                          (* waiting at [async with semaphore] *)
| Gating (current_time : Q)        (* at the head of the rate-limit loop *)
| Sleeping (until : Q)             (* in [asyncio.sleep] *)
| Calling                          (* [firecrawl.extract] is outstanding *)
| Finished (r : option JobSchema)  (* returned, permit given back *)
| Raised (e : exn).                (* raised, permit given back *)

Record Sched : Type := mkSched {
  world : World;
  permits : Z;                     (* the value of the semaphore *)
  tasks : list (string * phase);   (* one per selected link, in order *)
  results : list JobSchema;        (* collected as tasks complete *)
  failure : option exn             (* a task raised outside its [try] *)
}.

(** What the event loop can do next: let a task in, let it make one pass
    through the loop, wake it, hand it the answer of its call; or time
    passes.  The steps are finer than those of [asyncio], which switches
    tasks only at an [await]: every run of the event loop is a schedule, and
    what holds for all schedules holds for it. *)
Inductive event : Type :=
| Enter (i : nat)
| Iterate (i : nat)
| Wake (i : nat)
| Return (i : nat)
| Tick (d : Q).

Definition set_task (i : nat) (link : string) (p : phase) (s : Sched) : Sched :=
  mkSched (world s) (permits s) (<[i := (link, p)]> (tasks s)) (results s) (failure s).
Definition set_world (w : World) (s : Sched) : Sched :=
  mkSched w (permits s) (tasks s) (results s) (failure s).
Definition set_permits (n : Z) (s : Sched) : Sched :=
  mkSched (world s) n (tasks s) (results s) (failure s).

Definition option_list {A} (o : option A) : list A :=
  match o with Some a => [a] | None => [] end.

Definition step (firecrawl : FirecrawlApp) (rate_limit window_size : Z)
    (e : event) (s : Sched) : option Sched :=
  match failure s with
  | Some _ => None
  | None =>
  match e with
  | Tick d =>
      if Qle_bool 0 d
      then Some (set_world (set_clock (clock (world s) + d)%Q (world s)) s)
      else None
  | Enter i =>
      match tasks s !! i with
      | Some (link, Created) =>
          if 0 <? permits s
          then Some (set_task i link (Gating (clock (world s)))
                       (set_permits (permits s - 1) s))
          else None
      | _ => None
      end
  | Iterate i =>
      match tasks s !! i with
      | Some (link, Gating current_time) =>
          let ts := request_timestamps (world s) in
          if Z.of_nat (length ts) >=? rate_limit then
            match ts with
            | [] =>
                Some (mkSched (world s) (permits s + 1)
                              (<[i := (link, Raised IndexError)]> (tasks s))
                              (results s) (Some IndexError))
            | oldest_time :: rest =>
                if Qlt_bool (current_time - inject_Z window_size)%Q oldest_time then
                  let wait_time :=
                    (oldest_time - (current_time - inject_Z window_size) + (1 # 10))%Q in
                  Some (set_task i link (Sleeping (clock (world s) + wait_time)%Q) s)
                else
                  Some (set_world (set_request_timestamps rest (world s)) s)
            end
          else
            Some (set_task i link Calling
                    (set_world (set_extract_calls
                                  (extract_calls (world s) ++ [link]) (world s)) s))
      | _ => None
      end
  | Wake i =>
      match tasks s !! i with
      | Some (link, Sleeping until) =>
          if Qle_bool until (clock (world s))
          then Some (set_task i link (Gating (clock (world s))) s)
          else None
      | _ => None
      end
  | Return i =>
      match tasks s !! i with
      | Some (link, Calling) =>
          match settle link (extract firecrawl link) (world s) with
          | Some (Ok r, w') =>
              Some (mkSched w' (permits s + 1) (<[i := (link, Finished r)]> (tasks s))
                            (results s ++ option_list r) (failure s))
          | _ => None
          end
      | _ => None
      end
  end
  end.

Fixpoint run (firecrawl : FirecrawlApp) (rate_limit window_size : Z)
    (schedule : list event) (s : Sched) : option Sched :=
  match schedule with
  | [] => Some s
  | e :: rest =>
      match step firecrawl rate_limit window_size e s with
      | Some s' => run firecrawl rate_limit window_size rest s'
      | None => None
      end
  end.

Definition is_finished (t : string * phase) : bool :=
  match snd t with Finished _ => true | _ => false end.
Definition is_calling (t : string * phase) : bool :=
  match snd t with Calling => true | _ => false end.
Definition holds_permit (t : string * phase) : bool :=
  match snd t with Gating _ | Sleeping _ | Calling => true | _ => false end.
Definition has_called (t : string * phase) : bool :=
  match snd t with Calling | Finished _ => true | _ => false end.

Fixpoint tally {A} (f : A -> bool) (l : list A) : nat :=
  match l with
  | [] => O
  | x :: rest => ((if f x then 1 else 0) + tally f rest)%nat
  end.

(** The number of extraction calls in flight, and of permits held. *)
Definition outstanding (s : Sched) : Z := Z.of_nat (tally is_calling (tasks s)).
Definition holders (s : Sched) : Z := Z.of_nat (tally holds_permit (tasks s)).

(** What a task has contributed to the results. *)
Definition result_of (t : string * phase) : option JobSchema :=
  match snd t with Finished r => r | _ => None end.

(** The tasks that [process_links] creates. *)
Definition spawn (links : list string) (max_jobs : Z) : list (string * phase) :=
  (fun link => (link, Created)) <$> slice_to links max_jobs.

(** The state in which the tasks start: a fresh deque and semaphore. *)
Definition start (links : list string) (max_jobs max_concurrent : Z) (w : World)
  : Sched :=
  mkSched (set_request_timestamps [] w) max_concurrent (spawn links max_jobs) [] None.

(** The event loop's choices are the [schedule]; the call returns once every
    task has finished, and raises what a task raised. *)
Definition process_job_links_async (links : list string) (firecrawl : FirecrawlApp)
    (max_jobs rate_limit window_size max_concurrent : Z) (schedule : list event)
  : M (list JobSchema) :=
  fun w =>
    if max_concurrent <? 0 then
      Some (Raise (ValueError "Semaphore initial value must be >= 0"),
            set_request_timestamps [] w)
    else
      match run firecrawl rate_limit window_size schedule
                (start links max_jobs max_concurrent w) with
      | None => None
      | Some s =>
          match failure s with
          | Some e => Some (Raise e, world s)
          | None =>
              if forallb is_finished (tasks s)
              then Some (Ok (results s), world s)
              else None
          end
      end.

(** ** services.process_job_links *)

(** Iterating a parsed document in a comprehension. *)
Definition py_iter (v : json) : result (list json) :=
  match v with
  | JArr items => Ok items
  | JObj fields => Ok ((fun kv => JStr (fst kv)) <$> fields)
  | JStr s => Ok ((fun c => JStr (String c EmptyString)) <$> list_ascii_of_string s)
  | _ => Raise TypeError
  end.

Definition process_job_links (links : list string) (firecrawl : FirecrawlApp)
    (url : string) (max_jobs rate_limit window_size : Z) (output_dir : string)
    (schedule : list event) : M (list JobSchema) :=
  let path := processed_jobs_path output_dir url in
  let* cached := path_exists path in
  if cached then
    let* data := json_load path in
    let* items := lift (py_iter data) in
    lift (JobSchema_list items)
  else
    process_job_links_async links firecrawl max_jobs rate_limit window_size 5 schedule.

(** ** services.get_job_recommendations *)

Definition json_loads (t : text) : result json :=
  match t with
  | JsonText v => Ok v
  | Garbage _ => Raise JSONDecodeError
  | Undecodable => Raise UnicodeDecodeError
  end.

(** [not response_content], on the stripped content. *)
Definition blank (t : text) : bool :=
  match t with Garbage raw => String.eqb raw "" | _ => false end.

Definition read_recommendations (data : json) : result JobSchemas :=
  match data with
  | JArr items =>
      match JobSchema_list items with
      | Ok js => Ok (mkJobs js)
      | Raise e => Raise e
      end
  | _ => JobSchemas_new data
  end.

Definition request_recommendations (openai : OpenAI) (path : string) (prompt : Prompt)
  : M JobSchemas :=
  let* choices := openai_parse openai prompt in
  match choices with
  | [] => raise (ValueError "No choices returned from OpenAI API")
  | first :: _ =>
      match content first with
      | None => raise AttributeError
      | Some response_content =>
          if blank response_content
          then raise (ValueError "Empty response from OpenAI API")
          else
            let* data := lift (json_loads response_content) in
            let* result := lift (JobSchemas_new data) in
            json_dump (dump_jobs result) path;;
            ret result
      end
  end.

Definition get_job_recommendations (openai : OpenAI) (resume url : string)
    (jobs : list JobSchema) (num_recommendations : Z) (output_dir : string)
  : M (option JobSchemas) :=
  let path := recommendations_path output_dir url in
  let compute :=
    let prompt := mkPrompt num_recommendations resume (model_dump <$> jobs) in
    let* outcome := attempt (request_recommendations openai path prompt) in
    match outcome with
    | Ok result => ret (Some result)
    | Raise JSONDecodeError =>
        logger_exception "Failed to parse OpenAI API response";;
        ret None
    | Raise _ =>
        logger_exception "Error getting job recommendations";;
        ret None
    end in
  let* cached := path_exists path in
  if cached then
    let* loaded := attempt (let* data := json_load path in
                            lift (read_recommendations data)) in
    match loaded with
    | Ok r => ret (Some r)
    | Raise JSONDecodeError => compute
    | Raise e => raise e
    end
  else compute.

(** ** main.main *)

(** [scrape_result["json"]]. *)
Definition py_index (key : string) (v : json) : result json :=
  match v with
  | JObj fields =>
      match obj_get key fields with
      | Some x => Ok x
      | None => Raise KeyError
      end
  | _ => Raise TypeError
  end.

(** [.get("apply_links", [])]. *)
Definition py_get_default (key : string) (dflt : json) (v : json) : result json :=
  match v with
  | JObj fields => Ok (default dflt (obj_get key fields))
  | _ => Raise AttributeError
  end.

(** [len(apply_links)], in the record that reports the links. *)
Definition py_len (v : json) : result Z :=
  match v with
  | JStr s => Ok (Z.of_nat (String.length s))
  | JArr items => Ok (Z.of_nat (length items))
  | JObj fields => Ok (Z.of_nat (length fields))
  | _ => Raise TypeError
  end.

(** The links that [links[:max_jobs]] and the loop over it find in what the
    page listed: the items of a list, the characters of a string; a mapping
    cannot be sliced.  The items reach [firecrawl.extract] as they are; the
    oracle answers for strings (the scrape is asked for a list of strings,
    [ApplyLinksSchema]), and a list with an item of another kind raises
    here. *)
Definition link_list (apply_links : json) : result (list string) :=
  match apply_links with
  | JArr items =>
      match mapM as_str items with
      | Some links => Ok links
      | None => Raise TypeError
      end
  | JStr s => Ok ((fun c => String c EmptyString) <$> list_ascii_of_string s)
  | _ => Raise TypeError
  end.

(** [process_job_links(apply_links, ...)] as [main] calls it, without
    [output_dir], which is then [results].  The links are looked at only
    when the batch has to be computed: with the batch cache in place they
    are not used. *)
Definition process_apply_links (apply_links : json) (firecrawl : FirecrawlApp)
    (url : string) (max_jobs rate_limit window_size : Z) (schedule : list event)
  : M (list JobSchema) :=
  let* cached := path_exists (processed_jobs_path "results" url) in
  match link_list apply_links with
  | Ok links =>
      process_job_links links firecrawl url max_jobs rate_limit window_size
                        "results" schedule
  | Raise e =>
      if cached
      then process_job_links [] firecrawl url max_jobs rate_limit window_size
                             "results" schedule
      else raise e
  end.

(** The loop that logs each recommended job, one record per job.  The
    message stands for the dumped record and is abbreviated to the title of
    the job. *)
Fixpoint log_each (js : list JobSchema) : M unit :=
  match js with
  | [] => ret tt
  | j :: rest => logger_info (job_title j);; log_each rest
  end.
Definition log_jobs (recommended_jobs : JobSchemas) : M unit :=
  log_each (jobs recommended_jobs).

(** [if not jobs: raise ValueError("No job data extracted")]. *)
Definition require_jobs (jobs : list JobSchema) : M unit :=
  match jobs with
  | [] => raise (ValueError "No job data extracted")
  | _ => ret tt
  end.

(** The body of [main] once the API clients are there; [resume] is the text
    read from the resume file.  The output directory is made before the
    resume is looked at. *)
Definition main (firecrawl : FirecrawlApp) (openai : OpenAI) (jobs_url resume : string)
    (max_jobs num_recommendations rate_limit window_size : Z) (output_dir : string)
    (schedule : list event) : M unit :=
  let* outcome :=
    attempt
      (mkdir_parents output_dir;;
       (if String.eqb resume ""
        then raise (ValueError "Failed to load resume") else ret tt);;
       logger_info "Loaded resume";;
       let* scrape_result := scrape_jobs_page firecrawl jobs_url output_dir in
       (if negb (truthy scrape_result)
        then raise (ValueError "Failed to scrape jobs from the jobs page") else ret tt);;
       let* page := lift (py_index "json" scrape_result) in
       let* apply_links := lift (py_get_default "apply_links" (JArr []) page) in
       (if negb (truthy apply_links)
        then raise (ValueError "No apply links found on the jobs page") else ret tt);;
       let* _ := lift (py_len apply_links) in
       logger_info "Successfully scraped apply links";;
       let* jobs := process_apply_links apply_links firecrawl jobs_url max_jobs
                                        rate_limit window_size schedule in
       require_jobs jobs;;
       logger_info "Successfully extracted data from jobs";;
       let* recommended_jobs :=
         get_job_recommendations openai resume jobs_url jobs num_recommendations
                                 output_dir in
       match recommended_jobs with
       | None => raise (ValueError "No job recommendations received")
       | Some r =>
           logger_info "Received job recommendations";;
           logger_info "Recommended jobs:";;
           log_jobs r
       end) in
  match outcome with
  | Ok _ => ret tt
  | Raise _ =>
      logger_exception "Main execution failed";;
      raise (Exit 1)
  end.

(** ** api.initialize_api_clients and the command around [main] *)

(** The clients are built from the two keys of the environment; a key that
    is unset or empty is missing.  [connect_firecrawl] and [connect_openai]
    stand for the constructors of the two clients. *)
Definition initialize_api_clients (env : gmap string string)
    (connect_firecrawl : string -> FirecrawlApp) (connect_openai : string -> OpenAI)
  : result (FirecrawlApp * OpenAI) :=
  let firecrawl_api_key := env !! "FIRECRAWL_API_KEY" in
  let openai_api_key := env !! "OPENAI_API_KEY" in
  let missing (key : option string) : bool :=
    match key with None => true | Some k => String.eqb k "" end in
  if missing firecrawl_api_key || missing openai_api_key
  then Raise (ValueError "Missing required API keys in environment variables")
  else Ok (connect_firecrawl (default "" firecrawl_api_key),
           connect_openai (default "" openai_api_key)).

(** [main] from its first line: the clients are initialised inside the same
    [try] as everything else. *)
Definition main_command (env : gmap string string)
    (connect_firecrawl : string -> FirecrawlApp) (connect_openai : string -> OpenAI)
    (jobs_url resume : string)
    (max_jobs num_recommendations rate_limit window_size : Z) (output_dir : string)
    (schedule : list event) : M unit :=
  match initialize_api_clients env connect_firecrawl connect_openai with
  | Ok (firecrawl, openai) =>
      main firecrawl openai jobs_url resume max_jobs num_recommendations rate_limit
           window_size output_dir schedule
  | Raise _ =>
      logger_exception "Main execution failed";;
      raise (Exit 1)
  end.

(** ** logger.setup_logger *)

(** A logger of the [logging] module, as far as [setup_logger] looks at it:
    its handlers (each with the format string of its formatter) and its
    level. *)
Record Handler : Type := mkHandler { h_stream : string; h_format : string }.
Record Logger : Type := mkLogger { handlers : list Handler; log_level : Z }.

(** [logging.getLogger(name)]: no name, or an empty one, is the root logger.
    A logger that does not exist yet is created without handlers, the root
    logger at level WARNING (30), any other at NOTSET (0). *)
Definition logger_key (name : option string) : string :=
  match name with
  | None => "root"
  | Some n => if String.eqb n "" then "root" else n
  end.

Definition new_logger (key : string) : Logger :=
  mkLogger [] (if String.eqb key "root" then 30 else 0).

Definition getLogger (name : option string) (loggers : gmap string Logger) : Logger :=
  default (new_logger (logger_key name)) (loggers !! logger_key name).

(** The loggers after [setup_logger(name, level, format_string)]; the logger
    it returns is the one then found under the name. *)
Definition setup_logger (name : option string) (level : Z) (format_string : string)
    (loggers : gmap string Logger) : gmap string Logger :=
  let logger := getLogger name loggers in
  match handlers logger with
  | [] =>
      <[logger_key name := mkLogger [mkHandler "stdout" format_string] level]> loggers
  | _ => <[logger_key name := logger]> loggers
  end.

(** The module-level [logger = setup_logger("ai_jobfinder")], with the
    defaults of the signature (level INFO is 20). *)
Definition default_format : string := "%(asctime)s - %(levelname)s - %(message)s".
Definition module_logger (loggers : gmap string Logger) : gmap string Logger :=
  setup_logger (Some "ai_jobfinder") 20 default_format loggers.

(** ** Vocabulary of the statements *)

(** Two worlds that differ at most in the clock and the deque. *)
Definition same_outside_gate (w w' : World) : Prop :=
  files w' = files w /\ scrape_calls w' = scrape_calls w
  /\ extract_calls w' = extract_calls w /\ completion_calls w' = completion_calls w
  /\ records w' = records w.

(** A timestamp still inside the window that ends at [now]. *)
Definition within_window (window_size : Z) (now t : Q) : Prop :=
  (now - inject_Z window_size <= t)%Q.

(** A timestamp that the asynchronous loop evicts at [now]. *)
Definition expired (window_size : Z) (now t : Q) : Prop :=
  (t <= now - inject_Z window_size)%Q.

(** The deque is time-ordered: requests are recorded as the clock goes. *)
Fixpoint time_ordered (ts : list Q) : Prop :=
  match ts with
  | [] => True
  | t :: rest => Forall (fun u => (t <= u)%Q) rest /\ time_ordered rest
  end.

(** The payload an extractor goes on with: the call returned, the API
    reported success and sent data. *)
Definition accepted_payload (answer : result json) : option json :=
  match answer with
  | Ok (JObj fields) =>
      if truthy (default JNull (obj_get "success" fields))
      then let data := default JNull (obj_get "data" fields) in
           if truthy data then Some data else None
      else None
  | _ => None
  end.

(** The record an extraction yields: the accepted payload, if it validates. *)
Definition extracted (answer : result json) : option JobSchema :=
  match accepted_payload answer with
  | Some data =>
      match JobSchema_new data with
      | Ok job => Some job
      | Raise _ => None
      end
  | None => None
  end.

(** A record of the logger that reports a failure. *)
Definition reports_failure (r : level * string) : Prop :=
  fst r = WARNING \/ fst r = ERROR.

(** The four ways in which an extraction comes to nothing. *)
Definition api_non_success (answer : result json) : Prop :=
  exists fields, answer = Ok (JObj fields)
    /\ truthy (default JNull (obj_get "success" fields)) = false.
Definition api_no_payload (answer : result json) : Prop :=
  exists fields, answer = Ok (JObj fields)
    /\ truthy (default JNull (obj_get "success" fields)) = true
    /\ truthy (default JNull (obj_get "data" fields)) = false.
Definition payload_invalid (answer : result json) : Prop :=
  exists fields e, answer = Ok (JObj fields)
    /\ truthy (default JNull (obj_get "success" fields)) = true
    /\ truthy (default JNull (obj_get "data" fields)) = true
    /\ JobSchema_new (default JNull (obj_get "data" fields)) = Raise e.
Definition call_raised (answer : result json) : Prop :=
  exists e, answer = Raise e.


(** What holds of the scheduler in every state that a run from
    [start links max_jobs max_concurrent w0] can reach. *)
Definition sched_inv (firecrawl : FirecrawlApp) (rate_limit : Z)
    (selected : list string) (w0 : World) (max_concurrent : Z) (s : Sched) : Prop :=
  fst <$> tasks s = selected
  /\ permits s + holders s = max_concurrent
  /\ 0 <= permits s
  /\ results s ≡ₚ omap result_of (tasks s)
  /\ (forall i link r, tasks s !! i = Some (link, Finished r) ->
                       r = extracted (extract firecrawl link))
  /\ (exists issued : list string,
         extract_calls (world s) = extract_calls w0 ++ issued
         /\ length issued = tally has_called (tasks s)
         /\ Forall (fun link => link ∈ selected) issued)
  /\ files (world s) = files w0
  /\ (1 <= rate_limit -> failure s = None).

Definition is_created (t : string * phase) : bool :=
  match snd t with Created => true | _ => false end.

(** No task is under way: each is still waiting or has finished, and a
    permit is free. *)
Definition quiescent (s : Sched) : Prop :=
  failure s = None /\ 0 < permits s
  /\ forall i link p, tasks s !! i = Some (link, p) ->
                      p = Created \/ exists r, p = Finished r.

(** The link of a task whose call has been issued. *)
Definition called_link (t : string * phase) : option string :=
  if has_called t then Some (fst t) else None.


(** The fields that [JobSchema] requires. *)
Definition required_fields : list string :=
  ["job_title"; "sub_division_of_organization"; "key_skills"; "compensation";
   "location"; "apply_link"].

(** The character [/] occurs in a string. *)
Fixpoint has_slash (s : string) : bool :=
  match s with
  | EmptyString => false
  | String c rest => Ascii.eqb c "/" || has_slash rest
  end.


(** What a [Return] event adds to the results: the record, if any, of the
    link of the task that returns. *)
Definition returned (firecrawl : FirecrawlApp) (links : list string) (e : event)
  : option JobSchema :=
  match e with
  | Return i =>
      match links !! i with
      | Some link => extracted (extract firecrawl link)
      | None => None
      end
  | _ => None
  end.

(** The deque is time-ordered and holds no timestamp of the future. *)
Definition window_ok (w : World) : Prop :=
  time_ordered (request_timestamps w)
  /\ Forall (fun t => (t <= clock w)%Q) (request_timestamps w).

(** What [main] reads off a scraped page: the page is truthy, it has a
    [json] entry, and the [apply_links] of that entry are truthy and list
    the [links]. *)
Definition lists_links (page : json) (links : list string) : Prop :=
  truthy page = true
  /\ exists entry apply_links,
       py_index "json" page = Ok entry
       /\ py_get_default "apply_links" (JArr []) entry = Ok apply_links
       /\ truthy apply_links = true
       /\ link_list apply_links = Ok links.

(** A scrape result that [scrape_jobs_page] goes on with: it is truthy and
    the test for [json] in it returns true. *)
Definition usable (scrape_result : json) : bool :=
  truthy scrape_result
  && match py_in "json" scrape_result with Ok true => true | _ => false end.

(** The world with one more record of the logger. *)
Definition logged (l : level) (msg : string) (w : World) : World :=
  set_records (records w ++ [(l, msg)]) w.

(** The world in which [main] calls [scrape_jobs_page]: the output
    directory has been made and the resume reported. *)
Definition ready (output_dir : string) (w : World) : World :=
  logged INFO "Loaded resume"
         (set_dirs (dirs w ∪ list_to_set (path_and_parents "" output_dir)) w).

(** A key of the environment that is unset or empty. *)
Definition key_missing (env : gmap string string) (key : string) : Prop :=
  env !! key = None \/ env !! key = Some "".

(** ** Sample inputs *)

Definition fresh_world : World := mkWorld ∅ ∅ 0 [] [] [] [] [].

Definition engineer : JobSchema :=
  mkJob "Engineer" "Platform" ["Go"; "SQL"] "" "Remote" "https://jobs.example/1".
Definition designer : JobSchema :=
  mkJob "Designer" "Brand" ["Figma"] "" "Berlin" "https://jobs.example/2".

Definition success_of (j : JobSchema) : json :=
  JObj [("success", JBool true); ("data", model_dump j)].

Definition sample_page : json :=
  JObj [("metadata", JNull);
        ("json", JObj [("apply_links", JArr [JStr "L1"; JStr "L2"; JStr "L3"])])].

(** A client whose scrape finds three links and whose extraction answers
    for two of them. *)
Definition sample_firecrawl : FirecrawlApp :=
  mkFirecrawl
    (fun _ _ => Ok sample_page)
    (fun link =>
       if String.eqb link "L1" then Ok (success_of engineer)
       else if String.eqb link "L2" then Ok (success_of designer)
       else Ok (JObj [("success", JBool false)])).


(** A client whose calls raise. *)
Definition broken_firecrawl : FirecrawlApp :=
  mkFirecrawl (fun _ _ => Raise (ApiError "no scrape"))
              (fun _ => Raise (ApiError "timeout")).

(** A client whose scrape finds the three links and whose extraction calls
    all raise. *)
Definition flaky_firecrawl : FirecrawlApp :=
  mkFirecrawl (fun _ _ => Ok sample_page) (fun _ => Raise (ApiError "timeout")).

(** A completion service that recommends the engineer's job, and one that
    returns no choice. *)
Definition sample_openai : OpenAI :=
  mkOpenAI (fun _ _ => Ok [mkChoice (Some (JsonText (dump_jobs (mkJobs [engineer]))))]).
Definition silent_openai : OpenAI := mkOpenAI (fun _ _ => Ok []).

(** Three tasks, each run to its end before the next is let in. *)
Definition one_by_one : list event :=
  [Enter 0; Iterate 0; Return 0; Enter 1; Iterate 1; Return 1;
   Enter 2; Iterate 2; Return 2]%nat.

(** Two tasks let in and calling, the third still waiting for a permit. *)
Definition two_in_flight : list event :=
  [Enter 0; Enter 1; Iterate 0; Iterate 1]%nat.

(** All three tasks let in at once; their calls return in reverse order. *)
Definition last_in_first_out : list event :=
  [Enter 0; Enter 1; Enter 2; Iterate 0; Iterate 1; Iterate 2;
   Return 2; Return 1; Return 0]%nat.

(** The recommendation cache in its two shapes. *)
Definition cached_as_array : World :=
  set_files {[ recommendations_path "results" "https://x/jobs"
               := JsonText (JArr [model_dump engineer; model_dump designer]) ]}
            fresh_world.
Definition cached_as_object : World :=
  set_files {[ recommendations_path "results" "https://x/jobs"
               := JsonText (dump_jobs (mkJobs [engineer; designer])) ]}
            fresh_world.

(** Scrape and batch caches that do not parse. *)
Definition corrupt_caches : World :=
  set_files {[ scrape_result_path "results" "https://x/jobs" := Garbage "{oops";
               processed_jobs_path "results" "https://x/jobs" := Garbage "{oops" ]}
            fresh_world.

(** A deque holding one request made long ago. *)
Definition idle_world : World :=
  set_clock 1000 (set_request_timestamps [0%Q] fresh_world).

(** A deque at the limit of two, its requests made five seconds ago. *)
Definition busy_world : World :=
  set_clock 5 (set_request_timestamps [0%Q; 0%Q] fresh_world).

(** Caches written by hand: a scrape result, a batch with the designer's
    job, and a recommendation file of another shape. *)
Definition scrape_cached : World :=
  set_files {[ scrape_result_path "results" "https://x/jobs" := JsonText sample_page ]}
            fresh_world.
Definition batch_cached : World :=
  set_files {[ processed_jobs_path "results" "https://x/jobs"
               := JsonText (JArr [model_dump designer]) ]}
            fresh_world.
Definition recommendations_misshapen : World :=
  set_files {[ recommendations_path "results" "https://x/jobs"
               := JsonText (JObj [("results", JArr [])]) ]}
            fresh_world.


(** An environment with both keys, and one without the OpenAI key. *)
Definition full_env : gmap string string :=
  {[ "FIRECRAWL_API_KEY" := "fc-key"; "OPENAI_API_KEY" := "sk-key" ]}.
Definition partial_env : gmap string string :=
  {[ "FIRECRAWL_API_KEY" := "fc-key"; "OPENAI_API_KEY" := "" ]}.

(** All three caches in place, the batch cache under [results] and the two
    others under [out]. *)
Definition all_cached : World :=
  set_files {[ scrape_result_path "out" "https://x/jobs" := JsonText sample_page;
               processed_jobs_path "results" "https://x/jobs"
               := JsonText (JArr [model_dump designer]);
               recommendations_path "out" "https://x/jobs"
               := JsonText (dump_jobs (mkJobs [designer])) ]}
            fresh_world.

(** * Properties *)

(** ** Round trip of the typed records through their JSON form *)

Lemma as_str_list_dump (l : list string) : mapM as_str (JStr <$> l) = Some l.
Proof.
  induction l as [|s l IH]; [reflexivity|].
  cbn. rewrite IH. reflexivity.
Qed.

Lemma JobSchema_new_dump (j : JobSchema) : JobSchema_new (model_dump j) = Ok j.
Proof.
  destruct j as [t d k c l a]. unfold JobSchema_new, model_dump, JobSchema_fields.
  cbn. rewrite as_str_list_dump. reflexivity.
Qed.

Lemma JobSchema_list_dump (js : list JobSchema) :
  JobSchema_list (model_dump <$> js) = Ok js.
Proof.
  induction js as [|j js IH]; [reflexivity|].
  change (model_dump <$> j :: js) with (model_dump j :: (model_dump <$> js)).
  cbn [JobSchema_list]. rewrite JobSchema_new_dump, IH. reflexivity.
Qed.

Lemma JobSchemas_new_dump (r : JobSchemas) : JobSchemas_new (dump_jobs r) = Ok r.
Proof.
  destruct r as [js]. unfold JobSchemas_new, dump_jobs. cbn.
  rewrite JobSchema_list_dump. reflexivity.
Qed.

(** ** The cache readers *)

Lemma path_exists_Some (p : string) (t : text) (w : World) :
  files w !! p = Some t -> path_exists p w = Some (Ok true, w).
Proof. intros H. unfold path_exists. rewrite H. reflexivity. Qed.

Lemma path_exists_None (p : string) (w : World) :
  files w !! p = None -> path_exists p w = Some (Ok false, w).
Proof. intros H. unfold path_exists. rewrite H. reflexivity. Qed.

Lemma json_load_text (p : string) (v : json) (w : World) :
  files w !! p = Some (JsonText v) -> json_load p w = Some (Ok v, w).
Proof. intros H. unfold json_load. rewrite H. reflexivity. Qed.

Lemma json_load_garbage (p raw : string) (w : World) :
  files w !! p = Some (Garbage raw) -> json_load p w = Some (Raise JSONDecodeError, w).
Proof. intros H. unfold json_load. rewrite H. reflexivity. Qed.

(** A cached recommendation file that parses and validates is returned, and
    the world (so also the log of OpenAI calls) stays as it was. *)
Lemma get_job_recommendations_hit (openai : OpenAI) (resume url : string)
    (jobs : list JobSchema) (n : Z) (output_dir : string) (w : World)
    (data : json) (r : JobSchemas) :
  files w !! recommendations_path output_dir url = Some (JsonText data) ->
  read_recommendations data = Ok r ->
  get_job_recommendations openai resume url jobs n output_dir w = Some (Ok (Some r), w).
Proof.
  intros Hfile Hread. unfold get_job_recommendations, bind, attempt, lift.
  rewrite (path_exists_Some _ _ _ Hfile), (json_load_text _ _ _ Hfile), Hread.
  reflexivity.
Qed.

(** C10: both on-disk shapes of the recommendation cache, a bare array of
    job objects and an object with a [jobs] array, are read into the same
    [JobSchemas], and reading either leaves the world untouched: no
    completion is requested. *)
Theorem recommendation_cache_accepts_both_formats
    (openai : OpenAI) (resume url : string) (jobs : list JobSchema) (n : Z)
    (output_dir : string) (w : World) (items : list json) (js : list JobSchema)
    (fields : list (string * json)) :
  JobSchema_list items = Ok js ->
  obj_get "jobs" fields = Some (JArr items) ->
  (files w !! recommendations_path output_dir url = Some (JsonText (JArr items)) ->
   get_job_recommendations openai resume url jobs n output_dir w
   = Some (Ok (Some (mkJobs js)), w))
  /\ (files w !! recommendations_path output_dir url = Some (JsonText (JObj fields)) ->
      get_job_recommendations openai resume url jobs n output_dir w
      = Some (Ok (Some (mkJobs js)), w)).
Proof.
  intros Hitems Hjobs. split; intros Hfile.
  - apply (get_job_recommendations_hit _ _ _ _ _ _ _ _ _ Hfile).
    cbn. rewrite Hitems. reflexivity.
  - apply (get_job_recommendations_hit _ _ _ _ _ _ _ _ _ Hfile).
    cbn. rewrite Hjobs, Hitems. reflexivity.
Qed.

Lemma recommendation_cache_accepts_both_formats_witness :
  get_job_recommendations silent_openai "cv" "https://x/jobs" [] 5 "results"
                          cached_as_array
  = Some (Ok (Some (mkJobs [engineer; designer])), cached_as_array)
  /\ get_job_recommendations silent_openai "cv" "https://x/jobs" [] 5 "results"
                             cached_as_object
     = Some (Ok (Some (mkJobs [engineer; designer])), cached_as_object).
Proof.
  split.
  - apply (proj1 (recommendation_cache_accepts_both_formats
                    silent_openai "cv" "https://x/jobs" [] 5 "results" cached_as_array
                    [model_dump engineer; model_dump designer] [engineer; designer]
                    [("jobs", JArr [model_dump engineer; model_dump designer])]
                    eq_refl eq_refl)).
    vm_compute. reflexivity.
  - apply (proj2 (recommendation_cache_accepts_both_formats
                    silent_openai "cv" "https://x/jobs" [] 5 "results" cached_as_object
                    [model_dump engineer; model_dump designer] [engineer; designer]
                    [("jobs", JArr [model_dump engineer; model_dump designer])]
                    eq_refl eq_refl)).
    vm_compute. reflexivity.
Defined.

(** An unparseable recommendation file is a miss: the completion is
    requested, and the call returns rather than raises. *)
Lemma get_job_recommendations_corrupt (openai : OpenAI) (resume url : string)
    (jobs : list JobSchema) (n : Z) (output_dir raw : string) (w : World) :
  files w !! recommendations_path output_dir url = Some (Garbage raw) ->
  exists r w',
    get_job_recommendations openai resume url jobs n output_dir w = Some (Ok r, w')
    /\ completion_calls w'
       = completion_calls w ++ [mkPrompt n resume (model_dump <$> jobs)].
Proof.
  intros Hfile. unfold get_job_recommendations.
  unfold bind at 1. rewrite (path_exists_Some _ _ _ Hfile).
  unfold bind at 1. unfold attempt at 1. unfold bind at 1.
  rewrite (json_load_garbage _ _ _ Hfile).
  unfold bind, attempt, request_recommendations, openai_parse, bind, lift, raise, ret,
    json_dump, logger_exception, emit.
  cbn.
  repeat case_match; simplify_eq; eauto.
Qed.

(** C2: what the scrape reader and the batch reader do with a cache file
    that does not parse: [json.load] raises [JSONDecodeError] out of the
    call, and neither the scrape nor any extraction is asked for (the world
    is as before).  Only [get_job_recommendations] catches the error
    (lemma [get_job_recommendations_corrupt]). *)
Theorem corrupt_cache_raises_in_scrape_and_batch
    (firecrawl : FirecrawlApp) (links : list string) (url output_dir raw : string)
    (max_jobs rate_limit window_size : Z) (schedule : list event) (w : World) :
  (files w !! scrape_result_path output_dir url = Some (Garbage raw) ->
   scrape_jobs_page firecrawl url output_dir w = Some (Raise JSONDecodeError, w))
  /\ (files w !! processed_jobs_path output_dir url = Some (Garbage raw) ->
      process_job_links links firecrawl url max_jobs rate_limit window_size
                        output_dir schedule w
      = Some (Raise JSONDecodeError, w)).
Proof.
  split; intros Hfile.
  - unfold scrape_jobs_page, bind.
    rewrite (path_exists_Some _ _ _ Hfile). apply (json_load_garbage _ _ _ Hfile).
  - unfold process_job_links, bind.
    rewrite (path_exists_Some _ _ _ Hfile), (json_load_garbage _ _ _ Hfile).
    reflexivity.
Qed.

Lemma corrupt_cache_raises_in_scrape_and_batch_witness :
  scrape_jobs_page sample_firecrawl "https://x/jobs" "results" corrupt_caches
  = Some (Raise JSONDecodeError, corrupt_caches)
  /\ process_job_links ["L1"; "L2"; "L3"] sample_firecrawl "https://x/jobs" 3 10 60
                       "results" one_by_one corrupt_caches
     = Some (Raise JSONDecodeError, corrupt_caches).
Proof.
  split.
  - apply (proj1 (corrupt_cache_raises_in_scrape_and_batch
                    sample_firecrawl ["L1"; "L2"; "L3"] "https://x/jobs" "results"
                    "{oops" 3 10 60 one_by_one corrupt_caches)).
    vm_compute. reflexivity.
  - apply (proj2 (corrupt_cache_raises_in_scrape_and_batch
                    sample_firecrawl ["L1"; "L2"; "L3"] "https://x/jobs" "results"
                    "{oops" 3 10 60 one_by_one corrupt_caches)).
    vm_compute. reflexivity.
Defined.

(** ** The rate gate *)

Lemma Qlt_bool_true (a b : Q) : Qlt_bool a b = true <-> (a < b)%Q.
Proof.
  unfold Qlt_bool. rewrite negb_true_iff. split.
  - intros H. apply Qnot_le_lt. intros Hle. apply Qle_bool_iff in Hle. congruence.
  - intros H. destruct (Qle_bool b a) eqn:E; [|reflexivity].
    apply Qle_bool_iff in E. exfalso. apply (Qlt_not_le _ _ H E).
Qed.

Lemma Qlt_bool_false (a b : Q) : Qlt_bool a b = false <-> (b <= a)%Q.
Proof.
  unfold Qlt_bool. rewrite negb_false_iff. apply Qle_bool_iff.
Qed.

Lemma same_outside_gate_refl (w : World) : same_outside_gate w w.
Proof. repeat split. Qed.

Lemma same_outside_gate_trans (w1 w2 w3 : World) :
  same_outside_gate w1 w2 -> same_outside_gate w2 w3 -> same_outside_gate w1 w3.
Proof.
  unfold same_outside_gate. intros (?&?&?&?&?) (?&?&?&?&?).
  repeat split; congruence.
Qed.

(** Below the limit the loop is not entered. *)
Lemma rate_limit_loop_pass (fuel : nat) (rate_limit window_size : Z) (now : Q)
    (w : World) :
  (Z.of_nat (length (request_timestamps w)) >=? rate_limit) = false ->
  rate_limit_loop fuel rate_limit window_size now w = Some (Ok tt, w).
Proof.
  intros H. destruct fuel; cbn [rate_limit_loop];
    unfold bind, get_request_timestamps; rewrite H; reflexivity.
Qed.

(** What the loop of the asynchronous extractor does when it runs alone,
    with fuel for two passes per timestamp: it ends, having evicted a prefix
    of the deque whose entries have all expired by then, and leaves fewer
    than [rate_limit] entries; it sleeps only when an evicted entry had not
    yet expired at the start. *)
Lemma rate_limit_loop_spec (rate_limit window_size : Z) :
  1 <= rate_limit ->
  forall (ts : list Q) (fuel : nat) (w : World),
    request_timestamps w = ts ->
    (2 * length ts <= fuel)%nat ->
    exists (w' : World) (evicted : list Q),
      rate_limit_loop fuel rate_limit window_size (clock w) w = Some (Ok tt, w')
      /\ same_outside_gate w w'
      /\ ts = evicted ++ request_timestamps w'
      /\ Z.of_nat (length (request_timestamps w')) < rate_limit
      /\ (clock w <= clock w')%Q
      /\ Forall (expired window_size (clock w')) evicted
      /\ (Forall (expired window_size (clock w)) evicted -> clock w' = clock w)
      /\ (Z.of_nat (length ts) < rate_limit -> w' = w).
Proof.
  intros HR. induction ts as [|t rest IH]; intros fuel w Hts Hfuel.
  - exists w, [].
    assert (Hpass : (Z.of_nat (length (request_timestamps w)) >=? rate_limit) = false)
      by (rewrite Hts, Z.geb_leb; apply Z.leb_gt; cbn [length]; lia).
    repeat split; [apply rate_limit_loop_pass; exact Hpass
                  | rewrite Hts; reflexivity | rewrite Hts; cbn [length]; lia
                  | apply Qle_refl | constructor].
  - destruct (Z.of_nat (length (t :: rest)) >=? rate_limit) eqn:Hfull.
    2:{ exists w, [].
        repeat split; [apply rate_limit_loop_pass; rewrite Hts; exact Hfull
                      | rewrite Hts; reflexivity
                      | rewrite Hts; lia | apply Qle_refl | constructor]. }
    cbn [length] in Hfuel.
    destruct fuel as [|fuel]; [lia|].
    destruct (Qlt_bool (clock w - inject_Z window_size) t) eqn:Hfresh.
    + (* the oldest has not expired: sleep, then evict it *)
      destruct fuel as [|fuel]; [lia|].
      set (wait := (t - (clock w - inject_Z window_size) + (1 # 10))%Q).
      set (w1 := set_clock (clock w + wait)%Q w).
      set (w2 := set_request_timestamps rest w1).
      assert (Hlt := proj1 (Qlt_bool_true _ _) Hfresh).
      assert (Hstale : Qlt_bool (clock w1 - inject_Z window_size) t = false).
      { apply Qlt_bool_false. subst w1 wait. cbn [clock set_clock]. lra. }
      destruct (IH fuel w2 eq_refl ltac:(lia))
        as (w' & ev & Hrun & Hsame & Hsplit & Hlen & Hclk & Hexp & _ & _).
      exists w', (t :: ev).
      assert (Hclk1 : (clock w <= clock w1)%Q).
      { subst w1 wait. cbn [clock set_clock]. lra. }
      repeat split.
      * cbn [rate_limit_loop]. unfold bind at 1. unfold get_request_timestamps at 1.
        rewrite Hts, Hfull, Hfresh.
        unfold bind at 1, sleep at 1. fold wait. fold w1.
        unfold bind at 1, time_time at 1.
        cbn [rate_limit_loop]. unfold bind at 1. unfold get_request_timestamps at 1.
        change (request_timestamps w1) with (request_timestamps w).
        rewrite Hts, Hfull, Hstale.
        unfold bind at 1, put_request_timestamps at 1. exact Hrun.
      * apply Hsame.
      * apply Hsame.
      * apply Hsame.
      * apply Hsame.
      * apply Hsame.
      * rewrite Hsplit at 1. reflexivity.
      * exact Hlen.
      * change (clock w2) with (clock w1) in Hclk. lra.
      * constructor; [|exact Hexp].
        unfold expired. change (clock w2) with (clock w1) in Hclk.
        subst w1 wait. cbn [clock set_clock] in Hclk. lra.
      * intros Hall. inversion Hall as [|? ? Ht _]; subst.
        unfold expired in Ht. lra.
      * intros Hshort. apply Z.geb_le in Hfull. cbn [length] in Hshort, Hfull. lia.
    + (* the oldest has expired: evict it *)
      set (w1 := set_request_timestamps rest w).
      apply Qlt_bool_false in Hfresh.
      destruct (IH fuel w1 eq_refl ltac:(lia))
        as (w' & ev & Hrun & Hsame & Hsplit & Hlen & Hclk & Hexp & Hidle & _).
      exists w', (t :: ev).
      repeat split.
      * cbn [rate_limit_loop]. unfold bind at 1. unfold get_request_timestamps at 1.
        rewrite Hts, Hfull.
        assert (Hb : Qlt_bool (clock w - inject_Z window_size) t = false)
          by (apply Qlt_bool_false; exact Hfresh).
        rewrite Hb. unfold bind at 1, put_request_timestamps at 1. exact Hrun.
      * apply Hsame.
      * apply Hsame.
      * apply Hsame.
      * apply Hsame.
      * apply Hsame.
      * rewrite Hsplit at 1. reflexivity.
      * exact Hlen.
      * exact Hclk.
      * constructor; [|exact Hexp].
        unfold expired. change (clock w1) with (clock w) in Hclk. lra.
      * intros Hall. inversion Hall; subst. apply Hidle. assumption.
      * intros Hshort. apply Z.geb_le in Hfull. cbn [length] in Hshort, Hfull. lia.
Qed.

(** The loop evicts no more than it has to: when it ends, the deque has
    kept its length if that was below the limit, and otherwise holds one
    entry less than the limit. *)
Lemma rate_limit_loop_length (rate_limit window_size : Z) :
  1 <= rate_limit ->
  forall (fuel : nat) (now : Q) (w w' : World),
    rate_limit_loop fuel rate_limit window_size now w = Some (Ok tt, w') ->
    Z.of_nat (length (request_timestamps w'))
    = Z.min (Z.of_nat (length (request_timestamps w))) (rate_limit - 1).
Proof.
  intros HR. induction fuel as [|fuel IH]; intros now w w' Hrun.
  - destruct (Z.of_nat (length (request_timestamps w)) >=? rate_limit) eqn:Hfull.
    + cbn [rate_limit_loop] in Hrun. unfold bind, get_request_timestamps in Hrun.
      rewrite Hfull in Hrun. discriminate.
    + rewrite (rate_limit_loop_pass _ _ _ _ _ Hfull) in Hrun. injection Hrun as <-.
      rewrite Z.geb_leb in Hfull. apply Z.leb_gt in Hfull. lia.
  - destruct (Z.of_nat (length (request_timestamps w)) >=? rate_limit) eqn:Hfull.
    2:{ rewrite (rate_limit_loop_pass _ _ _ _ _ Hfull) in Hrun. injection Hrun as <-.
        rewrite Z.geb_leb in Hfull. apply Z.leb_gt in Hfull. lia. }
    cbn [rate_limit_loop] in Hrun. unfold bind at 1 in Hrun.
    unfold get_request_timestamps at 1 in Hrun. rewrite Hfull in Hrun.
    apply Z.geb_le in Hfull.
    destruct (request_timestamps w) as [|t rest] eqn:Hts; [discriminate|].
    destruct (Qlt_bool (now - inject_Z window_size) t).
    + unfold bind at 1, sleep at 1 in Hrun. unfold bind at 1, time_time at 1 in Hrun.
      apply IH in Hrun. cbn [request_timestamps set_clock] in Hrun.
      rewrite Hts in Hrun. exact Hrun.
    + unfold bind at 1, put_request_timestamps at 1 in Hrun.
      apply IH in Hrun. cbn [request_timestamps set_request_timestamps] in Hrun.
      cbn [length] in Hfull, Hrun |- *. lia.
Qed.

(** With that fuel the loop always comes to an end, whatever the limit. *)
Lemma rate_limit_loop_total (rate_limit window_size : Z) :
  forall (ts : list Q) (fuel : nat) (w : World),
    request_timestamps w = ts ->
    (S (2 * length ts) <= fuel)%nat ->
    exists (r : result unit) (w' : World),
      rate_limit_loop fuel rate_limit window_size (clock w) w = Some (r, w').
Proof.
  induction ts as [|t rest IH]; intros fuel w Hts Hfuel.
  - destruct fuel as [|fuel]; [cbn [length] in Hfuel; lia|].
    cbn [rate_limit_loop]. unfold bind at 1, get_request_timestamps at 1.
    rewrite Hts. destruct (Z.of_nat (length (@nil Q)) >=? rate_limit); eexists _, _;
      reflexivity.
  - destruct (Z.of_nat (length (t :: rest)) >=? rate_limit) eqn:Hfull.
    2:{ exists (Ok tt), w. apply rate_limit_loop_pass. rewrite Hts. exact Hfull. }
    cbn [length] in Hfuel. destruct fuel as [|fuel]; [lia|].
    cbn [rate_limit_loop]. unfold bind at 1, get_request_timestamps at 1.
    rewrite Hts, Hfull.
    destruct (Qlt_bool (clock w - inject_Z window_size) t) eqn:Hfresh.
    + destruct fuel as [|fuel]; [lia|].
      pose proof (proj1 (Qlt_bool_true _ _) Hfresh) as Hlt.
      set (wait := (t - (clock w - inject_Z window_size) + (1 # 10))%Q).
      set (w1 := set_clock (clock w + wait)%Q w).
      assert (Hstale : Qlt_bool (clock w1 - inject_Z window_size) t = false).
      { apply Qlt_bool_false. subst w1 wait. cbn [clock set_clock]. lra. }
      unfold bind at 1, sleep at 1. fold wait. fold w1.
      unfold bind at 1, time_time at 1.
      cbn [rate_limit_loop]. unfold bind at 1, get_request_timestamps at 1.
      change (request_timestamps w1) with (request_timestamps w).
      rewrite Hts, Hfull, Hstale.
      unfold bind at 1, put_request_timestamps at 1.
      apply (IH fuel (set_request_timestamps rest w1) eq_refl). lia.
    + unfold bind at 1, put_request_timestamps at 1.
      apply (IH fuel (set_request_timestamps rest w) eq_refl). lia.
Qed.

(** The gate of the asynchronous extractor always comes to an end. *)
Lemma rate_gate_total (rate_limit window_size : Z) (w : World) :
  exists (r : result unit) (w' : World),
    rate_gate rate_limit window_size w = Some (r, w').
Proof.
  unfold rate_gate, bind, time_time, get_request_timestamps.
  apply (rate_limit_loop_total rate_limit window_size (request_timestamps w) _ w
           eq_refl (Nat.le_refl _)).
Qed.

(** A limit that is not positive makes the loop empty the deque and then
    index it: on a fresh deque the gate raises at once. *)
Lemma rate_gate_without_limit (window_size : Z) :
  rate_gate 0 window_size fresh_world = Some (Raise IndexError, fresh_world).
Proof. reflexivity. Qed.

Lemma rate_gate_spec (rate_limit window_size : Z) (w : World) :
  1 <= rate_limit ->
  exists (w' : World) (evicted : list Q),
    rate_gate rate_limit window_size w = Some (Ok tt, w')
    /\ same_outside_gate w w'
    /\ request_timestamps w = evicted ++ request_timestamps w'
    /\ Z.of_nat (length (request_timestamps w')) < rate_limit
    /\ (clock w <= clock w')%Q
    /\ Forall (expired window_size (clock w')) evicted
    /\ (Forall (expired window_size (clock w)) evicted -> clock w' = clock w)
    /\ (Z.of_nat (length (request_timestamps w)) < rate_limit -> w' = w).
Proof.
  intros HR.
  destruct (rate_limit_loop_spec rate_limit window_size HR (request_timestamps w)
              (S (2 * length (request_timestamps w))) w eq_refl
              (Nat.le_succ_diag_r _))
    as (w' & ev & Hrun & Hrest).
  exists w', ev. split; [|exact Hrest].
  unfold rate_gate, bind, time_time, get_request_timestamps. exact Hrun.
Qed.

(** ** The extractors *)

(** What the asynchronous extractor does with the answer of its call: it
    always returns, with the extracted record if there is one; it appends
    the clock reading to the deque exactly when the payload was accepted;
    and when there is no record, its last logger record reports a failure. *)
Lemma settle_spec (link : string) (answer : result json) (w : World) :
  exists w' : World,
    settle link answer w = Some (Ok (extracted answer), w')
    /\ files w' = files w /\ clock w' = clock w
    /\ scrape_calls w' = scrape_calls w /\ extract_calls w' = extract_calls w
    /\ completion_calls w' = completion_calls w
    /\ request_timestamps w'
       = request_timestamps w
         ++ match accepted_payload answer with Some _ => [clock w] | None => [] end
    /\ (extracted answer = None ->
        exists (pre : list (level * string)) (r : level * string),
          records w' = records w ++ pre ++ [r] /\ reports_failure r).
Proof.
  unfold settle, extracted, accepted_payload, read_extract_result, record_request,
    bind, attempt, lift, ret, raise, logger_warning, logger_exception, logger_info,
    emit, time_time, get_request_timestamps, put_request_timestamps, py_get,
    reports_failure.
  destruct answer as [result|e].
  - destruct result as [| | | | |fields];
      try (eexists; repeat split; cbn; try (rewrite app_nil_r; reflexivity);
           intros _; exists [], (ERROR, "Failed to extract data from " +:+ link);
           split; [reflexivity | right; reflexivity]).
    destruct (truthy (default JNull (obj_get "success" fields))); cbn.
    + destruct (truthy (default JNull (obj_get "data" fields))); cbn.
      * destruct (JobSchema_new (default JNull (obj_get "data" fields))); cbn.
        -- eexists; repeat split; cbn. intros; discriminate.
        -- eexists; repeat split; cbn. intros _.
           exists [(INFO, "Successfully processed " +:+ link)],
                  (ERROR, "Failed to extract data from " +:+ link).
           split; [rewrite <- app_assoc; reflexivity | right; reflexivity].
      * eexists; repeat split; cbn; try (rewrite app_nil_r; reflexivity).
        intros _. exists [], (WARNING, "No data extracted from " +:+ link).
        split; [reflexivity | left; reflexivity].
    + eexists; repeat split; cbn; try (rewrite app_nil_r; reflexivity).
      intros _. exists [], (WARNING, "Failed to extract data from " +:+ link).
      split; [reflexivity | left; reflexivity].
  - eexists; repeat split; cbn; try (rewrite app_nil_r; reflexivity).
    intros _. exists [], (ERROR, "Failed to extract data from " +:+ link).
    split; [reflexivity | right; reflexivity].
Qed.

Lemma failure_has_no_record (answer : result json) :
  api_non_success answer \/ api_no_payload answer \/ payload_invalid answer
  \/ call_raised answer ->
  extracted answer = None.
Proof.
  unfold extracted, accepted_payload.
  intros [(f & -> & Hs) | [(f & -> & Hs & Hd) | [(f & e & -> & Hs & Hd & Hv) | (e & ->)]]].
  - rewrite Hs. reflexivity.
  - rewrite Hs, Hd. reflexivity.
  - rewrite Hs, Hd, Hv. reflexivity.
  - reflexivity.
Qed.


(** The synchronous extractor always returns; it never touches the deque. *)
Lemma extract_job_data_spec (link : string) (firecrawl : FirecrawlApp) (w : World) :
  exists w' : World,
    extract_job_data link firecrawl w
    = Some (Ok (extracted (extract firecrawl link)), w')
    /\ request_timestamps w' = request_timestamps w
    /\ extract_calls w' = extract_calls w ++ [link]
    /\ (extracted (extract firecrawl link) = None ->
        exists (pre : list (level * string)) (r : level * string),
          records w' = records w ++ pre ++ [r] /\ reports_failure r).
Proof.
  unfold extract_job_data, extracted, accepted_payload, read_extract_result,
    firecrawl_extract, bind, attempt, lift, ret, raise, logger_warning,
    logger_exception, emit, py_get, reports_failure.
  destruct (extract firecrawl link) as [result|e].
  - destruct result as [| | | | |fields];
      try (eexists; repeat split; cbn;
           intros _; exists [], (ERROR, "Failed to extract data from " +:+ link);
           split; [reflexivity | right; reflexivity]).
    destruct (truthy (default JNull (obj_get "success" fields))); cbn.
    + destruct (truthy (default JNull (obj_get "data" fields))); cbn.
      * destruct (JobSchema_new (default JNull (obj_get "data" fields))); cbn.
        -- eexists; repeat split; cbn. intros; discriminate.
        -- eexists; repeat split; cbn. intros _.
           exists [], (ERROR, "Failed to extract data from " +:+ link).
           split; [reflexivity | right; reflexivity].
      * eexists; repeat split; cbn.
        intros _. exists [], (WARNING, "No data extracted from " +:+ link).
        split; [reflexivity | left; reflexivity].
    + eexists; repeat split; cbn.
      intros _. exists [], (WARNING, "Failed to extract data from " +:+ link).
      split; [reflexivity | left; reflexivity].
  - eexists; repeat split; cbn.
    intros _. exists [], (ERROR, "Failed to extract data from " +:+ link).
    split; [reflexivity | right; reflexivity].
Qed.

(** The task body is the gate, then the call, then [settle] on its answer. *)
Lemma extract_job_data_async_unfold (link : string) (firecrawl : FirecrawlApp)
    (rate_limit window_size : Z) (w : World) :
  extract_job_data_async link firecrawl rate_limit window_size w
  = match rate_gate rate_limit window_size w with
    | Some (Ok _, w1) =>
        settle link (extract firecrawl link)
               (set_extract_calls (extract_calls w1 ++ [link]) w1)
    | Some (Raise e, w1) => Some (Raise e, w1)
    | None => None
    end.
Proof.
  unfold extract_job_data_async. unfold bind at 1.
  destruct (rate_gate rate_limit window_size w) as [[[[]|e] w1]|]; reflexivity.
Qed.

(** The task body run on its own: it returns once the gate lets it through,
    and the deque is then what the gate left, with the clock reading
    appended exactly when the payload was accepted. *)
Lemma extract_job_data_async_spec (link : string) (firecrawl : FirecrawlApp)
    (rate_limit window_size : Z) (w : World) :
  1 <= rate_limit ->
  exists (w1 w' : World),
    rate_gate rate_limit window_size w = Some (Ok tt, w1)
    /\ extract_job_data_async link firecrawl rate_limit window_size w
       = Some (Ok (extracted (extract firecrawl link)), w')
    /\ files w' = files w /\ clock w' = clock w1
    /\ extract_calls w' = extract_calls w ++ [link]
    /\ request_timestamps w'
       = request_timestamps w1
         ++ match accepted_payload (extract firecrawl link) with
            | Some _ => [clock w1]
            | None => []
            end
    /\ (extracted (extract firecrawl link) = None ->
        exists (pre : list (level * string)) (r : level * string),
          records w' = records w ++ pre ++ [r] /\ reports_failure r).
Proof.
  intros HR.
  destruct (rate_gate_spec rate_limit window_size w HR)
    as (w1 & ev & Hgate & (Hf & Hsc & Hec & Hcc & Hrec) & _).
  destruct (settle_spec link (extract firecrawl link)
              (set_extract_calls (extract_calls w1 ++ [link]) w1))
    as (w' & Hsettle & Hf' & Hclk' & _ & Hec' & _ & Hts' & Hlog').
  exists w1, w'. rewrite extract_job_data_async_unfold, Hgate.
  repeat split; try assumption.
  - rewrite Hf'. exact Hf.
  - rewrite Hec'. cbn. rewrite Hec. reflexivity.
  - intros Hnone. destruct (Hlog' Hnone) as (pre & r & Hr & Hfail).
    exists pre, r. split; [|exact Hfail]. rewrite Hr. cbn. rewrite Hrec. reflexivity.
Qed.

(** The event loop can always hand a calling task the answer of its call;
    the task finishes with what [settle] makes of it, gives its permit back,
    and no failure is flagged. *)
Lemma step_Return (firecrawl : FirecrawlApp) (rate_limit window_size : Z)
    (s : Sched) (i : nat) (link : string) :
  failure s = None ->
  tasks s !! i = Some (link, Calling) ->
  exists w' : World,
    settle link (extract firecrawl link) (world s)
    = Some (Ok (extracted (extract firecrawl link)), w')
    /\ step firecrawl rate_limit window_size (Return i) s
       = Some (mkSched w' (permits s + 1)
                 (<[i := (link, Finished (extracted (extract firecrawl link)))]> (tasks s))
                 (results s ++ option_list (extracted (extract firecrawl link)))
                 None).
Proof.
  intros Hok Htask.
  destruct (settle_spec link (extract firecrawl link) (world s)) as (w' & Hsettle & _).
  exists w'. split; [exact Hsettle|].
  unfold step. rewrite Hok, Htask, Hsettle. reflexivity.
Qed.

(** C8: in each of the four cases (the API reports non-success, it reports
    success without a payload, the payload fails validation, the call
    raises) both extractors return [None] instead of raising and their last
    logger record reports the failure; and in the batch the task finishes
    with [None], nothing is added to the results and no failure is flagged,
    so the other tasks go on. *)
Theorem extractor_returns_none_on_failure
    (link : string) (firecrawl : FirecrawlApp) (rate_limit window_size : Z)
    (w : World) :
  1 <= rate_limit ->
  api_non_success (extract firecrawl link) \/ api_no_payload (extract firecrawl link)
  \/ payload_invalid (extract firecrawl link) \/ call_raised (extract firecrawl link) ->
  (exists (w' : World) (pre : list (level * string)) (r : level * string),
      extract_job_data link firecrawl w = Some (Ok None, w')
      /\ records w' = records w ++ pre ++ [r] /\ reports_failure r)
  /\ (exists (w' : World) (pre : list (level * string)) (r : level * string),
         extract_job_data_async link firecrawl rate_limit window_size w
         = Some (Ok None, w')
         /\ records w' = records w ++ pre ++ [r] /\ reports_failure r)
  /\ (forall (s : Sched) (i : nat),
         failure s = None ->
         tasks s !! i = Some (link, Calling) ->
         exists s' : Sched,
           step firecrawl rate_limit window_size (Return i) s = Some s'
           /\ failure s' = None
           /\ tasks s' = <[i := (link, Finished None)]> (tasks s)
           /\ results s' = results s).
Proof.
  intros HR Hfail. pose proof (failure_has_no_record _ Hfail) as Hnone.
  split; [|split].
  - destruct (extract_job_data_spec link firecrawl w) as (w' & Hrun & _ & _ & Hlog).
    destruct (Hlog Hnone) as (pre & r & Hrec & Hr).
    exists w', pre, r. rewrite Hrun, Hnone. auto.
  - destruct (extract_job_data_async_spec link firecrawl rate_limit window_size w HR)
      as (w1 & w' & _ & Hrun & _ & _ & _ & _ & Hlog).
    destruct (Hlog Hnone) as (pre & r & Hrec & Hr).
    exists w', pre, r. rewrite Hrun, Hnone. auto.
  - intros s i Hok Htask.
    destruct (step_Return firecrawl rate_limit window_size s i link Hok Htask)
      as (w' & _ & Hstep).
    eexists. split; [exact Hstep|]. rewrite Hnone. cbn.
    rewrite app_nil_r. auto.
Qed.

Lemma extractor_returns_none_on_failure_witness :
  exists w' : World,
    extract_job_data_async "L9" broken_firecrawl 10 60 fresh_world = Some (Ok None, w').
Proof.
  destruct (extractor_returns_none_on_failure "L9" broken_firecrawl 10 60 fresh_world)
    as (_ & (w' & _ & _ & Hrun & _) & _).
  - lia.
  - right. right. right. exists (ApiError "timeout"). reflexivity.
  - exists w'. exact Hrun.
Defined.




(** ** The synchronous gate of api.py *)

Lemma evict_older_split (bound : Q) (ts : list Q) :
  exists evicted : list Q,
    ts = evicted ++ evict_older bound ts
    /\ Forall (fun t => (t < bound)%Q) evicted.
Proof.
  induction ts as [|t rest (ev & Hsplit & Hev)]; [exists []; split; [reflexivity|constructor]|].
  cbn [evict_older]. destruct (Qlt_bool t bound) eqn:E.
  - exists (t :: ev). split; [cbn; f_equal; exact Hsplit|].
    constructor; [apply Qlt_bool_true; exact E | exact Hev].
  - exists []. split; [reflexivity | constructor].
Qed.

Lemma evict_older_head (bound : Q) (ts : list Q) (t : Q) (rest : list Q) :
  evict_older bound ts = t :: rest -> (bound <= t)%Q.
Proof.
  induction ts as [|u us IH]; [discriminate|].
  cbn [evict_older]. destruct (Qlt_bool u bound) eqn:E; [exact IH|].
  intros [= -> ->]. apply Qlt_bool_false. exact E.
Qed.

Lemma time_ordered_evict (bound : Q) (ts : list Q) :
  time_ordered ts -> time_ordered (evict_older bound ts).
Proof.
  induction ts as [|t rest IH]; [trivial|].
  intros [Hle Hrest]. cbn [evict_older].
  destruct (Qlt_bool t bound); [apply IH; exact Hrest | split; assumption].
Qed.

(** In a time-ordered deque the front eviction leaves only timestamps
    inside the window. *)
Lemma evict_older_within (window_size : Z) (now : Q) (ts : list Q) :
  time_ordered ts ->
  Forall (within_window window_size now) (evict_older (now - inject_Z window_size) ts).
Proof.
  intros Hord. pose proof (time_ordered_evict (now - inject_Z window_size) ts Hord) as Ho.
  destruct (evict_older (now - inject_Z window_size) ts) as [|t rest] eqn:E;
    [constructor|].
  pose proof (evict_older_head _ _ _ _ E) as Hhead.
  destruct Ho as [Hle _]. constructor; [exact Hhead|].
  eapply Forall_impl; [exact Hle|]. intros u Hu. unfold within_window.
  cbn beta in Hu. lra.
Qed.

(** Evicting again right away changes nothing. *)
Lemma evict_older_idempotent (bound : Q) (ts : list Q) :
  evict_older bound (evict_older bound ts) = evict_older bound ts.
Proof.
  induction ts as [|t rest IH]; [reflexivity|].
  cbn [evict_older]. destruct (Qlt_bool t bound) eqn:E; [exact IH|].
  cbn [evict_older]. rewrite E. reflexivity.
Qed.


Lemma evict_older_all (bound : Q) (ts : list Q) :
  Forall (fun t => (t < bound)%Q) ts -> evict_older bound ts = [].
Proof.
  induction 1 as [|t rest Ht _ IH]; [reflexivity|].
  cbn [evict_older]. apply Qlt_bool_true in Ht. rewrite Ht. exact IH.
Qed.

(** [wait_for_rate_limit] evicts, then sleeps at most once. *)
Lemma wait_for_rate_limit_spec (rate_limit window_size : Z) (w : World) :
  1 <= rate_limit ->
  exists w' : World,
    wait_for_rate_limit rate_limit window_size w = Some (Ok tt, w')
    /\ request_timestamps w'
       = evict_older (clock w - inject_Z window_size) (request_timestamps w)
    /\ (clock w <= clock w')%Q
    /\ (forall oldest rest,
           request_timestamps w = oldest :: rest ->
           rate_limit <= Z.of_nat (length (request_timestamps w)) ->
           (oldest + inject_Z window_size <= clock w')%Q)
    /\ (Z.of_nat (length (request_timestamps w')) < rate_limit -> clock w' = clock w).
Proof.
  intros HR. unfold wait_for_rate_limit.
  unfold bind at 1, time_time at 1. unfold bind at 1, get_request_timestamps at 1.
  unfold bind at 1, put_request_timestamps at 1.
  unfold bind at 1, get_request_timestamps at 1.
  cbn [request_timestamps set_request_timestamps].
  set (bound := (clock w - inject_Z window_size)%Q).
  destruct (evict_older_split bound (request_timestamps w)) as (ev & Hsplit & Hev).
  destruct (evict_older bound (request_timestamps w)) as [|t kept] eqn:Hkept.
  - (* everything was evicted *)
    assert (Hpass : (Z.of_nat (length (@nil Q)) >=? rate_limit) = false)
      by (rewrite Z.geb_leb; apply Z.leb_gt; cbn [length]; lia).
    rewrite Hpass. eexists. split; [reflexivity|].
    cbn [request_timestamps set_request_timestamps clock].
    repeat split; [apply Qle_refl| ].
    intros oldest rest Hts _. rewrite Hts in Hsplit. rewrite app_nil_r in Hsplit.
    subst ev. inversion Hev as [|? ? Hlt _]; subst. subst bound. lra.
  - pose proof (evict_older_head _ _ _ _ Hkept) as Hhead.
    assert (Hfront : forall oldest rest,
               request_timestamps w = oldest :: rest ->
               (oldest < bound)%Q \/ oldest = t).
    { intros oldest rest Hts. rewrite Hts in Hsplit.
      destruct ev as [|e ev']; cbn in Hsplit.
      - right. congruence.
      - left. injection Hsplit as -> _. inversion Hev; assumption. }
    destruct (Z.of_nat (length (t :: kept)) >=? rate_limit) eqn:Hfull.
    + set (sleep_time := (t - bound + (1 # 10))%Q).
      destruct (Qlt_bool 0 sleep_time) eqn:Hpos.
      * eexists. split; [reflexivity|].
        cbn [request_timestamps set_request_timestamps set_records set_clock clock].
        apply Qlt_bool_true in Hpos.
        repeat split.
        -- lra.
        -- intros oldest rest Hts _.
           destruct (Hfront _ _ Hts) as [Hold | ->]; subst bound sleep_time; lra.
        -- intros Hshort. apply Z.geb_le in Hfull. lia.
      * eexists. split; [reflexivity|].
        cbn [request_timestamps set_request_timestamps clock].
        apply Qlt_bool_false in Hpos.
        repeat split.
        -- apply Qle_refl.
        -- intros oldest rest Hts _.
           destruct (Hfront _ _ Hts) as [Hold | ->]; subst bound sleep_time; lra.
    + eexists. split; [reflexivity|].
      cbn [request_timestamps set_request_timestamps clock].
      repeat split; [apply Qle_refl|].
      intros oldest rest Hts Hlen.
      destruct (Hfront _ _ Hts) as [Hold | ->]; [subst bound; lra|].
      (* nothing was evicted, so the deque was below the limit *)
      exfalso. rewrite Hts in Hsplit. destruct ev as [|e ev'].
      * cbn in Hsplit. rewrite Hts, Hsplit in Hlen.
        rewrite Z.geb_leb in Hfull. apply Z.leb_gt in Hfull. lia.
      * cbn in Hsplit. injection Hsplit as -> _.
        inversion Hev as [|? ? Hlt _]; subst. subst bound. lra.
Qed.

(** C3, as amended.  In [wait_for_rate_limit] every timestamp of a
    time-ordered deque that is left when the length is compared with the
    limit lies inside the window.  The loop of the asynchronous extractor
    evicts lazily: it evicts from the front only while the deque holds at
    least [rate_limit] entries, every entry it evicts has expired, and it
    ends with fewer than [rate_limit] entries: a deque that held
    [rate_limit] entries or more is left with exactly [rate_limit - 1], and
    a deque that is below the limit to begin with is passed as it is,
    whatever the age of its entries. *)
Theorem eviction_before_rate_decision (rate_limit window_size : Z) (w : World) :
  1 <= rate_limit ->
  (time_ordered (request_timestamps w) ->
   exists w' : World,
     wait_for_rate_limit rate_limit window_size w = Some (Ok tt, w')
     /\ request_timestamps w'
        = evict_older (clock w - inject_Z window_size) (request_timestamps w)
     /\ Forall (within_window window_size (clock w)) (request_timestamps w'))
  /\ (exists (w' : World) (evicted : list Q),
         rate_gate rate_limit window_size w = Some (Ok tt, w')
         /\ request_timestamps w = evicted ++ request_timestamps w'
         /\ Forall (expired window_size (clock w')) evicted
         /\ Z.of_nat (length (request_timestamps w')) < rate_limit
         /\ (rate_limit <= Z.of_nat (length (request_timestamps w)) ->
             Z.of_nat (length (request_timestamps w')) = rate_limit - 1)
         /\ (Z.of_nat (length (request_timestamps w)) < rate_limit -> w' = w)).
Proof.
  intros HR. split.
  - intros Hord.
    destruct (wait_for_rate_limit_spec rate_limit window_size w HR)
      as (w' & Hrun & Hts & _).
    exists w'. repeat split; [exact Hrun | exact Hts |].
    rewrite Hts. apply evict_older_within. exact Hord.
  - destruct (rate_gate_spec rate_limit window_size w HR)
      as (w' & ev & Hrun & _ & Hsplit & Hlen & _ & Hexp & _ & Hsame).
    exists w', ev.
    split; [exact Hrun|]. split; [exact Hsplit|]. split; [exact Hexp|].
    split; [exact Hlen|]. split; [|exact Hsame].
    intros Hfull. revert Hrun. unfold rate_gate, bind, time_time, get_request_timestamps.
    intros Hrun. apply (rate_limit_loop_length _ _ HR) in Hrun. lia.
Qed.

Lemma eviction_before_rate_decision_witness :
  exists w' : World,
    wait_for_rate_limit 2 60 idle_world = Some (Ok tt, w')
    /\ request_timestamps w' = [].
Proof.
  destruct (eviction_before_rate_decision 2 60 idle_world ltac:(lia)) as [Hsync _].
  destruct Hsync as (w' & Hrun & Hts & _).
  - cbn. split; [constructor | exact I].
  - exists w'. split; [exact Hrun|]. rewrite Hts. vm_compute. reflexivity.
Defined.

(** The claim of C3 as stated fails for the asynchronous extractor: with
    one request made a thousand seconds ago and a limit of two, the gate
    lets the task through with the old timestamp still in the deque, and the
    task goes on to call and to record next to it. *)
Lemma stale_timestamp_survives_the_gate :
  rate_gate 2 60 idle_world = Some (Ok tt, idle_world)
  /\ request_timestamps idle_world = [0%Q]
  /\ ~ within_window 60 (clock idle_world) 0
  /\ exists w' : World,
       extract_job_data_async "L1" sample_firecrawl 2 60 idle_world
       = Some (Ok (Some engineer), w')
       /\ request_timestamps w' = [0%Q; 1000%Q].
Proof.
  split; [vm_compute; reflexivity|]. split; [reflexivity|]. split.
  - unfold within_window. cbn [clock idle_world set_clock].
    intros H. apply Qle_bool_iff in H. vm_compute in H. discriminate.
  - eexists. split; [vm_compute; reflexivity | reflexivity].
Qed.

(** ** Back-to-back requests *)












(** ** The scheduler *)

Lemma tally_insert {A} (f : A -> bool) (l : list A) (i : nat) (old new : A) :
  l !! i = Some old ->
  (tally f (<[i := new]> l) + (if f old then 1 else 0)
   = tally f l + (if f new then 1 else 0))%nat.
Proof.
  revert i. induction l as [|x l IH]; intros [|i] H; try discriminate.
  - injection H as ->. cbn. lia.
  - cbn in H. cbn [tally]. change (<[S i := new]> (x :: l)) with (x :: <[i := new]> l).
    cbn [tally]. specialize (IH i H). lia.
Qed.

Lemma tally_le_length {A} (f : A -> bool) (l : list A) : (tally f l <= length l)%nat.
Proof. induction l as [|x l IH]; cbn; [lia|]. destruct (f x); lia. Qed.

Lemma omap_insert_perm {A B} (g : A -> option B) (l : list A) (i : nat) (old new : A) :
  l !! i = Some old -> g old = None ->
  omap g (<[i := new]> l) ≡ₚ omap g l ++ option_list (g new).
Proof.
  revert i. induction l as [|x l IH]; intros [|i] H Hold; try discriminate.
  - injection H as ->. cbn. rewrite Hold.
    destruct (g new); cbn; [|rewrite app_nil_r; reflexivity].
    apply Permutation_cons_append.
  - cbn in H. change (<[S i := new]> (x :: l)) with (x :: <[i := new]> l).
    specialize (IH i H Hold). cbn. destruct (g x); [|exact IH].
    cbn. apply perm_skip. exact IH.
Qed.

Lemma omap_insert_same {A B} (g : A -> option B) (l : list A) (i : nat) (old new : A) :
  l !! i = Some old -> g old = g new -> omap g (<[i := new]> l) = omap g l.
Proof.
  revert i. induction l as [|x l IH]; intros [|i] H Hg; try discriminate.
  - injection H as ->. cbn. rewrite Hg. reflexivity.
  - cbn in H. change (<[S i := new]> (x :: l)) with (x :: <[i := new]> l).
    specialize (IH i H Hg). cbn. destruct (g x); [f_equal|]; exact IH.
Qed.

Lemma fst_insert_same (l : list (string * phase)) (i : nat) (link : string)
    (p p' : phase) :
  l !! i = Some (link, p) -> fst <$> <[i := (link, p')]> l = fst <$> l.
Proof.
  intros H. rewrite list_fmap_insert. apply list_insert_id.
  rewrite list_lookup_fmap, H. reflexivity.
Qed.

Lemma lookup_insert_Finished (l : list (string * phase)) (i j : nat)
    (link link' : string) (p : phase) (r : option JobSchema) :
  <[i := (link, p)]> l !! j = Some (link', Finished r) ->
  l !! j = Some (link', Finished r) \/ (link' = link /\ p = Finished r).
Proof.
  intros H. destruct (decide (i = j)) as [->|Hne].
  - destruct (decide (j < length l)%nat) as [Hlt|Hge].
    + rewrite list_lookup_insert_eq in H by exact Hlt. right. split; congruence.
    + rewrite list_insert_ge in H by lia. left. exact H.
  - rewrite list_lookup_insert_ne in H by exact Hne. left. exact H.
Qed.

Lemma tally_spawn (f : string * phase -> bool) (selected : list string) :
  (forall link, f (link, Created) = false) ->
  tally f ((fun link => (link, Created)) <$> selected) = O.
Proof.
  intros Hf. induction selected as [|l ls IH]; [reflexivity|].
  cbn. rewrite Hf. exact IH.
Qed.

Lemma start_inv (firecrawl : FirecrawlApp) (rate_limit : Z) (links : list string)
    (max_jobs max_concurrent : Z) (w : World) :
  0 <= max_concurrent ->
  sched_inv firecrawl rate_limit (slice_to links max_jobs) w max_concurrent
            (start links max_jobs max_concurrent w).
Proof.
  intros Hc. unfold sched_inv, start, spawn, holders. cbn.
  set (selected := slice_to links max_jobs).
  repeat split.
  - rewrite <- list_fmap_compose. clear. induction selected; cbn; congruence.
  - rewrite tally_spawn by reflexivity. lia.
  - exact Hc.
  - clear. induction selected; cbn; [constructor | assumption].
  - intros i link r H. apply list_lookup_fmap_Some in H.
    destruct H as (l & Heq & _). discriminate.
  - exists []. rewrite app_nil_r. repeat split; [|constructor].
    rewrite tally_spawn by reflexivity. reflexivity.
Qed.

(** A task that changes phase without finishing: the bookkeeping that all
    such steps share. *)
Lemma inv_change_phase (firecrawl : FirecrawlApp) (ts : list (string * phase))
    (res : list JobSchema) (selected : list string) (i : nat) (link : string)
    (p p' : phase) :
  ts !! i = Some (link, p) ->
  result_of (link, p) = None ->
  result_of (link, p') = None ->
  (forall r, p' <> Finished r) ->
  fst <$> ts = selected ->
  res ≡ₚ omap result_of ts ->
  (forall j l r, ts !! j = Some (l, Finished r) -> r = extracted (extract firecrawl l)) ->
  fst <$> <[i := (link, p')]> ts = selected
  /\ res ≡ₚ omap result_of (<[i := (link, p')]> ts)
  /\ (forall j l r, <[i := (link, p')]> ts !! j = Some (l, Finished r) ->
                    r = extracted (extract firecrawl l)).
Proof.
  intros Ht Hold Hnew Hnf Hfst Hres Hfin. split; [|split].
  - rewrite (fst_insert_same _ _ _ _ _ Ht). exact Hfst.
  - rewrite (omap_insert_same result_of ts i (link, p) (link, p') Ht); [exact Hres|].
    congruence.
  - intros j l r H. apply lookup_insert_Finished in H.
    destruct H as [H | [_ H]]; [eapply Hfin; exact H | exfalso; eapply Hnf; exact H].
Qed.

Lemma link_selected (ts : list (string * phase)) (selected : list string) (i : nat)
    (link : string) (p : phase) :
  fst <$> ts = selected -> ts !! i = Some (link, p) -> link ∈ selected.
Proof.
  intros <- Ht. apply (list_elem_of_lookup_2 _ i).
  rewrite list_lookup_fmap, Ht. reflexivity.
Qed.

(** Every step of the event loop keeps the invariant. *)
Lemma step_inv (firecrawl : FirecrawlApp) (rate_limit window_size : Z)
    (selected : list string) (w0 : World) (c : Z) (e : event) (s s' : Sched) :
  sched_inv firecrawl rate_limit selected w0 c s ->
  step firecrawl rate_limit window_size e s = Some s' ->
  sched_inv firecrawl rate_limit selected w0 c s'.
Proof.
  intros (Hfst & Hperm & Hpos & Hres & Hfin & (issued & Hcalls & Hlen & Hsub)
          & Hfiles & Hfail) Hstep.
  unfold step in Hstep. destruct (failure s) eqn:Hf; [discriminate|].
  unfold holders in Hperm.
  destruct e as [i|i|i|i|d].
  - (* Enter *)
    destruct (tasks s !! i) as [[link p]|] eqn:Ht; [|discriminate].
    destruct p; try discriminate.
    destruct (0 <? permits s) eqn:Hp; [|discriminate].
    injection Hstep as <-. apply Z.ltb_lt in Hp.
    pose proof (tally_insert holds_permit _ _ _ (link, Gating (clock (world s))) Ht) as Hh.
    pose proof (tally_insert has_called _ _ _ (link, Gating (clock (world s))) Ht) as Hc.
    cbn in Hh, Hc.
    destruct (inv_change_phase firecrawl _ _ _ _ _ _ (Gating (clock (world s)))
                Ht eq_refl eq_refl ltac:(discriminate) Hfst Hres Hfin)
      as (H1 & H2 & H3).
    unfold sched_inv, holders. cbn.
    repeat split; try assumption; try lia; try (intros _; exact Hf).
    exists issued. repeat split; try assumption. lia.
  - (* Iterate *)
    destruct (tasks s !! i) as [[link p]|] eqn:Ht; [|discriminate].
    destruct p as [|ct| | | |]; try discriminate.
    destruct (Z.of_nat (length (request_timestamps (world s))) >=? rate_limit) eqn:Hfull.
    + destruct (request_timestamps (world s)) as [|oldest rest] eqn:Hts.
      * (* the deque is empty and yet at the limit: the task raises *)
        injection Hstep as <-.
        pose proof (tally_insert holds_permit _ _ _ (link, Raised IndexError) Ht) as Hh.
        pose proof (tally_insert has_called _ _ _ (link, Raised IndexError) Ht) as Hc.
        cbn in Hh, Hc.
        destruct (inv_change_phase firecrawl _ _ _ _ _ _ (Raised IndexError)
                    Ht eq_refl eq_refl ltac:(discriminate) Hfst Hres Hfin)
          as (H1 & H2 & H3).
        unfold sched_inv, holders. cbn.
        repeat split; try assumption; try lia; try (intros _; exact Hf).
        -- exists issued. repeat split; try assumption. lia.
        -- intros HR. apply Z.geb_le in Hfull. cbn [length] in Hfull. lia.
      * destruct (Qlt_bool (ct - inject_Z window_size) oldest).
        -- injection Hstep as <-.
           set (p' := Sleeping (clock (world s)
                                + (oldest - (ct - inject_Z window_size) + (1 # 10)))%Q).
           pose proof (tally_insert holds_permit _ _ _ (link, p') Ht) as Hh.
           pose proof (tally_insert has_called _ _ _ (link, p') Ht) as Hc.
           cbn in Hh, Hc.
           destruct (inv_change_phase firecrawl _ _ _ _ _ _ p'
                       Ht eq_refl eq_refl ltac:(discriminate) Hfst Hres Hfin)
             as (H1 & H2 & H3).
           unfold sched_inv, holders. cbn [tasks set_task permits results world failure].
           repeat split; try assumption; try lia; try (intros _; exact Hf).
           exists issued. repeat split; try assumption. lia.
        -- injection Hstep as <-.
           unfold sched_inv, holders.
           cbn [tasks set_world permits results world failure extract_calls files
                set_request_timestamps].
           repeat split; try assumption; try (intros _; exact Hf).
           exists issued. repeat split; assumption.
    + injection Hstep as <-.
      pose proof (tally_insert holds_permit _ _ _ (link, Calling) Ht) as Hh.
      pose proof (tally_insert has_called _ _ _ (link, Calling) Ht) as Hc.
      cbn in Hh, Hc.
      destruct (inv_change_phase firecrawl _ _ _ _ _ _ Calling
                  Ht eq_refl eq_refl ltac:(discriminate) Hfst Hres Hfin)
        as (H1 & H2 & H3).
      unfold sched_inv, holders.
      cbn [tasks set_task set_world permits results world failure extract_calls files
           set_extract_calls].
      repeat split; try assumption; try lia; try (intros _; exact Hf).
      exists (issued ++ [link]). repeat split.
      * rewrite Hcalls, app_assoc. reflexivity.
      * rewrite length_app. cbn [length]. lia.
      * apply Forall_app. split; [exact Hsub|].
        constructor; [|constructor]. apply (link_selected _ _ _ _ _ Hfst Ht).
  - (* Wake *)
    destruct (tasks s !! i) as [[link p]|] eqn:Ht; [|discriminate].
    destruct p as [| |until| | |]; try discriminate.
    destruct (Qle_bool until (clock (world s))); [|discriminate].
    injection Hstep as <-.
    pose proof (tally_insert holds_permit _ _ _ (link, Gating (clock (world s))) Ht) as Hh.
    pose proof (tally_insert has_called _ _ _ (link, Gating (clock (world s))) Ht) as Hc.
    cbn in Hh, Hc.
    destruct (inv_change_phase firecrawl _ _ _ _ _ _ (Gating (clock (world s)))
                Ht eq_refl eq_refl ltac:(discriminate) Hfst Hres Hfin)
      as (H1 & H2 & H3).
    unfold sched_inv, holders. cbn.
    repeat split; try assumption; try lia; try (intros _; exact Hf).
    exists issued. repeat split; try assumption. lia.
  - (* Return *)
    destruct (tasks s !! i) as [[link p]|] eqn:Ht; [|discriminate].
    destruct p; try discriminate.
    destruct (settle_spec link (extract firecrawl link) (world s))
      as (w' & Hsettle & Hf' & _ & _ & Hec' & _).
    rewrite Hsettle in Hstep. injection Hstep as <-.
    set (r := extracted (extract firecrawl link)).
    pose proof (tally_insert holds_permit _ _ _ (link, Finished r) Ht) as Hh.
    pose proof (tally_insert has_called _ _ _ (link, Finished r) Ht) as Hc.
    cbn in Hh, Hc.
    unfold sched_inv, holders. cbn [tasks permits results world failure].
    repeat split; try assumption; try lia; try (intros _; exact Hf).
    + rewrite (fst_insert_same _ _ _ _ _ Ht). exact Hfst.
    + rewrite (omap_insert_perm result_of _ _ _ (link, Finished r) Ht eq_refl).
      cbn [result_of snd]. apply Permutation_app_tail. exact Hres.
    + intros j l r' H. apply lookup_insert_Finished in H.
      destruct H as [H | [-> H]]; [eapply Hfin; exact H|].
      injection H as <-. reflexivity.
    + exists issued. repeat split; try assumption; [congruence | lia].
    + congruence.
  - (* Tick *)
    destruct (Qle_bool 0 d); [|discriminate].
    injection Hstep as <-.
    unfold sched_inv, holders.
    cbn [tasks set_world permits results world failure extract_calls files set_clock].
    repeat split; try assumption; try (intros _; exact Hf).
    exists issued. repeat split; assumption.
Qed.

Lemma run_inv (firecrawl : FirecrawlApp) (rate_limit window_size : Z)
    (selected : list string) (w0 : World) (c : Z) (schedule : list event) :
  forall s s' : Sched,
    sched_inv firecrawl rate_limit selected w0 c s ->
    run firecrawl rate_limit window_size schedule s = Some s' ->
    sched_inv firecrawl rate_limit selected w0 c s'.
Proof.
  induction schedule as [|e rest IH]; intros s s' Hinv Hrun.
  - injection Hrun as <-. exact Hinv.
  - cbn [run] in Hrun.
    destruct (step firecrawl rate_limit window_size e s) as [s1|] eqn:Hstep;
      [|discriminate].
    eapply IH; [|exact Hrun]. eapply step_inv; eassumption.
Qed.

Lemma tally_mono {A} (f g : A -> bool) (l : list A) :
  (forall x, f x = true -> g x = true) -> (tally f l <= tally g l)%nat.
Proof.
  intros Hfg. induction l as [|x l IH]; cbn; [lia|].
  destruct (f x) eqn:E; [rewrite (Hfg x E); lia | destruct (g x); lia].
Qed.

Lemma calling_holds_permit (t : string * phase) :
  is_calling t = true -> holds_permit t = true.
Proof. destruct t as [link []]; cbn; congruence. Qed.

(** C5: in every state that the event loop can reach, the permits left and
    the permits held add up to [max_concurrent], none is overdrawn, and a
    task whose call is outstanding holds one; so at no instant are more than
    [max_concurrent] calls outstanding.  A negative [max_concurrent] is
    refused by the semaphore before any task exists. *)
Theorem concurrency_cap_respected
    (links : list string) (firecrawl : FirecrawlApp)
    (max_jobs rate_limit window_size max_concurrent : Z) (w : World) :
  (0 <= max_concurrent ->
   forall (schedule : list event) (s : Sched),
     run firecrawl rate_limit window_size schedule
         (start links max_jobs max_concurrent w) = Some s ->
     permits s + holders s = max_concurrent
     /\ 0 <= permits s
     /\ outstanding s <= holders s
     /\ outstanding s <= max_concurrent)
  /\ (max_concurrent < 0 ->
      forall schedule : list event,
        process_job_links_async links firecrawl max_jobs rate_limit window_size
                                max_concurrent schedule w
        = Some (Raise (ValueError "Semaphore initial value must be >= 0"),
                set_request_timestamps [] w)).
Proof.
  split.
  - intros Hc schedule s Hrun.
    pose proof (run_inv firecrawl rate_limit window_size _ w max_concurrent schedule
                  _ s (start_inv firecrawl rate_limit links max_jobs max_concurrent
                         w Hc) Hrun)
      as (_ & Hperm & Hpos & _).
    assert (Hle : outstanding s <= holders s).
    { unfold outstanding, holders. apply inj_le.
      apply tally_mono. exact calling_holds_permit. }
    repeat split; try assumption. lia.
  - intros Hc schedule. unfold process_job_links_async.
    apply Z.ltb_lt in Hc. rewrite Hc. reflexivity.
Qed.

Lemma concurrency_cap_respected_witness :
  exists s : Sched,
    run sample_firecrawl 10 60 two_in_flight (start ["L1"; "L2"; "L3"] 3 2 fresh_world)
    = Some s
    /\ outstanding s = 2 /\ permits s = 0 /\ outstanding s <= 2.
Proof.
  eexists. split; [vm_compute; reflexivity|].
  split; [reflexivity|]. split; [reflexivity|].
  refine (proj2 (proj2 (proj2 (proj1 (concurrency_cap_respected
            ["L1"; "L2"; "L3"] sample_firecrawl 3 10 60 2 fresh_world)
            ltac:(lia) two_in_flight _ _)))).
  vm_compute. reflexivity.
Defined.

Lemma slice_to_take {A} (l : list A) (stop : Z) :
  0 <= stop ->
  slice_to l stop = take (Z.to_nat (Z.min stop (Z.of_nat (length l)))) l.
Proof.
  intros Hk. unfold slice_to.
  assert (H : (0 <=? stop) = true) by (apply Z.leb_le; exact Hk). rewrite H.
  destruct (Z.le_ge_cases stop (Z.of_nat (length l))) as [Hle|Hge].
  - rewrite Z.min_l by exact Hle. reflexivity.
  - rewrite Z.min_r by exact Hge. rewrite Nat2Z.id.
    rewrite !take_ge by lia. reflexivity.
Qed.

Lemma slice_to_length {A} (l : list A) (stop : Z) :
  0 <= stop ->
  Z.of_nat (length (slice_to l stop)) = Z.min stop (Z.of_nat (length l)).
Proof.
  intros Hk. unfold slice_to.
  assert (H : (0 <=? stop) = true) by (apply Z.leb_le; exact Hk). rewrite H.
  rewrite length_take. lia.
Qed.

(** The calls issued since the batch started are, up to their order, the
    links of the tasks that have called: one call per such task. *)
Lemma step_issued (firecrawl : FirecrawlApp) (rate_limit window_size : Z)
    (base : list string) (e : event) (s s' : Sched) :
  step firecrawl rate_limit window_size e s = Some s' ->
  (exists issued : list string,
      extract_calls (world s) = base ++ issued
      /\ issued ≡ₚ omap called_link (tasks s)) ->
  exists issued : list string,
    extract_calls (world s') = base ++ issued
    /\ issued ≡ₚ omap called_link (tasks s').
Proof.
  intros Hstep (issued & Hcalls & Hperm). unfold step in Hstep.
  destruct (failure s); [discriminate|].
  destruct e as [i|i|i|i|d].
  - destruct (tasks s !! i) as [[link p]|] eqn:Ht; [|discriminate].
    destruct p; try discriminate.
    destruct (0 <? permits s); [|discriminate]. injection Hstep as <-.
    exists issued. cbn [world tasks set_task set_permits].
    split; [exact Hcalls|].
    rewrite (omap_insert_same called_link _ i _ _ Ht) by reflexivity. exact Hperm.
  - destruct (tasks s !! i) as [[link p]|] eqn:Ht; [|discriminate].
    destruct p; try discriminate.
    destruct (Z.of_nat (length (request_timestamps (world s))) >=? rate_limit).
    + destruct (request_timestamps (world s)) as [|oldest rest].
      * injection Hstep as <-. exists issued. cbn [world tasks].
        split; [exact Hcalls|].
        rewrite (omap_insert_same called_link _ i _ _ Ht) by reflexivity. exact Hperm.
      * destruct (Qlt_bool (current_time - inject_Z window_size) oldest).
        -- injection Hstep as <-. exists issued. cbn [world tasks set_task].
           split; [exact Hcalls|].
           rewrite (omap_insert_same called_link _ i _ _ Ht) by reflexivity.
           exact Hperm.
        -- injection Hstep as <-. exists issued. cbn. split; [exact Hcalls|exact Hperm].
    + injection Hstep as <-. exists (issued ++ [link]).
      cbn [world tasks set_task set_world extract_calls set_extract_calls].
      split; [rewrite Hcalls, app_assoc; reflexivity|].
      rewrite (omap_insert_perm called_link _ i _ (link, Calling) Ht eq_refl).
      cbn [called_link has_called snd fst option_list].
      apply Permutation_app_tail. exact Hperm.
  - destruct (tasks s !! i) as [[link p]|] eqn:Ht; [|discriminate].
    destruct p; try discriminate.
    destruct (Qle_bool until (clock (world s))); [|discriminate].
    injection Hstep as <-. exists issued. cbn [world tasks set_task].
    split; [exact Hcalls|].
    rewrite (omap_insert_same called_link _ i _ _ Ht) by reflexivity. exact Hperm.
  - destruct (tasks s !! i) as [[link p]|] eqn:Ht; [|discriminate].
    destruct p; try discriminate.
    destruct (settle_spec link (extract firecrawl link) (world s))
      as (w' & Hsettle & _ & _ & _ & Hsame & _).
    rewrite Hsettle in Hstep. injection Hstep as <-. exists issued.
    cbn [world tasks]. split; [rewrite Hsame; exact Hcalls|].
    rewrite (omap_insert_same called_link _ i _ _ Ht) by reflexivity. exact Hperm.
  - destruct (Qle_bool 0 d); [|discriminate]. injection Hstep as <-.
    exists issued. cbn. split; [exact Hcalls|exact Hperm].
Qed.

Lemma run_issued (firecrawl : FirecrawlApp) (rate_limit window_size : Z)
    (base : list string) (schedule : list event) :
  forall s s' : Sched,
    run firecrawl rate_limit window_size schedule s = Some s' ->
    (exists issued : list string,
        extract_calls (world s) = base ++ issued
        /\ issued ≡ₚ omap called_link (tasks s)) ->
    exists issued : list string,
      extract_calls (world s') = base ++ issued
      /\ issued ≡ₚ omap called_link (tasks s').
Proof.
  induction schedule as [|e rest IH]; intros s s' Hrun Hinv.
  - injection Hrun as <-. exact Hinv.
  - cbn [run] in Hrun.
    destruct (step firecrawl rate_limit window_size e s) as [s1|] eqn:Hstep;
      [|discriminate].
    apply (IH s1 s' Hrun). exact (step_issued _ _ _ _ _ _ _ Hstep Hinv).
Qed.

Lemma start_issued (links : list string) (max_jobs max_concurrent : Z) (w : World) :
  exists issued : list string,
    extract_calls (world (start links max_jobs max_concurrent w))
    = extract_calls w ++ issued
    /\ issued ≡ₚ omap called_link (tasks (start links max_jobs max_concurrent w)).
Proof.
  exists []. split; [cbn; rewrite app_nil_r; reflexivity|].
  unfold start, spawn. cbn [tasks].
  induction (slice_to links max_jobs) as [|l ls IH]; [reflexivity | exact IH].
Qed.

Lemma called_links_finished (ts : list (string * phase)) :
  forallb is_finished ts = true -> omap called_link ts = fst <$> ts.
Proof.
  induction ts as [|[l p] ts IH]; intros Hall; [reflexivity|].
  cbn in Hall. apply andb_true_iff in Hall. destruct Hall as [Hp Hall].
  destruct p; try discriminate. cbn. f_equal. exact (IH Hall).
Qed.

(** *** Some schedule brings every run to its end *)

Lemma run_app (firecrawl : FirecrawlApp) (rate_limit window_size : Z)
    (evs1 evs2 : list event) (s s1 : Sched) :
  run firecrawl rate_limit window_size evs1 s = Some s1 ->
  run firecrawl rate_limit window_size (evs1 ++ evs2) s
  = run firecrawl rate_limit window_size evs2 s1.
Proof.
  revert s. induction evs1 as [|e evs1 IH]; intros s H.
  - injection H as ->. reflexivity.
  - cbn [run app] in *.
    destruct (step firecrawl rate_limit window_size e s); [|discriminate].
    apply IH. exact H.
Qed.

Lemma step_Enter (firecrawl : FirecrawlApp) (rate_limit window_size : Z)
    (s : Sched) (i : nat) (link : string) :
  failure s = None -> tasks s !! i = Some (link, Created) -> 0 < permits s ->
  step firecrawl rate_limit window_size (Enter i) s
  = Some (set_task i link (Gating (clock (world s))) (set_permits (permits s - 1) s)).
Proof.
  intros Hok Ht Hp. unfold step. rewrite Hok, Ht.
  apply Z.ltb_lt in Hp. rewrite Hp. reflexivity.
Qed.

Lemma step_Iterate_pass (firecrawl : FirecrawlApp) (rate_limit window_size : Z)
    (s : Sched) (i : nat) (link : string) (ct : Q) :
  failure s = None -> tasks s !! i = Some (link, Gating ct) ->
  (Z.of_nat (length (request_timestamps (world s))) >=? rate_limit) = false ->
  step firecrawl rate_limit window_size (Iterate i) s
  = Some (set_task i link Calling
            (set_world (set_extract_calls (extract_calls (world s) ++ [link])
                                          (world s)) s)).
Proof. intros Hok Ht Hlen. unfold step. rewrite Hok, Ht, Hlen. reflexivity. Qed.

Lemma step_Iterate_evict (firecrawl : FirecrawlApp) (rate_limit window_size : Z)
    (s : Sched) (i : nat) (link : string) (ct oldest : Q) (rest : list Q) :
  failure s = None -> tasks s !! i = Some (link, Gating ct) ->
  request_timestamps (world s) = oldest :: rest ->
  (Z.of_nat (length (oldest :: rest)) >=? rate_limit) = true ->
  Qlt_bool (ct - inject_Z window_size) oldest = false ->
  step firecrawl rate_limit window_size (Iterate i) s
  = Some (set_world (set_request_timestamps rest (world s)) s).
Proof.
  intros Hok Ht Hts Hlen Hold. unfold step. rewrite Hok, Ht, Hts, Hlen, Hold.
  reflexivity.
Qed.

Lemma step_Iterate_sleep (firecrawl : FirecrawlApp) (rate_limit window_size : Z)
    (s : Sched) (i : nat) (link : string) (ct oldest : Q) (rest : list Q) :
  failure s = None -> tasks s !! i = Some (link, Gating ct) ->
  request_timestamps (world s) = oldest :: rest ->
  (Z.of_nat (length (oldest :: rest)) >=? rate_limit) = true ->
  Qlt_bool (ct - inject_Z window_size) oldest = true ->
  step firecrawl rate_limit window_size (Iterate i) s
  = Some (set_task i link
            (Sleeping (clock (world s)
                       + (oldest - (ct - inject_Z window_size) + (1 # 10)))%Q) s).
Proof.
  intros Hok Ht Hts Hlen Hold. unfold step. rewrite Hok, Ht, Hts, Hlen, Hold.
  reflexivity.
Qed.

Lemma step_Tick (firecrawl : FirecrawlApp) (rate_limit window_size : Z)
    (s : Sched) (d : Q) :
  failure s = None -> (0 <= d)%Q ->
  step firecrawl rate_limit window_size (Tick d) s
  = Some (set_world (set_clock (clock (world s) + d)%Q (world s)) s).
Proof.
  intros Hok Hd. unfold step. rewrite Hok.
  apply Qle_bool_iff in Hd. rewrite Hd. reflexivity.
Qed.

Lemma step_Wake (firecrawl : FirecrawlApp) (rate_limit window_size : Z)
    (s : Sched) (i : nat) (link : string) (until : Q) :
  failure s = None -> tasks s !! i = Some (link, Sleeping until) ->
  (until <= clock (world s))%Q ->
  step firecrawl rate_limit window_size (Wake i) s
  = Some (set_task i link (Gating (clock (world s))) s).
Proof.
  intros Hok Ht Hu. unfold step. rewrite Hok, Ht.
  apply Qle_bool_iff in Hu. rewrite Hu. reflexivity.
Qed.

Lemma lookup_set_task (s : Sched) (i : nat) (link link' : string) (p p' : phase) :
  tasks s !! i = Some (link', p') ->
  tasks (set_task i link p s) !! i = Some (link, p).
Proof.
  intros H. cbn [tasks set_task]. apply list_lookup_insert_eq.
  eapply lookup_lt_Some. exact H.
Qed.

(** A task at the head of the rate-limit loop can be brought to its call:
    expired timestamps are evicted; for one that has not expired the task
    sleeps, time passes, the task wakes and evicts it. *)
Lemma drive_gate (firecrawl : FirecrawlApp) (rate_limit window_size : Z)
    (i : nat) (link : string) :
  1 <= rate_limit ->
  forall (ts : list Q) (s : Sched) (ct : Q),
    failure s = None ->
    tasks s !! i = Some (link, Gating ct) ->
    (ct <= clock (world s))%Q ->
    request_timestamps (world s) = ts ->
    exists (evs : list event) (s' : Sched),
      run firecrawl rate_limit window_size evs s = Some s'
      /\ failure s' = None
      /\ tasks s' = <[i := (link, Calling)]> (tasks s)
      /\ permits s' = permits s
      /\ results s' = results s.
Proof.
  intros HR.
  assert (Hpass : forall (s : Sched) (ct : Q),
             failure s = None -> tasks s !! i = Some (link, Gating ct) ->
             (Z.of_nat (length (request_timestamps (world s))) >=? rate_limit) = false ->
             exists (evs : list event) (s' : Sched),
               run firecrawl rate_limit window_size evs s = Some s'
               /\ failure s' = None
               /\ tasks s' = <[i := (link, Calling)]> (tasks s)
               /\ permits s' = permits s
               /\ results s' = results s).
  { intros s ct Hok Ht Hlen.
    exists [Iterate i]. eexists. cbn [run].
    rewrite (step_Iterate_pass _ _ _ _ _ _ _ Hok Ht Hlen). split; [reflexivity|].
    cbn. auto. }
  induction ts as [|oldest rest IH]; intros s ct Hok Ht Hct Hts.
  - apply (Hpass s ct Hok Ht). rewrite Hts, Z.geb_leb. apply Z.leb_gt.
    cbn [length]. lia.
  - destruct (Z.of_nat (length (oldest :: rest)) >=? rate_limit) eqn:Hfull.
    2:{ apply (Hpass s ct Hok Ht). rewrite Hts. exact Hfull. }
    destruct (Qlt_bool (ct - inject_Z window_size) oldest) eqn:Hfresh.
    + (* sleep, let time pass, wake, evict *)
      pose proof (proj1 (Qlt_bool_true _ _) Hfresh) as Hlt.
      set (wait := (oldest - (ct - inject_Z window_size) + (1 # 10))%Q).
      set (s1 := set_task i link (Sleeping (clock (world s) + wait)%Q) s).
      set (s2 := set_world (set_clock (clock (world s1) + wait)%Q (world s1)) s1).
      set (s3 := set_task i link (Gating (clock (world s2))) s2).
      set (s4 := set_world (set_request_timestamps rest (world s3)) s3).
      assert (H1 : step firecrawl rate_limit window_size (Iterate i) s = Some s1)
        by (apply (step_Iterate_sleep _ _ _ _ _ _ _ _ _ Hok Ht Hts Hfull Hfresh)).
      assert (H2 : step firecrawl rate_limit window_size (Tick wait) s1 = Some s2).
      { apply step_Tick; [exact Hok|]. subst wait. lra. }
      assert (Ht1 : tasks s1 !! i = Some (link, Sleeping (clock (world s) + wait)%Q))
        by (apply (lookup_set_task _ _ _ _ _ _ Ht)).
      assert (H3 : step firecrawl rate_limit window_size (Wake i) s2 = Some s3).
      { apply (step_Wake _ _ _ s2 i link (clock (world s) + wait)%Q);
          [exact Hok | exact Ht1 | apply Qle_refl]. }
      assert (Ht3 : tasks s3 !! i = Some (link, Gating (clock (world s2))))
        by (apply (lookup_set_task _ _ _ _ _ _ Ht1)).
      assert (H4 : step firecrawl rate_limit window_size (Iterate i) s3 = Some s4).
      { apply (step_Iterate_evict _ _ _ s3 i link (clock (world s2)) oldest rest);
          [exact Hok | exact Ht3 | exact Hts | exact Hfull |].
        apply Qlt_bool_false. subst s2 s1 wait.
        cbn [world set_world set_task clock set_clock]. lra. }
      destruct (IH s4 (clock (world s2)) Hok Ht3 (Qle_refl _) eq_refl)
        as (evs & s' & Hrun & Hok' & Htasks & Hperm & Hres).
      exists ([Iterate i; Tick wait; Wake i; Iterate i] ++ evs), s'.
      split; [|repeat split; try assumption].
      * cbn [run app]. rewrite H1, H2, H3, H4. exact Hrun.
      * rewrite Htasks. subst s4 s3 s2 s1.
        cbn [tasks set_world set_task]. rewrite !list_insert_insert_eq. reflexivity.
    + (* evict *)
      set (s1 := set_world (set_request_timestamps rest (world s)) s).
      assert (H1 : step firecrawl rate_limit window_size (Iterate i) s = Some s1)
        by (apply (step_Iterate_evict _ _ _ _ _ _ _ _ _ Hok Ht Hts Hfull Hfresh)).
      destruct (IH s1 ct Hok Ht Hct eq_refl)
        as (evs & s' & Hrun & Hok' & Htasks & Hperm & Hres).
      exists (Iterate i :: evs), s'.
      split; [|repeat split; assumption].
      cbn [run]. rewrite H1. exact Hrun.
Qed.

(** From a quiescent state a waiting task can be run to its end, and the
    state is quiescent again. *)
Lemma drive_one (firecrawl : FirecrawlApp) (rate_limit window_size : Z)
    (s : Sched) (i : nat) (link : string) :
  1 <= rate_limit ->
  quiescent s ->
  tasks s !! i = Some (link, Created) ->
  exists (evs : list event) (s' : Sched) (r : option JobSchema),
    run firecrawl rate_limit window_size evs s = Some s'
    /\ quiescent s'
    /\ tasks s' = <[i := (link, Finished r)]> (tasks s).
Proof.
  intros HR (Hok & Hperm & Hphases) Ht.
  set (s1 := set_task i link (Gating (clock (world s))) (set_permits (permits s - 1) s)).
  assert (H1 : step firecrawl rate_limit window_size (Enter i) s = Some s1)
    by (apply (step_Enter _ _ _ _ _ _ Hok Ht Hperm)).
  assert (Ht1 : tasks s1 !! i = Some (link, Gating (clock (world s)))).
  { subst s1. cbn [tasks set_task set_permits]. apply list_lookup_insert_eq.
    eapply lookup_lt_Some. exact Ht. }
  destruct (drive_gate firecrawl rate_limit window_size i link HR
              (request_timestamps (world s1)) s1 (clock (world s)) Hok Ht1
              (Qle_refl _) eq_refl)
    as (evs & s2 & Hrun & Hok2 & Htasks2 & Hperm2 & Hres2).
  assert (Ht2 : tasks s2 !! i = Some (link, Calling)).
  { rewrite Htasks2. apply list_lookup_insert_eq. eapply lookup_lt_Some. exact Ht1. }
  destruct (step_Return firecrawl rate_limit window_size s2 i link Hok2 Ht2)
    as (w' & _ & H3).
  eexists (Enter i :: evs ++ [Return i]), _, _. split; [|split].
  - cbn [run]. rewrite H1. rewrite (run_app _ _ _ _ _ _ _ Hrun).
    cbn [run]. rewrite H3. reflexivity.
  - unfold quiescent. cbn [failure permits tasks]. split; [reflexivity|].
    split; [rewrite Hperm2; subst s1; cbn; lia|].
    intros j l p Hj. rewrite Htasks2 in Hj. subst s1.
    cbn [tasks set_task set_permits] in Hj.
    rewrite !list_insert_insert_eq in Hj.
    destruct (decide (i = j)) as [->|Hne].
    + rewrite list_lookup_insert_eq in Hj by (eapply lookup_lt_Some; exact Ht).
      injection Hj as _ <-. right. eexists. reflexivity.
    + rewrite list_lookup_insert_ne in Hj by exact Hne. eapply Hphases. exact Hj.
  - cbn [tasks]. rewrite Htasks2. subst s1. cbn [tasks set_task set_permits].
    rewrite !list_insert_insert_eq. reflexivity.
Qed.

Lemma tally_pos_lookup {A} (f : A -> bool) (l : list A) :
  (0 < tally f l)%nat -> exists i x, l !! i = Some x /\ f x = true.
Proof.
  induction l as [|x l IH]; cbn; [lia|].
  destruct (f x) eqn:E.
  - intros _. exists O, x. auto.
  - intros H. destruct (IH H) as (i & y & Hy & Hf). exists (S i), y. auto.
Qed.

Lemma tally_zero_forall {A} (f : A -> bool) (l : list A) :
  tally f l = O -> forall i x, l !! i = Some x -> f x = false.
Proof.
  induction l as [|y l IH]; intros H i x Hx; [discriminate|].
  cbn in H. destruct (f y) eqn:E; [discriminate|].
  destruct i as [|i]; [injection Hx as <-; exact E | eapply IH; eassumption].
Qed.

Lemma forallb_lookup {A} (f : A -> bool) (l : list A) :
  (forall i x, l !! i = Some x -> f x = true) -> forallb f l = true.
Proof.
  induction l as [|y l IH]; intros H; [reflexivity|].
  cbn. rewrite (H O y eq_refl). apply IH. intros i x Hx. apply (H (S i) x Hx).
Qed.

(** From a quiescent state, running the waiting tasks one after the other
    brings every task to its end. *)
Lemma drive_all (firecrawl : FirecrawlApp) (rate_limit window_size : Z) :
  1 <= rate_limit ->
  forall (n : nat) (s : Sched),
    quiescent s ->
    tally is_created (tasks s) = n ->
    exists (evs : list event) (s' : Sched),
      run firecrawl rate_limit window_size evs s = Some s'
      /\ failure s' = None
      /\ forallb is_finished (tasks s') = true.
Proof.
  intros HR. induction n as [|n IH]; intros s Hq Hn.
  - exists [], s. split; [reflexivity|]. destruct Hq as (Hok & _ & Hphases).
    split; [exact Hok|]. apply forallb_lookup. intros i [link p] Hi.
    pose proof (tally_zero_forall _ _ Hn i _ Hi) as Hnc.
    destruct (Hphases i link p Hi) as [-> | [r ->]]; [discriminate | reflexivity].
  - destruct (tally_pos_lookup is_created (tasks s)) as (i & [link p] & Hi & Hc);
      [lia|].
    destruct p; try discriminate.
    destruct (drive_one firecrawl rate_limit window_size s i link HR Hq Hi)
      as (evs1 & s1 & r & Hrun1 & Hq1 & Htasks1).
    destruct (IH s1 Hq1) as (evs2 & s2 & Hrun2 & Hok2 & Hall).
    { rewrite Htasks1.
      pose proof (tally_insert is_created _ _ _ (link, Finished r) Hi) as Ht.
      cbn in Ht. lia. }
    exists (evs1 ++ evs2), s2. split; [|auto].
    rewrite (run_app _ _ _ _ _ _ _ Hrun1). exact Hrun2.
Qed.

Lemma start_quiescent (links : list string) (max_jobs max_concurrent : Z) (w : World) :
  1 <= max_concurrent -> quiescent (start links max_jobs max_concurrent w).
Proof.
  intros Hc. unfold quiescent, start, spawn. cbn. split; [reflexivity|].
  split; [lia|]. intros i link p H. apply list_lookup_fmap_Some in H.
  destruct H as (l & Heq & _). left. congruence.
Qed.

(** With a limit and a concurrency of at least one, some schedule makes
    [process_job_links_async] return. *)
Lemma process_job_links_async_returns (links : list string) (firecrawl : FirecrawlApp)
    (max_jobs rate_limit window_size max_concurrent : Z) (w : World) :
  1 <= rate_limit -> 1 <= max_concurrent ->
  exists (schedule : list event) (js : list JobSchema) (w' : World),
    process_job_links_async links firecrawl max_jobs rate_limit window_size
                            max_concurrent schedule w = Some (Ok js, w').
Proof.
  intros HR Hc.
  destruct (drive_all firecrawl rate_limit window_size HR _
              (start links max_jobs max_concurrent w)
              (start_quiescent links max_jobs max_concurrent w Hc) eq_refl)
    as (evs & s & Hrun & Hok & Hall).
  exists evs, (results s), (world s). unfold process_job_links_async.
  assert (Hneg : (max_concurrent <? 0) = false) by (apply Z.ltb_ge; lia).
  rewrite Hneg, Hrun, Hok, Hall. reflexivity.
Qed.

Lemma finished_results (firecrawl : FirecrawlApp) (ts : list (string * phase)) :
  forallb is_finished ts = true ->
  (forall i l r, ts !! i = Some (l, Finished r) -> r = extracted (extract firecrawl l)) ->
  omap result_of ts = omap (fun l => extracted (extract firecrawl l)) (fst <$> ts).
Proof.
  induction ts as [|[l p] ts IH]; intros Hall Hfin; [reflexivity|].
  cbn in Hall. apply andb_true_iff in Hall. destruct Hall as [Hp Hall].
  destruct p; try discriminate.
  pose proof (Hfin O l r eq_refl) as ->.
  specialize (IH Hall (fun i => Hfin (S i))).
  cbn. destruct (extracted (extract firecrawl l)); [f_equal|]; exact IH.
Qed.

(** Whatever the schedule, a call of [process_job_links_async] that ends
    returns a permutation of the records extracted from the selected
    links. *)
Lemma process_job_links_async_output (links : list string) (firecrawl : FirecrawlApp)
    (max_jobs rate_limit window_size max_concurrent : Z) (schedule : list event)
    (w w' : World) (r : result (list JobSchema)) :
  1 <= rate_limit -> 0 <= max_concurrent ->
  process_job_links_async links firecrawl max_jobs rate_limit window_size
                          max_concurrent schedule w = Some (r, w') ->
  exists js : list JobSchema,
    r = Ok js
    /\ js ≡ₚ omap (fun l => extracted (extract firecrawl l)) (slice_to links max_jobs)
    /\ files w' = files w.
Proof.
  intros HR Hc Hp. unfold process_job_links_async in Hp.
  assert (Hneg : (max_concurrent <? 0) = false) by (apply Z.ltb_ge; lia).
  rewrite Hneg in Hp.
  destruct (run firecrawl rate_limit window_size schedule
                (start links max_jobs max_concurrent w)) as [s|] eqn:Hs; [|discriminate].
  pose proof (run_inv firecrawl rate_limit window_size _ w max_concurrent schedule
                _ s (start_inv firecrawl rate_limit links max_jobs max_concurrent
                       w Hc) Hs)
    as (Hfst & _ & _ & Hres & Hfin & _ & Hfiles & Hfail).
  rewrite (Hfail HR) in Hp.
  destruct (forallb is_finished (tasks s)) eqn:Hall; [|discriminate].
  injection Hp as <- <-. exists (results s). split; [reflexivity|].
  split; [|exact Hfiles].
  rewrite Hres, (finished_results firecrawl _ Hall Hfin), Hfst. reflexivity.
Qed.

(** C7: for a non-negative [max_jobs] the tasks are one per link of the
    first [min max_jobs (length links)] links, in their order.  Whatever
    the event loop does, the calls issued are calls for those links, one
    for each task that has called, and there are at most [max_jobs] of
    them.  When [process_job_links_async] returns, the calls it has issued
    are, up to the order in which the event loop let them go, the selected
    links: one call for each of the first [min max_jobs (length links)]
    links and none for another; and with a limit and a concurrency of at
    least one some schedule makes it return. *)
Theorem at_most_max_jobs_calls
    (links : list string) (firecrawl : FirecrawlApp)
    (max_jobs rate_limit window_size max_concurrent : Z) (w : World) :
  0 <= max_jobs ->
  let selected := take (Z.to_nat (Z.min max_jobs (Z.of_nat (length links)))) links in
  slice_to links max_jobs = selected
  /\ Z.of_nat (length selected) = Z.min max_jobs (Z.of_nat (length links))
  /\ tasks (start links max_jobs max_concurrent w)
     = (fun link => (link, Created)) <$> selected
  /\ (0 <= max_concurrent ->
      forall (schedule : list event) (s : Sched),
        run firecrawl rate_limit window_size schedule
            (start links max_jobs max_concurrent w) = Some s ->
        fst <$> tasks s = selected
        /\ exists issued : list string,
             extract_calls (world s) = extract_calls w ++ issued
             /\ issued ≡ₚ omap called_link (tasks s)
             /\ Forall (fun link => link ∈ selected) issued
             /\ Z.of_nat (length issued) <= max_jobs)
  /\ (forall (schedule : list event) (r : result (list JobSchema)) (w' : World),
         process_job_links_async links firecrawl max_jobs rate_limit window_size
                                 max_concurrent schedule w = Some (r, w') ->
         exists issued : list string,
           extract_calls w' = extract_calls w ++ issued
           /\ Z.of_nat (length issued) <= max_jobs)
  /\ (forall (schedule : list event) (js : list JobSchema) (w' : World),
         process_job_links_async links firecrawl max_jobs rate_limit window_size
                                 max_concurrent schedule w = Some (Ok js, w') ->
         exists issued : list string,
           extract_calls w' = extract_calls w ++ issued
           /\ issued ≡ₚ selected
           /\ Z.of_nat (length issued) = Z.min max_jobs (Z.of_nat (length links)))
  /\ (1 <= rate_limit -> 1 <= max_concurrent ->
      exists (schedule : list event) (js : list JobSchema) (w' : World),
        process_job_links_async links firecrawl max_jobs rate_limit window_size
                                max_concurrent schedule w = Some (Ok js, w')).
Proof.
  intros Hk selected.
  assert (Hsel : slice_to links max_jobs = selected) by (apply slice_to_take; exact Hk).
  assert (Hlen : Z.of_nat (length selected) = Z.min max_jobs (Z.of_nat (length links)))
    by (rewrite <- Hsel; apply slice_to_length; exact Hk).
  assert (Hrun : 0 <= max_concurrent ->
      forall (schedule : list event) (s : Sched),
        run firecrawl rate_limit window_size schedule
            (start links max_jobs max_concurrent w) = Some s ->
        fst <$> tasks s = selected
        /\ exists issued : list string,
             extract_calls (world s) = extract_calls w ++ issued
             /\ issued ≡ₚ omap called_link (tasks s)
             /\ Forall (fun link => link ∈ selected) issued
             /\ Z.of_nat (length issued) <= max_jobs).
  { intros Hc schedule s Hs.
    pose proof (run_inv firecrawl rate_limit window_size _ w max_concurrent schedule
                  _ s (start_inv firecrawl rate_limit links max_jobs max_concurrent
                         w Hc) Hs)
      as (Hfst & _ & _ & _ & _ & (issued & Hcalls & Hn & Hsub) & _).
    destruct (run_issued _ _ _ _ _ _ _ Hs (start_issued links max_jobs max_concurrent w))
      as (issued' & Hcalls' & Hperm).
    assert (issued' = issued)
      by (rewrite Hcalls in Hcalls'; apply app_inv_head in Hcalls'; congruence).
    subst issued'.
    rewrite Hsel in Hfst, Hsub. split; [exact Hfst|].
    exists issued. repeat split; try assumption.
    pose proof (tally_le_length has_called (tasks s)) as Hle.
    assert (Hl : length (tasks s) = length selected)
      by (rewrite <- Hfst, length_fmap; reflexivity).
    lia. }
  split; [exact Hsel|]. split; [exact Hlen|].
  split; [|split; [exact Hrun|split; [|split]]].
  - unfold start, spawn. cbn [tasks]. rewrite Hsel. reflexivity.
  - intros schedule r w' Hp. unfold process_job_links_async in Hp.
    destruct (max_concurrent <? 0) eqn:Hneg.
    + injection Hp as _ <-. exists []. rewrite app_nil_r. cbn. split; [reflexivity|lia].
    + apply Z.ltb_ge in Hneg.
      destruct (run firecrawl rate_limit window_size schedule
                    (start links max_jobs max_concurrent w)) as [s|] eqn:Hs;
        [|discriminate].
      destruct (Hrun Hneg schedule s Hs) as (_ & issued & Hcalls & _ & _ & Hn).
      exists issued.
      destruct (failure s); [injection Hp as _ <-; auto|].
      destruct (forallb is_finished (tasks s)); [|discriminate].
      injection Hp as _ <-. auto.
  - intros schedule js w' Hp. unfold process_job_links_async in Hp.
    destruct (max_concurrent <? 0) eqn:Hneg; [discriminate|].
    apply Z.ltb_ge in Hneg.
    destruct (run firecrawl rate_limit window_size schedule
                  (start links max_jobs max_concurrent w)) as [s|] eqn:Hs;
      [|discriminate].
    destruct (Hrun Hneg schedule s Hs) as (Hfst & issued & Hcalls & Hperm & _ & _).
    destruct (failure s); [discriminate|].
    destruct (forallb is_finished (tasks s)) eqn:Hall; [|discriminate].
    injection Hp as _ <-. exists issued.
    rewrite (called_links_finished _ Hall), Hfst in Hperm.
    split; [exact Hcalls|]. split; [exact Hperm|].
    rewrite (Permutation_length Hperm). exact Hlen.
  - intros HR Hc. apply process_job_links_async_returns; assumption.
Qed.

Lemma at_most_max_jobs_calls_witness :
  slice_to ["L1"; "L2"; "L3"] 2 = ["L1"; "L2"]
  /\ tasks (start ["L1"; "L2"; "L3"] 2 5 fresh_world)
     = [("L1", Created); ("L2", Created)].
Proof.
  destruct (at_most_max_jobs_calls ["L1"; "L2"; "L3"] sample_firecrawl 2 10 60 5
              fresh_world ltac:(lia)) as (Hsel & _ & Htasks & _).
  split; [exact Hsel | exact Htasks].
Defined.

Lemma log_each_spec (js : list JobSchema) (w : World) :
  log_each js w
  = Some (Ok tt,
          set_records (records w ++ ((fun j => (INFO, job_title j)) <$> js)) w).
Proof.
  revert w. induction js as [|j js IH]; intros w.
  - cbn. unfold ret. rewrite app_nil_r. destruct w; reflexivity.
  - cbn [log_each]. unfold bind, logger_info, emit. rewrite IH.
    cbn [records set_records fmap list_fmap]. rewrite <- app_assoc.
    destruct w; reflexivity.
Qed.

Lemma link_list_has_len (apply_links : json) (links : list string) :
  link_list apply_links = Ok links -> exists n : Z, py_len apply_links = Ok n.
Proof. destruct apply_links; cbn; try discriminate; eauto. Qed.

Lemma process_apply_links_listed (apply_links : json) (links : list string)
    (firecrawl : FirecrawlApp) (url : string) (max_jobs rate_limit window_size : Z)
    (schedule : list event) (w : World) :
  link_list apply_links = Ok links ->
  process_apply_links apply_links firecrawl url max_jobs rate_limit window_size
                      schedule w
  = process_job_links links firecrawl url max_jobs rate_limit window_size "results"
                      schedule w.
Proof.
  intros Hlinks. unfold process_apply_links, bind, path_exists.
  rewrite Hlinks. reflexivity.
Qed.

(** [main] from the batch on, once the resume is there and the scrape has
    listed the links: a batch that raises or comes back empty ends the run
    with exit code 1 in the world the batch left; otherwise the jobs go to
    the recommendation stage, whose outcome decides. *)
Lemma main_from_batch (firecrawl : FirecrawlApp) (openai : OpenAI)
    (jobs_url resume : string)
    (max_jobs num_recommendations rate_limit window_size : Z) (output_dir : string)
    (schedule : list event) (w0 w1 : World) (page : json) (links : list string) :
  resume <> "" ->
  scrape_jobs_page firecrawl jobs_url output_dir (ready output_dir w0)
  = Some (Ok page, w1) ->
  lists_links page links ->
  main firecrawl openai jobs_url resume max_jobs num_recommendations rate_limit
       window_size output_dir schedule w0
  = match process_job_links links firecrawl jobs_url max_jobs rate_limit window_size
                            "results" schedule
                            (logged INFO "Successfully scraped apply links" w1) with
    | None => None
    | Some (Raise _, w2) | Some (Ok [], w2) =>
        Some (Raise (Exit 1), logged ERROR "Main execution failed" w2)
    | Some (Ok (j :: js), w2) =>
        match get_job_recommendations openai resume jobs_url (j :: js)
                num_recommendations output_dir
                (logged INFO "Successfully extracted data from jobs" w2) with
        | None => None
        | Some (Ok (Some r), w3) =>
            Some (Ok tt,
                  set_records
                    (records w3 ++ [(INFO, "Received job recommendations");
                                    (INFO, "Recommended jobs:")]
                     ++ ((fun j => (INFO, job_title j)) <$> jobs r)) w3)
        | Some (Ok None, w3) | Some (Raise _, w3) =>
            Some (Raise (Exit 1), logged ERROR "Main execution failed" w3)
        end
    end.
Proof.
  intros Hresume Hscrape
         (Htruthy & entry & apply_links & Hentry & Hget & Hal & Hlinks).
  apply String.eqb_neq in Hresume.
  destruct (link_list_has_len _ _ Hlinks) as [n Hlen].
  unfold main. unfold bind at 1. unfold attempt at 1.
  unfold bind at 1, mkdir_parents at 1.
  unfold bind at 1. rewrite Hresume. unfold ret at 1.
  unfold bind at 1, logger_info at 1, emit at 1.
  unfold bind at 1.
  change (set_records _ (set_dirs _ w0)) with (ready output_dir w0).
  rewrite Hscrape.
  unfold bind at 1. rewrite Htruthy. cbn [negb]. unfold ret at 1.
  unfold bind at 1, lift at 1. rewrite Hentry.
  unfold bind at 1, lift at 1. rewrite Hget.
  unfold bind at 1. rewrite Hal. cbn [negb]. unfold ret at 1.
  unfold bind at 1, lift at 1. rewrite Hlen.
  unfold bind at 1, logger_info at 1, emit at 1.
  unfold bind at 1.
  rewrite (process_apply_links_listed _ _ _ _ _ _ _ _ _ Hlinks).
  change (set_records (records w1 ++ [(INFO, "Successfully scraped apply links")]) w1)
    with (logged INFO "Successfully scraped apply links" w1).
  destruct (process_job_links links firecrawl jobs_url max_jobs rate_limit window_size
              "results" schedule (logged INFO "Successfully scraped apply links" w1))
    as [[[js|e] w2]|]; [| reflexivity | reflexivity].
  destruct js as [|j js]; [reflexivity|].
  unfold bind at 1, require_jobs at 1, ret at 1.
  unfold bind at 1, logger_info at 1, emit at 1.
  unfold bind at 1.
  change (set_records (records w2 ++ [(INFO, "Successfully extracted data from jobs")])
                      w2)
    with (logged INFO "Successfully extracted data from jobs" w2).
  destruct (get_job_recommendations openai resume jobs_url (j :: js)
              num_recommendations output_dir
              (logged INFO "Successfully extracted data from jobs" w2))
    as [[[[r|]|e] w3]|]; [| reflexivity | reflexivity | reflexivity].
  unfold bind at 1, logger_info at 1, emit at 1.
  unfold bind at 1, logger_info at 1, emit at 1.
  unfold log_jobs. rewrite log_each_spec. unfold ret.
  cbn [records set_records]. rewrite <- !app_assoc. reflexivity.
Qed.

(** C6: with a limit and a concurrency of at least one, the scheduler can
    always run to its end, and however the event loop schedules the tasks
    the output is [Ok] of a permutation of the records of the selected links
    whose extraction yields one; the failed ones are dropped, so the length
    of the output is the number of successes.  In [main], once the scrape
    has listed the links and there is no batch cache, the output is empty
    exactly when no selected link yields a record; on an empty output [main]
    exits with code 1 in the world the batch left, one error record added;
    on any other output it hands the records to the recommendation stage,
    returns when that stage returns recommendations, and exits with code 1
    when it does not. *)
Theorem scheduler_output_is_the_successes
    (links : list string) (firecrawl : FirecrawlApp)
    (max_jobs rate_limit window_size max_concurrent : Z) (w : World) :
  1 <= rate_limit -> 1 <= max_concurrent ->
  let successes :=
    omap (fun link => extracted (extract firecrawl link)) (slice_to links max_jobs) in
  (exists (schedule : list event) (js : list JobSchema) (w' : World),
      process_job_links_async links firecrawl max_jobs rate_limit window_size
                              max_concurrent schedule w = Some (Ok js, w'))
  /\ (forall (schedule : list event) (r : result (list JobSchema)) (w' : World),
         process_job_links_async links firecrawl max_jobs rate_limit window_size
                                 max_concurrent schedule w = Some (r, w') ->
         exists js : list JobSchema,
           r = Ok js /\ js ≡ₚ successes /\ length js = length successes)
  /\ (forall (openai : OpenAI) (jobs_url resume output_dir : string)
             (num_recommendations : Z) (page : json) (w0 w1 w2 : World)
             (schedule : list event) (js : list JobSchema),
         resume <> "" ->
         scrape_jobs_page firecrawl jobs_url output_dir (ready output_dir w0)
         = Some (Ok page, w1) ->
         lists_links page links ->
         files w1 !! processed_jobs_path "results" jobs_url = None ->
         process_job_links_async links firecrawl max_jobs rate_limit window_size 5
                                 schedule
                                 (logged INFO "Successfully scraped apply links" w1)
         = Some (Ok js, w2) ->
         let outcome :=
           main firecrawl openai jobs_url resume max_jobs num_recommendations
                rate_limit window_size output_dir schedule w0 in
         (js = [] <-> successes = [])
         /\ (js = [] ->
             outcome = Some (Raise (Exit 1), logged ERROR "Main execution failed" w2))
         /\ (js <> [] ->
             forall (recommended : result (option JobSchemas)) (w3 : World),
               get_job_recommendations openai resume jobs_url js num_recommendations
                 output_dir (logged INFO "Successfully extracted data from jobs" w2)
               = Some (recommended, w3) ->
               match recommended with
               | Ok (Some r) =>
                   outcome
                   = Some (Ok tt,
                           set_records
                             (records w3 ++ [(INFO, "Received job recommendations");
                                             (INFO, "Recommended jobs:")]
                              ++ ((fun j => (INFO, job_title j)) <$> jobs r)) w3)
               | _ =>
                   outcome
                   = Some (Raise (Exit 1), logged ERROR "Main execution failed" w3)
               end)).
Proof.
  intros HR Hc successes. split; [|split].
  - apply process_job_links_async_returns; assumption.
  - intros schedule r w' Hp.
    destruct (process_job_links_async_output links firecrawl max_jobs rate_limit
                window_size max_concurrent schedule w w' r HR ltac:(lia) Hp)
      as (js & -> & Hperm & _).
    exists js. split; [reflexivity|]. split; [exact Hperm|].
    apply Permutation_length. exact Hperm.
  - intros openai jobs_url resume output_dir num_recommendations page w0 w1 w2
           schedule js Hresume Hscrape Hpage Hmiss Hbatch outcome.
    assert (Hmain := main_from_batch firecrawl openai jobs_url resume max_jobs
                       num_recommendations rate_limit window_size output_dir schedule
                       w0 w1 page links Hresume Hscrape Hpage).
    fold outcome in Hmain.
    assert (Hwrap : process_job_links links firecrawl jobs_url max_jobs rate_limit
                      window_size "results" schedule
                      (logged INFO "Successfully scraped apply links" w1)
                    = Some (Ok js, w2)).
    { unfold process_job_links. unfold bind at 1.
      rewrite (path_exists_None _ (logged INFO "Successfully scraped apply links" w1)
                 Hmiss).
      exact Hbatch. }
    rewrite Hwrap in Hmain.
    destruct (process_job_links_async_output links firecrawl max_jobs rate_limit
                window_size 5 schedule _ w2 (Ok js) HR ltac:(lia) Hbatch)
      as (js' & Heq & Hperm & _).
    injection Heq as <-.
    split; [|split].
    + split; intros Hnil.
      * rewrite Hnil in Hperm. apply Permutation_nil. exact Hperm.
      * fold successes in Hperm. rewrite Hnil in Hperm.
        apply Permutation_nil. symmetry. exact Hperm.
    + intros ->. exact Hmain.
    + intros Hsome recommended w3 Hrec.
      destruct js as [|j js]; [congruence|].
      rewrite Hrec in Hmain.
      destruct recommended as [[r|]|e]; exact Hmain.
Qed.

Lemma scheduler_output_is_the_successes_witness :
  (exists w' : World,
      process_job_links_async ["L1"; "L2"; "L3"] sample_firecrawl 3 10 60 5
                              last_in_first_out fresh_world
      = Some (Ok [designer; engineer], w')
      /\ [designer; engineer] ≡ₚ [engineer; designer])
  /\ (exists w' : World,
         main flaky_firecrawl sample_openai "https://x/jobs" "5 years backend"
              3 1 10 60 "results" one_by_one fresh_world
         = Some (Raise (Exit 1), w')
         /\ completion_calls w' = []).
Proof.
  split.
  - eassert (Hrun : process_job_links_async ["L1"; "L2"; "L3"] sample_firecrawl
                      3 10 60 5 last_in_first_out fresh_world
                    = Some (Ok [designer; engineer], _))
      by (vm_compute; reflexivity).
    eexists. split; [exact Hrun|].
    destruct (scheduler_output_is_the_successes ["L1"; "L2"; "L3"] sample_firecrawl
                3 10 60 5 fresh_world ltac:(lia) ltac:(lia)) as (_ & Hout & _).
    destruct (Hout _ _ _ Hrun) as (js & Heq & Hperm & _).
    injection Heq as <-. exact Hperm.
  - eassert (Hscrape : scrape_jobs_page flaky_firecrawl "https://x/jobs" "results"
                         (ready "results" fresh_world)
                       = Some (Ok sample_page, _))
      by (vm_compute; reflexivity).
    match type of Hscrape with
    | _ = Some (_, ?w1) =>
        eassert (Hbatch : process_job_links_async ["L1"; "L2"; "L3"] flaky_firecrawl
                            3 10 60 5 one_by_one
                            (logged INFO "Successfully scraped apply links" w1)
                          = Some (Ok [], _))
          by (vm_compute; reflexivity)
    end.
    assert (Hlists : lists_links sample_page ["L1"; "L2"; "L3"]).
    { split; [reflexivity|].
      exists (JObj [("apply_links", JArr [JStr "L1"; JStr "L2"; JStr "L3"])]),
             (JArr [JStr "L1"; JStr "L2"; JStr "L3"]).
      repeat split. }
    match type of Hscrape with
    | _ = Some (_, ?w1) =>
        assert (Hmiss : files w1 !! processed_jobs_path "results" "https://x/jobs"
                        = None)
          by (vm_compute; reflexivity)
    end.
    destruct (scheduler_output_is_the_successes ["L1"; "L2"; "L3"] flaky_firecrawl
                3 10 60 5 fresh_world ltac:(lia) ltac:(lia)) as (_ & _ & Hmain).
    destruct (Hmain sample_openai "https://x/jobs" "5 years backend" "results" 1
                sample_page fresh_world _ _ one_by_one [] ltac:(discriminate) Hscrape
                Hlists Hmiss Hbatch)
      as (_ & Hexit & _).
    eexists. split; [exact (Hexit eq_refl)|]. vm_compute. reflexivity.
Defined.

(** *** Without a permit nothing starts *)

Lemma step_without_permit (firecrawl : FirecrawlApp) (rate_limit window_size : Z)
    (e : event) (s s' : Sched) :
  permits s = 0 ->
  (forall i t, tasks s !! i = Some t -> snd t = Created) ->
  step firecrawl rate_limit window_size e s = Some s' ->
  permits s' = 0 /\ tasks s' = tasks s /\ failure s' = failure s.
Proof.
  intros Hp Hall Hstep. unfold step in Hstep.
  destruct (failure s) eqn:Hf; [discriminate|].
  destruct e as [i|i|i|i|d].
  - destruct (tasks s !! i) as [[link p]|]; [|discriminate].
    destruct p; try discriminate. rewrite Hp in Hstep. discriminate.
  - destruct (tasks s !! i) as [[link p]|] eqn:Ht; [|discriminate].
    pose proof (Hall i _ Ht) as Hc. cbn in Hc. subst p. discriminate.
  - destruct (tasks s !! i) as [[link p]|] eqn:Ht; [|discriminate].
    pose proof (Hall i _ Ht) as Hc. cbn in Hc. subst p. discriminate.
  - destruct (tasks s !! i) as [[link p]|] eqn:Ht; [|discriminate].
    pose proof (Hall i _ Ht) as Hc. cbn in Hc. subst p. discriminate.
  - destruct (Qle_bool 0 d); [|discriminate]. injection Hstep as <-. auto.
Qed.

(** X26: with a semaphore of zero no task is ever let in: under no schedule
    does a batch with a link to extract return. *)
Lemma zero_concurrency_never_returns (links : list string) (firecrawl : FirecrawlApp)
    (max_jobs rate_limit window_size : Z) (schedule : list event) (w : World) :
  slice_to links max_jobs <> [] ->
  process_job_links_async links firecrawl max_jobs rate_limit window_size 0 schedule w
  = None.
Proof.
  intros Hsome. unfold process_job_links_async. cbn [Z.ltb Z.compare].
  assert (Hrun : forall (evs : list event) (s s' : Sched),
             permits s = 0 ->
             (forall i t, tasks s !! i = Some t -> snd t = Created) ->
             run firecrawl rate_limit window_size evs s = Some s' ->
             failure s' = failure s /\ tasks s' = tasks s).
  { induction evs as [|e evs IH]; intros s s' Hp Hall Hr.
    - injection Hr as <-. auto.
    - cbn [run] in Hr.
      destruct (step firecrawl rate_limit window_size e s) as [s1|] eqn:Hstep;
        [|discriminate].
      destruct (step_without_permit _ _ _ _ _ _ Hp Hall Hstep) as (Hp1 & Ht1 & Hf1).
      destruct (IH s1 s' Hp1) as [Hf Ht]; [rewrite Ht1; exact Hall | exact Hr |].
      split; congruence. }
  destruct (run firecrawl rate_limit window_size schedule (start links max_jobs 0 w))
    as [s|] eqn:Hs; [|reflexivity].
  destruct (Hrun schedule (start links max_jobs 0 w) s eq_refl) as [Hf Ht];
    [| exact Hs |].
  { intros i t H. unfold start, spawn in H. cbn [tasks] in H.
    apply list_lookup_fmap_Some in H. destruct H as (l & -> & _). reflexivity. }
  rewrite Hf. cbn [failure start]. rewrite Ht. unfold start, spawn. cbn [tasks].
  destruct (slice_to links max_jobs) as [|l ls]; [congruence|]. reflexivity.
Qed.

(** ** The cache wrappers, called twice *)

(** X7: the scrape wrapper called twice.  On a miss a usable scrape result
    is written under the key and returned; the second call then reads it
    back, equal to the first result, and does not scrape again. *)
Lemma scrape_jobs_page_twice (firecrawl : FirecrawlApp) (url output_dir : string)
    (w : World) (v : json) :
  files w !! scrape_result_path output_dir url = None ->
  scrape_url firecrawl (length (scrape_calls w)) url = Ok v ->
  truthy v = true ->
  py_in "json" v = Ok true ->
  exists w1 : World,
    scrape_jobs_page firecrawl url output_dir w = Some (Ok v, w1)
    /\ scrape_jobs_page firecrawl url output_dir w1 = Some (Ok v, w1)
    /\ scrape_calls w1 = scrape_calls w ++ [url].
Proof.
  intros Hmiss Hscrape Htruthy Hin.
  set (path := scrape_result_path output_dir url).
  set (w1 := set_files (<[path := JsonText v]> (files w))
                       (set_scrape_calls (scrape_calls w ++ [url]) w)).
  assert (Hhit : files w1 !! path = Some (JsonText v))
    by (subst w1; cbn [files set_files]; apply lookup_insert_eq).
  unfold path in *. exists w1. split; [|split]; [| |reflexivity].
  - unfold scrape_jobs_page. unfold bind at 1.
    rewrite (path_exists_None _ _ Hmiss).
    unfold bind, attempt, firecrawl_scrape_url, lift, ret, raise, json_dump.
    rewrite Hscrape, Htruthy, Hin. reflexivity.
  - unfold scrape_jobs_page. unfold bind at 1.
    rewrite (path_exists_Some _ _ _ Hhit). apply (json_load_text _ _ _ Hhit).
Qed.

(** A scrape that fails is not cached: the wrapper returns [None] and the
    files are as before, so the next call scrapes again. *)
Lemma scrape_jobs_page_failure_not_cached (firecrawl : FirecrawlApp)
    (url output_dir : string) (w : World) (e : exn) :
  files w !! scrape_result_path output_dir url = None ->
  scrape_url firecrawl (length (scrape_calls w)) url = Raise e ->
  exists w1 : World,
    scrape_jobs_page firecrawl url output_dir w = Some (Ok JNull, w1)
    /\ files w1 = files w
    /\ scrape_calls w1 = scrape_calls w ++ [url].
Proof.
  intros Hmiss Hscrape. eexists. split.
  - unfold scrape_jobs_page. unfold bind at 1.
    rewrite (path_exists_None _ _ Hmiss).
    unfold bind, attempt, firecrawl_scrape_url, lift, ret, raise, logger_exception, emit.
    rewrite Hscrape. reflexivity.
  - split; reflexivity.
Qed.

(** X9: the recommendation wrapper called twice.  On a miss a completion
    that parses and validates is written under the key and returned; the
    second call reads it back, equal to the first result, and requests no
    completion. *)
Lemma get_job_recommendations_twice (openai : OpenAI) (resume url : string)
    (jobs : list JobSchema) (n : Z) (output_dir : string) (w : World)
    (data : json) (more : list Choice) (r : JobSchemas) :
  files w !! recommendations_path output_dir url = None ->
  completions_parse openai (length (completion_calls w))
                    (mkPrompt n resume (model_dump <$> jobs))
  = Ok (mkChoice (Some (JsonText data)) :: more) ->
  JobSchemas_new data = Ok r ->
  exists w1 : World,
    get_job_recommendations openai resume url jobs n output_dir w = Some (Ok (Some r), w1)
    /\ get_job_recommendations openai resume url jobs n output_dir w1
       = Some (Ok (Some r), w1)
    /\ completion_calls w1
       = completion_calls w ++ [mkPrompt n resume (model_dump <$> jobs)].
Proof.
  intros Hmiss Hparse Hvalid.
  set (path := recommendations_path output_dir url).
  set (prompt := mkPrompt n resume (model_dump <$> jobs)).
  set (w1 := set_files (<[path := JsonText (dump_jobs r)]> (files w))
                       (set_completion_calls (completion_calls w ++ [prompt]) w)).
  assert (Hhit : files w1 !! path = Some (JsonText (dump_jobs r)))
    by (subst w1; cbn [files set_files]; apply lookup_insert_eq).
  unfold path, prompt in *. exists w1. split; [|split]; [| |reflexivity].
  - unfold get_job_recommendations. unfold bind at 1.
    rewrite (path_exists_None _ _ Hmiss).
    unfold bind, attempt, request_recommendations, openai_parse, bind, lift, ret,
      json_dump.
    rewrite Hparse. cbn [content blank json_loads]. rewrite Hvalid.
    reflexivity.
  - apply (get_job_recommendations_hit _ _ _ _ _ _ _ _ _ Hhit).
    unfold read_recommendations, dump_jobs. apply (JobSchemas_new_dump r).
Qed.

(** X12: the batch wrapper writes no file: if the cache is missing before a
    call it is missing after it, and the call is the computation itself. *)
Lemma process_job_links_never_persists (links : list string) (firecrawl : FirecrawlApp)
    (url : string) (max_jobs rate_limit window_size : Z) (output_dir : string)
    (schedule : list event) (w w' : World) (r : result (list JobSchema)) :
  1 <= rate_limit ->
  files w !! processed_jobs_path output_dir url = None ->
  process_job_links links firecrawl url max_jobs rate_limit window_size output_dir
                    schedule w = Some (r, w') ->
  process_job_links_async links firecrawl max_jobs rate_limit window_size 5 schedule w
  = Some (r, w')
  /\ files w' = files w
  /\ files w' !! processed_jobs_path output_dir url = None.
Proof.
  intros HR Hmiss Hrun. unfold process_job_links in Hrun. unfold bind at 1 in Hrun.
  rewrite (path_exists_None _ _ Hmiss) in Hrun.
  destruct (process_job_links_async_output links firecrawl max_jobs rate_limit
              window_size 5 schedule w w' r HR ltac:(lia) Hrun) as (js & _ & _ & Hfiles).
  split; [exact Hrun|]. split; [exact Hfiles|]. rewrite Hfiles. exact Hmiss.
Qed.

(** C1, at a failing input: with an empty output directory and an
    extraction that succeeds for two of three links, the first call of
    [process_job_links] returns the two records and leaves the directory
    empty; the second call with the same key finds no cache and extracts
    again, so that each link has been sent to the extraction API twice. *)
Theorem batch_wrapper_computes_twice :
  exists w1 w2 : World,
    process_job_links ["L1"; "L2"; "L3"] sample_firecrawl "https://x/jobs" 3 10 60
                      "results" one_by_one fresh_world
    = Some (Ok [engineer; designer], w1)
    /\ files w1 = ∅
    /\ extract_calls w1 = ["L1"; "L2"; "L3"]
    /\ process_job_links ["L1"; "L2"; "L3"] sample_firecrawl "https://x/jobs" 3 10 60
                         "results" one_by_one w1
       = Some (Ok [engineer; designer], w2)
    /\ extract_calls w2 = ["L1"; "L2"; "L3"; "L1"; "L2"; "L3"].
Proof.
  eexists. eexists.
  split; [vm_compute; reflexivity|].
  split; [reflexivity|]. split; [reflexivity|].
  split; [vm_compute; reflexivity | reflexivity].
Qed.

(** ** End to end *)

(** Three links of which two extract: [main] returns, having written the
    scrape and the recommendation under the key of the seed URL and nothing
    for the batch. *)
Lemma main_end_to_end :
  exists w' : World,
    main sample_firecrawl sample_openai "https://x/jobs" "5 years backend"
         3 1 10 60 "results" one_by_one fresh_world
    = Some (Ok tt, w')
    /\ files w' !! scrape_result_path "results" "https://x/jobs"
       = Some (JsonText sample_page)
    /\ files w' !! processed_jobs_path "results" "https://x/jobs" = None
    /\ files w' !! recommendations_path "results" "https://x/jobs"
       = Some (JsonText (dump_jobs (mkJobs [engineer])))
    /\ extract_calls w' = ["L1"; "L2"; "L3"].
Proof.
  eexists. split; [vm_compute; reflexivity|].
  repeat split; vm_compute; reflexivity.
Qed.

(** No link extracts: the batch is empty, and [main] logs and exits with
    code 1 without asking for a recommendation. *)
Lemma main_fails_without_jobs :
  exists w' : World,
    main flaky_firecrawl sample_openai "https://x/jobs" "5 years backend"
         3 1 10 60 "results" one_by_one fresh_world
    = Some (Raise (Exit 1), w')
    /\ completion_calls w' = []
    /\ last (records w') = Some (ERROR, "Main execution failed").
Proof.
  eexists. split; [vm_compute; reflexivity|].
  split; vm_compute; reflexivity.
Qed.

(** * Further properties of the code *)

(** ** src/types.py: the job records *)

(** X1: a job record survives [model_dump] followed by the constructor, and
    so do a list of records and a [JobSchemas]: what the program writes of
    its records it reads back unchanged. *)
Theorem job_records_round_trip (j : JobSchema) (js : list JobSchema) (r : JobSchemas) :
  JobSchema_new (model_dump j) = Ok j
  /\ JobSchema_list (model_dump <$> js) = Ok js
  /\ JobSchemas_new (dump_jobs r) = Ok r
  /\ read_recommendations (dump_jobs r) = Ok r
  /\ read_recommendations (JArr (model_dump <$> jobs r)) = Ok r.
Proof.
  split; [apply JobSchema_new_dump|]. split; [apply JobSchema_list_dump|].
  split; [apply JobSchemas_new_dump|]. split; [apply JobSchemas_new_dump|].
  destruct r as [l]. cbn. rewrite JobSchema_list_dump. reflexivity.
Qed.

Lemma obj_get_skip (k key : string) (v : json) (pre post : list (string * json)) :
  k <> key -> obj_get k (pre ++ (key, v) :: post) = obj_get k (pre ++ post).
Proof.
  intros Hne. induction pre as [|[k' v'] pre IH]; cbn.
  - destruct (String.eqb key k) eqn:E; [|reflexivity].
    apply String.eqb_eq in E. congruence.
  - rewrite IH. reflexivity.
Qed.

(** X2: [JobSchema] cannot be built from data that lacks one of its six
    fields, whatever else the data holds: the constructor raises
    [ValidationError]; and data that is not a mapping cannot be unpacked:
    [TypeError]. *)
Theorem job_record_needs_every_field (fields : list (string * json)) (key : string) :
  key ∈ required_fields ->
  obj_get key fields = None ->
  JobSchema_new (JObj fields) = Raise ValidationError
  /\ JobSchema_new JNull = Raise TypeError
  /\ (forall items, JobSchema_new (JArr items) = Raise TypeError)
  /\ (forall s, JobSchema_new (JStr s) = Raise TypeError).
Proof.
  intros Hkey Hmissing. split; [|repeat split].
  unfold JobSchema_new, JobSchema_fields, required_fields in *.
  repeat (apply elem_of_cons in Hkey; destruct Hkey as [-> | Hkey]);
    [..|apply elem_of_nil in Hkey; contradiction];
    rewrite Hmissing; cbn;
    repeat (match goal with
            | |- context [obj_get ?k fields ≫= ?f] =>
                destruct (obj_get k fields ≫= f); cbn
            end);
    reflexivity.
Qed.

Lemma job_record_needs_every_field_witness :
  JobSchema_new (JObj [("job_title", JStr "Engineer")]) = Raise ValidationError.
Proof.
  apply (job_record_needs_every_field [("job_title", JStr "Engineer")] "location").
  - unfold required_fields. set_solver.
  - reflexivity.
Defined.

(** X3: a key that is not a field of [JobSchema] is ignored wherever it
    stands in the data: with or without it the constructor gives the same
    record or the same error. *)
Theorem job_record_ignores_unknown_keys
    (pre post : list (string * json)) (key : string) (v : json) :
  key ∉ required_fields ->
  JobSchema_new (JObj (pre ++ (key, v) :: post)) = JobSchema_new (JObj (pre ++ post)).
Proof.
  intros Hkey. unfold JobSchema_new, JobSchema_fields.
  assert (Hskip : forall k, k ∈ required_fields ->
                            obj_get k (pre ++ (key, v) :: post) = obj_get k (pre ++ post)).
  { intros k Hk. apply obj_get_skip. intros ->. contradiction. }
  rewrite !Hskip by (unfold required_fields; set_solver). reflexivity.
Qed.

Lemma job_record_ignores_unknown_keys_witness :
  JobSchema_new (JObj ([("job_title", JStr "Engineer")] ++ ("salary_band", JNum 3)
                       :: [("location", JStr "Remote")]))
  = JobSchema_new (JObj ([("job_title", JStr "Engineer")]
                         ++ [("location", JStr "Remote")])).
Proof.
  apply (job_record_ignores_unknown_keys [("job_title", JStr "Engineer")]
           [("location", JStr "Remote")] "salary_band" (JNum 3)).
  unfold required_fields. intros H.
  repeat (apply elem_of_cons in H; destruct H as [H | H]; [discriminate H|]).
  apply elem_of_nil in H. exact H.
Defined.

(** ** The cache keys *)

Lemma safe_url_fixed (url : string) : has_slash url = false -> safe_url url = url.
Proof.
  induction url as [|c rest IH]; [reflexivity|].
  cbn. destruct (Ascii.eqb c "/") eqn:E; [discriminate|].
  cbn. intros H. rewrite (IH H). reflexivity.
Qed.

Lemma safe_url_no_slash (url : string) : has_slash (safe_url url) = false.
Proof.
  induction url as [|c rest IH]; [reflexivity|].
  cbn. destruct (Ascii.eqb c "/") eqn:E; cbn; [exact IH|].
  rewrite E. exact IH.
Qed.

(** X4: the cache key of a URL has no slash in it, is as long as the URL,
    is the URL itself when that has no slash, and is its own key. *)
Theorem cache_key_is_slash_free (url : string) :
  has_slash (safe_url url) = false
  /\ String.length (safe_url url) = String.length url
  /\ (has_slash url = false -> safe_url url = url)
  /\ safe_url (safe_url url) = safe_url url.
Proof.
  split; [apply safe_url_no_slash|]. split; [|split].
  - induction url as [|c rest IH]; cbn; congruence.
  - apply safe_url_fixed.
  - apply safe_url_fixed, safe_url_no_slash.
Qed.

(** X5: two seed URLs with the same key share their three cache files; a
    scrape result cached for the one is returned for the other, and the
    other is never scraped. *)
Theorem colliding_urls_share_the_cache
    (firecrawl : FirecrawlApp) (url1 url2 output_dir : string) (w : World) (v : json) :
  safe_url url1 = safe_url url2 ->
  files w !! scrape_result_path output_dir url1 = Some (JsonText v) ->
  scrape_result_path output_dir url2 = scrape_result_path output_dir url1
  /\ processed_jobs_path output_dir url2 = processed_jobs_path output_dir url1
  /\ recommendations_path output_dir url2 = recommendations_path output_dir url1
  /\ scrape_jobs_page firecrawl url2 output_dir w = Some (Ok v, w).
Proof.
  intros Hkey Hfile.
  unfold scrape_result_path, processed_jobs_path, recommendations_path.
  rewrite Hkey. repeat split.
  unfold scrape_jobs_page, scrape_result_path. rewrite <- Hkey.
  unfold bind. unfold scrape_result_path in Hfile.
  rewrite (path_exists_Some _ _ _ Hfile). apply (json_load_text _ _ _ Hfile).
Qed.

Lemma colliding_urls_share_the_cache_witness :
  "https://x/jobs" <> "https:__x_jobs"
  /\ scrape_jobs_page broken_firecrawl "https:__x_jobs" "results" scrape_cached
     = Some (Ok sample_page, scrape_cached).
Proof.
  split; [discriminate|].
  apply (colliding_urls_share_the_cache broken_firecrawl "https://x/jobs"
           "https:__x_jobs" "results" scrape_cached sample_page).
  - reflexivity.
  - vm_compute. reflexivity.
Defined.

(** ** services.py: the cache wrappers on a miss and on a hit *)

(** X6: on a miss [scrape_jobs_page] asks for exactly one scrape.  When
    the call raises, or its result is not usable (falsy, without [json], or
    a value on which the test for [json] raises), the failure is caught: the
    wrapper returns [None], writes nothing and logs the failure.  When the
    result is usable nothing is logged, and the wrapper ends as the write of
    the result under the key ends, returning the result after it: with the
    store taking the write, the file then holds the result. *)
Theorem scrape_miss_caches_only_usable_results
    (firecrawl : FirecrawlApp) (url output_dir : string) (w : World) :
  files w !! scrape_result_path output_dir url = None ->
  let path := scrape_result_path output_dir url in
  let called := set_scrape_calls (scrape_calls w ++ [url]) w in
  let failed :=
    Some (Ok JNull, logged ERROR ("Failed to scrape jobs from " +:+ url) called) in
  match scrape_url firecrawl (length (scrape_calls w)) url with
  | Ok v =>
      if usable v
      then scrape_jobs_page firecrawl url output_dir w
           = (json_dump v path;; ret v) called
           /\ (json_dump v path;; ret v) called
              = Some (Ok v, set_files (<[path := JsonText v]> (files w)) called)
      else scrape_jobs_page firecrawl url output_dir w = failed
  | Raise _ => scrape_jobs_page firecrawl url output_dir w = failed
  end.
Proof.
  intros Hmiss path called failed. unfold scrape_jobs_page, bind.
  rewrite (path_exists_None _ _ Hmiss).
  unfold failed, called, path, usable, logged.
  unfold attempt, firecrawl_scrape_url, lift, ret, raise, json_dump,
    logger_exception, emit.
  destruct (scrape_url firecrawl (length (scrape_calls w)) url) as [v|e] eqn:Hs;
    [|reflexivity].
  destruct (truthy v) eqn:Ht; [|reflexivity].
  destruct (py_in "json" v) as [[|]|e] eqn:Hin; cbn; [split| |]; reflexivity.
Qed.

Lemma scrape_miss_caches_only_usable_results_witness :
  scrape_jobs_page broken_firecrawl "https://x/jobs" "results" fresh_world
  = Some (Ok JNull,
          logged ERROR "Failed to scrape jobs from https://x/jobs"
                 (set_scrape_calls ["https://x/jobs"] fresh_world))
  /\ scrape_jobs_page sample_firecrawl "https://x/jobs" "results" fresh_world
     = Some (Ok sample_page,
             set_files {[ scrape_result_path "results" "https://x/jobs"
                          := JsonText sample_page ]}
                       (set_scrape_calls ["https://x/jobs"] fresh_world)).
Proof.
  split.
  - exact (scrape_miss_caches_only_usable_results broken_firecrawl "https://x/jobs"
             "results" fresh_world eq_refl).
  - destruct (scrape_miss_caches_only_usable_results sample_firecrawl "https://x/jobs"
                "results" fresh_world eq_refl) as [Hrun Hwrite].
    rewrite Hrun. exact Hwrite.
Defined.

Lemma scrape_jobs_page_twice_witness :
  exists w1 : World,
    scrape_jobs_page sample_firecrawl "https://x/jobs" "results" fresh_world
    = Some (Ok sample_page, w1)
    /\ scrape_jobs_page sample_firecrawl "https://x/jobs" "results" w1
       = Some (Ok sample_page, w1)
    /\ scrape_calls w1 = ["https://x/jobs"].
Proof.
  apply (scrape_jobs_page_twice sample_firecrawl "https://x/jobs" "results"
           fresh_world sample_page); reflexivity.
Defined.

Lemma read_recommendations_error (data : json) (e : exn) :
  read_recommendations data = Raise e -> e = TypeError \/ e = ValidationError.
Proof.
  assert (Hnew : forall x e', JobSchema_new x = Raise e' ->
                              e' = TypeError \/ e' = ValidationError).
  { intros x e' H. unfold JobSchema_new in H.
    destruct x; try (injection H as <-; auto).
    destruct (JobSchema_fields fields); [discriminate | injection H as <-; auto]. }
  assert (Hlist : forall items e', JobSchema_list items = Raise e' ->
                                   e' = TypeError \/ e' = ValidationError).
  { induction items as [|x items IH]; intros e' H; [discriminate|].
    cbn in H. destruct (JobSchema_new x) eqn:Hx.
    - destruct (JobSchema_list items) eqn:Hl; [discriminate|].
      injection H as <-. apply IH. reflexivity.
    - injection H as <-. eapply Hnew. exact Hx. }
  unfold read_recommendations, JobSchemas_new. intros H.
  destruct data; try (injection H as <-; auto).
  - destruct (JobSchema_list items) eqn:Hl; [discriminate|].
    injection H as <-. eapply Hlist. exact Hl.
  - destruct (obj_get "jobs" fields) as [[| | | |items|]|];
      try (injection H as <-; auto).
    destruct (JobSchema_list items); [discriminate | injection H as <-; auto].
Qed.




Lemma get_job_recommendations_twice_witness :
  exists w1 : World,
    get_job_recommendations sample_openai "cv" "https://x/jobs" [engineer; designer] 1
                            "results" fresh_world
    = Some (Ok (Some (mkJobs [engineer])), w1)
    /\ get_job_recommendations sample_openai "cv" "https://x/jobs" [engineer; designer]
                               1 "results" w1
       = Some (Ok (Some (mkJobs [engineer])), w1)
    /\ completion_calls w1
       = [mkPrompt 1 "cv" (model_dump <$> [engineer; designer])].
Proof.
  apply (get_job_recommendations_twice sample_openai "cv" "https://x/jobs"
           [engineer; designer] 1 "results" fresh_world
           (dump_jobs (mkJobs [engineer])) [] (mkJobs [engineer])); reflexivity.
Defined.

(** X10: a recommendation cache that parses as JSON but is not a list of job
    records or a [JobSchemas] is not treated as a miss: the error of the
    constructor ([TypeError] or [ValidationError]) leaves the call, and no
    completion is requested. *)
Theorem recommendation_cache_schema_error_propagates
    (openai : OpenAI) (resume url : string) (jobs : list JobSchema) (n : Z)
    (output_dir : string) (w : World) (data : json) (e : exn) :
  files w !! recommendations_path output_dir url = Some (JsonText data) ->
  read_recommendations data = Raise e ->
  get_job_recommendations openai resume url jobs n output_dir w = Some (Raise e, w)
  /\ (e = TypeError \/ e = ValidationError).
Proof.
  intros Hfile Hread. pose proof (read_recommendations_error _ _ Hread) as He.
  split; [|exact He].
  unfold get_job_recommendations, bind, attempt, lift.
  rewrite (path_exists_Some _ _ _ Hfile), (json_load_text _ _ _ Hfile), Hread.
  destruct He as [-> | ->]; reflexivity.
Qed.

Lemma recommendation_cache_schema_error_propagates_witness :
  get_job_recommendations sample_openai "cv" "https://x/jobs" [] 1 "results"
                          recommendations_misshapen
  = Some (Raise ValidationError, recommendations_misshapen).
Proof.
  apply (recommendation_cache_schema_error_propagates sample_openai "cv"
           "https://x/jobs" [] 1 "results" recommendations_misshapen
           (JObj [("results", JArr [])]) ValidationError).
  - vm_compute. reflexivity.
  - reflexivity.
Defined.

(** X11: when the batch cache holds a JSON array, [process_job_links] returns
    what the constructor makes of its items, records or the first error, and
    does nothing else: no link is extracted, whatever the links, the limits
    and the schedule; a cache holding dumped records gives these records. *)
Theorem batch_cache_hit_skips_extraction
    (links : list string) (firecrawl : FirecrawlApp) (url : string)
    (max_jobs rate_limit window_size : Z) (output_dir : string)
    (schedule : list event) (w : World) (items : list json) :
  files w !! processed_jobs_path output_dir url = Some (JsonText (JArr items)) ->
  process_job_links links firecrawl url max_jobs rate_limit window_size output_dir
                    schedule w
  = Some (JobSchema_list items, w)
  /\ (forall js, items = model_dump <$> js -> JobSchema_list items = Ok js).
Proof.
  intros Hfile. split.
  - unfold process_job_links, bind, lift.
    rewrite (path_exists_Some _ _ _ Hfile), (json_load_text _ _ _ Hfile). cbn.
    destruct (JobSchema_list items); reflexivity.
  - intros js ->. apply JobSchema_list_dump.
Qed.

Lemma batch_cache_hit_skips_extraction_witness :
  process_job_links ["L1"; "L2"; "L3"] broken_firecrawl "https://x/jobs" 3 10 60
                    "results" [] batch_cached
  = Some (Ok [designer], batch_cached).
Proof.
  apply (proj1 (batch_cache_hit_skips_extraction ["L1"; "L2"; "L3"] broken_firecrawl
                  "https://x/jobs" 3 10 60 "results" [] batch_cached
                  [model_dump designer] ltac:(vm_compute; reflexivity))).
Defined.

Lemma process_job_links_never_persists_witness :
  exists w' : World,
    process_job_links ["L1"; "L2"; "L3"] sample_firecrawl "https://x/jobs" 3 10 60
                      "results" one_by_one fresh_world
    = Some (Ok [engineer; designer], w')
    /\ files w' !! processed_jobs_path "results" "https://x/jobs" = None.
Proof.
  eassert (Hrun : process_job_links ["L1"; "L2"; "L3"] sample_firecrawl
                    "https://x/jobs" 3 10 60 "results" one_by_one fresh_world
                  = Some (Ok [engineer; designer], _))
    by (vm_compute; reflexivity).
  eexists. split; [exact Hrun|].
  apply (process_job_links_never_persists ["L1"; "L2"; "L3"] sample_firecrawl
           "https://x/jobs" 3 10 60 "results" one_by_one fresh_world _ _
           ltac:(lia) eq_refl Hrun).
Defined.

(** ** The rate gates at their edges *)

Lemma rate_limit_loop_without_limit (rate_limit window_size : Z) :
  rate_limit <= 0 ->
  forall (ts : list Q) (fuel : nat) (w : World),
    request_timestamps w = ts ->
    (S (2 * length ts) <= fuel)%nat ->
    exists w' : World,
      rate_limit_loop fuel rate_limit window_size (clock w) w
      = Some (Raise IndexError, w')
      /\ request_timestamps w' = []
      /\ same_outside_gate w w'.
Proof.
  intros HR.
  assert (Hfull : forall l : list Q, (Z.of_nat (length l) >=? rate_limit) = true)
    by (intros l; apply Z.geb_le; lia).
  induction ts as [|t rest IH]; intros fuel w Hts Hfuel.
  - destruct fuel as [|fuel]; [cbn [length] in Hfuel; lia|].
    exists w. split; [|split; [exact Hts | apply same_outside_gate_refl]].
    cbn [rate_limit_loop]. unfold bind at 1, get_request_timestamps at 1.
    rewrite Hts, Hfull. reflexivity.
  - cbn [length] in Hfuel. destruct fuel as [|fuel]; [lia|].
    cbn [rate_limit_loop]. unfold bind at 1, get_request_timestamps at 1.
    rewrite Hts, Hfull.
    destruct (Qlt_bool (clock w - inject_Z window_size) t) eqn:Hfresh.
    + destruct fuel as [|fuel]; [lia|].
      pose proof (proj1 (Qlt_bool_true _ _) Hfresh) as Hlt.
      set (wait := (t - (clock w - inject_Z window_size) + (1 # 10))%Q).
      set (w1 := set_clock (clock w + wait)%Q w).
      assert (Hstale : Qlt_bool (clock w1 - inject_Z window_size) t = false).
      { apply Qlt_bool_false. subst w1 wait. cbn [clock set_clock]. lra. }
      unfold bind at 1, sleep at 1. fold wait. fold w1.
      unfold bind at 1, time_time at 1.
      cbn [rate_limit_loop]. unfold bind at 1, get_request_timestamps at 1.
      change (request_timestamps w1) with (request_timestamps w).
      rewrite Hts, Hfull, Hstale.
      unfold bind at 1, put_request_timestamps at 1.
      destruct (IH fuel (set_request_timestamps rest w1) eq_refl ltac:(lia))
        as (w' & Hrun & Hempty & Hsame).
      exists w'. split; [exact Hrun|]. split; [exact Hempty|].
      eapply same_outside_gate_trans; [|exact Hsame]. repeat split.
    + unfold bind at 1, put_request_timestamps at 1.
      destruct (IH fuel (set_request_timestamps rest w) eq_refl ltac:(lia))
        as (w' & Hrun & Hempty & Hsame).
      exists w'. split; [exact Hrun|]. split; [exact Hempty|].
      eapply same_outside_gate_trans; [|exact Hsame]. repeat split.
Qed.

(** X13: a rate limit that is not positive cannot be met.  The loop of the
    asynchronous extractor empties the deque and then indexes it: the task
    raises [IndexError] outside its [try], before any call is made and
    without a logger record.  [wait_for_rate_limit] raises likewise as soon
    as its eviction leaves the deque empty. *)
Theorem nonpositive_rate_limit_raises
    (link : string) (firecrawl : FirecrawlApp) (rate_limit window_size : Z)
    (w : World) :
  rate_limit <= 0 ->
  (exists w' : World,
      extract_job_data_async link firecrawl rate_limit window_size w
      = Some (Raise IndexError, w')
      /\ request_timestamps w' = []
      /\ extract_calls w' = extract_calls w
      /\ records w' = records w)
  /\ (Forall (fun t => (t < clock w - inject_Z window_size)%Q) (request_timestamps w) ->
      wait_for_rate_limit rate_limit window_size w
      = Some (Raise IndexError, set_request_timestamps [] w)).
Proof.
  intros HR. split.
  - destruct (rate_limit_loop_without_limit rate_limit window_size HR
                (request_timestamps w) (S (2 * length (request_timestamps w))) w
                eq_refl (Nat.le_refl _))
      as (w' & Hrun & Hempty & (_ & _ & Hec & _ & Hrec)).
    exists w'. rewrite extract_job_data_async_unfold.
    unfold rate_gate, bind, time_time, get_request_timestamps. rewrite Hrun. auto.
  - intros Hold. unfold wait_for_rate_limit.
    unfold bind at 1, time_time at 1. unfold bind at 1, get_request_timestamps at 1.
    unfold bind at 1, put_request_timestamps at 1.
    unfold bind at 1, get_request_timestamps at 1.
    cbn [request_timestamps set_request_timestamps].
    rewrite (evict_older_all _ _ Hold).
    assert (Hfull : (Z.of_nat (length (@nil Q)) >=? rate_limit) = true)
      by (apply Z.geb_le; cbn [length]; lia).
    rewrite Hfull. reflexivity.
Qed.

Lemma nonpositive_rate_limit_raises_witness :
  exists w' : World,
    extract_job_data_async "L1" sample_firecrawl 0 60 busy_world
    = Some (Raise IndexError, w')
    /\ extract_calls w' = [].
Proof.
  destruct (nonpositive_rate_limit_raises "L1" sample_firecrawl 0 60 busy_world
              ltac:(lia)) as [(w' & Hrun & _ & Hec & _) _].
  exists w'. split; [exact Hrun | exact Hec].
Defined.

(** X14: [wait_for_rate_limit] only ever removes timestamps, from the front,
    and only those strictly older than the window; the oldest it keeps is
    inside the window; it adds none; and evicting again at the same time
    would remove nothing more. *)
Theorem wait_for_rate_limit_evicts_only_expired
    (rate_limit window_size : Z) (w : World) :
  1 <= rate_limit ->
  exists (w' : World) (evicted : list Q),
    wait_for_rate_limit rate_limit window_size w = Some (Ok tt, w')
    /\ request_timestamps w = evicted ++ request_timestamps w'
    /\ Forall (fun t => (t < clock w - inject_Z window_size)%Q) evicted
    /\ (forall t rest, request_timestamps w' = t :: rest ->
                       within_window window_size (clock w) t)
    /\ evict_older (clock w - inject_Z window_size) (request_timestamps w')
       = request_timestamps w'
    /\ files w' = files w /\ extract_calls w' = extract_calls w.
Proof.
  intros HR.
  destruct (wait_for_rate_limit_spec rate_limit window_size w HR)
    as (w' & Hrun & Hts & _).
  destruct (evict_older_split (clock w - inject_Z window_size) (request_timestamps w))
    as (ev & Hsplit & Hev).
  exists w', ev. rewrite Hts. repeat split; try assumption.
  - intros t rest Hkept. unfold within_window. eapply evict_older_head. exact Hkept.
  - apply evict_older_idempotent.
  - revert Hrun. unfold wait_for_rate_limit, bind, time_time, get_request_timestamps,
      put_request_timestamps, logger_info, emit, sleep, ret, raise.
    cbn [request_timestamps set_request_timestamps].
    repeat case_match; intros [= <-]; reflexivity.
  - revert Hrun. unfold wait_for_rate_limit, bind, time_time, get_request_timestamps,
      put_request_timestamps, logger_info, emit, sleep, ret, raise.
    cbn [request_timestamps set_request_timestamps].
    repeat case_match; intros [= <-]; reflexivity.
Qed.

Lemma wait_for_rate_limit_evicts_only_expired_witness :
  exists w' : World,
    wait_for_rate_limit 2 60 busy_world = Some (Ok tt, w')
    /\ request_timestamps w' = [0%Q; 0%Q].
Proof.
  destruct (wait_for_rate_limit_evicts_only_expired 2 60 busy_world ltac:(lia))
    as (w' & ev & Hrun & _).
  exists w'. split; [exact Hrun|].
  vm_compute in Hrun. injection Hrun as <-. reflexivity.
Defined.

(** ** services.py: the two extractors side by side *)

(** The synchronous extractor leaves the files and the clock alone. *)
Lemma sync_extractor_keeps_files_and_clock (link : string) (firecrawl : FirecrawlApp)
    (w : World) :
  exists w' : World,
    extract_job_data link firecrawl w
    = Some (Ok (extracted (extract firecrawl link)), w')
    /\ files w' = files w /\ clock w' = clock w.
Proof.
  unfold extract_job_data, extracted, accepted_payload, read_extract_result,
    firecrawl_extract, bind, attempt, lift, ret, raise, logger_warning,
    logger_exception, emit, py_get.
  destruct (extract firecrawl link) as [result|e].
  - destruct result as [| | | | |fields]; try ((eexists; (split; [reflexivity|]); repeat split)).
    destruct (truthy (default JNull (obj_get "success" fields))); cbn.
    + destruct (truthy (default JNull (obj_get "data" fields))); cbn.
      * destruct (JobSchema_new (default JNull (obj_get "data" fields))); cbn;
          (eexists; (split; [reflexivity|]); repeat split).
      * (eexists; (split; [reflexivity|]); repeat split).
    + (eexists; (split; [reflexivity|]); repeat split).
  - (eexists; (split; [reflexivity|]); repeat split).
Qed.

(** X15: the synchronous extractor makes exactly one extraction call, for
    its link, and returns, never raises; it touches neither the files, the
    clock nor the deque, and when it returns a record it has logged
    nothing. *)
Theorem extract_job_data_calls_once (link : string) (firecrawl : FirecrawlApp)
    (w : World) :
  exists w' : World,
    extract_job_data link firecrawl w
    = Some (Ok (extracted (extract firecrawl link)), w')
    /\ extract_calls w' = extract_calls w ++ [link]
    /\ files w' = files w /\ clock w' = clock w
    /\ request_timestamps w' = request_timestamps w
    /\ scrape_calls w' = scrape_calls w /\ completion_calls w' = completion_calls w
    /\ (forall job, extracted (extract firecrawl link) = Some job ->
                    records w' = records w).
Proof.
  unfold extract_job_data, extracted, accepted_payload, read_extract_result,
    firecrawl_extract, bind, attempt, lift, ret, raise, logger_warning,
    logger_exception, emit, py_get.
  destruct (extract firecrawl link) as [result|e].
  - destruct result as [| | | | |fields];
      try ((eexists; (split; [reflexivity|]); repeat split; cbn; intros job [=])).
    destruct (truthy (default JNull (obj_get "success" fields))); cbn.
    + destruct (truthy (default JNull (obj_get "data" fields))); cbn.
      * destruct (JobSchema_new (default JNull (obj_get "data" fields))); cbn;
          (eexists; (split; [reflexivity|]); repeat split; cbn; intros job [=]).
      * (eexists; (split; [reflexivity|]); repeat split; cbn; intros job [=]).
    + (eexists; (split; [reflexivity|]); repeat split; cbn; intros job [=]).
  - (eexists; (split; [reflexivity|]); repeat split; cbn; intros job [=]).
Qed.

(** X16: with a limit of at least one, the asynchronous extractor returns
    for a link what the synchronous one returns, and like it makes one call
    for the link; they differ in that the asynchronous one may wait and
    records its request. *)
Theorem extractors_agree (link : string) (firecrawl : FirecrawlApp)
    (rate_limit window_size : Z) (w : World) :
  1 <= rate_limit ->
  exists (r : option JobSchema) (w1 w2 : World),
    extract_job_data link firecrawl w = Some (Ok r, w1)
    /\ extract_job_data_async link firecrawl rate_limit window_size w = Some (Ok r, w2)
    /\ extract_calls w1 = extract_calls w2
    /\ files w1 = files w2
    /\ (clock w1 <= clock w2)%Q.
Proof.
  intros HR.
  destruct (extract_job_data_spec link firecrawl w) as (w1 & Hsync & _ & Hc1 & _).
  destruct (extract_job_data_async_spec link firecrawl rate_limit window_size w HR)
    as (wg & w2 & Hgate & Hasync & Hf2 & Hclk2 & Hc2 & _).
  destruct (rate_gate_spec rate_limit window_size w HR)
    as (wg' & ev & Hgate' & _ & _ & _ & Hle & _).
  assert (wg' = wg) by congruence. subst wg'.
  destruct (sync_extractor_keeps_files_and_clock link firecrawl w)
    as (w1' & Hsync' & Hf1 & Hclk1).
  assert (w1' = w1) by congruence. subst w1'.
  exists (extracted (extract firecrawl link)), w1, w2.
  split; [exact Hsync|]. split; [exact Hasync|]. split; [congruence|].
  split; [congruence|]. rewrite Hclk1, Hclk2. exact Hle.
Qed.

Lemma extractors_agree_witness :
  exists (w1 w2 : World),
    extract_job_data "L2" sample_firecrawl busy_world = Some (Ok (Some designer), w1)
    /\ extract_job_data_async "L2" sample_firecrawl 2 60 busy_world
       = Some (Ok (Some designer), w2).
Proof.
  destruct (extractors_agree "L2" sample_firecrawl 2 60 busy_world ltac:(lia))
    as (r & w1 & w2 & Hs & Ha & _).
  assert (Hr : r = Some designer).
  { vm_compute in Hs. injection Hs as <- _. reflexivity. }
  subst r. exists w1, w2. split; assumption.
Defined.

(** ** services.process_job_links_async: more on the scheduler *)

Lemma step_results (firecrawl : FirecrawlApp) (rate_limit window_size : Z)
    (e : event) (s s' : Sched) :
  step firecrawl rate_limit window_size e s = Some s' ->
  fst <$> tasks s' = fst <$> tasks s
  /\ results s' = results s ++ option_list (returned firecrawl (fst <$> tasks s) e).
Proof.
  intros Hstep. unfold step in Hstep. destruct (failure s); [discriminate|].
  destruct e as [i|i|i|i|d]; cbn [returned option_list]; rewrite ?app_nil_r.
  - destruct (tasks s !! i) as [[link p]|] eqn:Ht; [|discriminate].
    destruct p; try discriminate.
    destruct (0 <? permits s); [|discriminate]. injection Hstep as <-.
    split; [apply (fst_insert_same _ _ _ _ _ Ht) | reflexivity].
  - destruct (tasks s !! i) as [[link p]|] eqn:Ht; [|discriminate].
    destruct p; try discriminate.
    destruct (Z.of_nat (length (request_timestamps (world s))) >=? rate_limit).
    + destruct (request_timestamps (world s)) as [|oldest rest].
      * injection Hstep as <-.
        split; [apply (fst_insert_same _ _ _ _ _ Ht) | reflexivity].
      * destruct (Qlt_bool (current_time - inject_Z window_size) oldest);
          injection Hstep as <-;
          (split; [try apply (fst_insert_same _ _ _ _ _ Ht); reflexivity | reflexivity]).
    + injection Hstep as <-.
      split; [apply (fst_insert_same _ _ _ _ _ Ht) | reflexivity].
  - destruct (tasks s !! i) as [[link p]|] eqn:Ht; [|discriminate].
    destruct p; try discriminate.
    destruct (Qle_bool until (clock (world s))); [|discriminate].
    injection Hstep as <-.
    split; [apply (fst_insert_same _ _ _ _ _ Ht) | reflexivity].
  - destruct (tasks s !! i) as [[link p]|] eqn:Ht; [|discriminate].
    destruct p; try discriminate.
    destruct (settle_spec link (extract firecrawl link) (world s)) as (w' & Hsettle & _).
    rewrite Hsettle in Hstep. injection Hstep as <-.
    split; [apply (fst_insert_same _ _ _ _ _ Ht)|].
    cbn [results]. rewrite list_lookup_fmap, Ht. reflexivity.
  - destruct (Qle_bool 0 d); [|discriminate]. injection Hstep as <-. auto.
Qed.

Lemma run_results (firecrawl : FirecrawlApp) (rate_limit window_size : Z)
    (schedule : list event) :
  forall s s' : Sched,
    run firecrawl rate_limit window_size schedule s = Some s' ->
    fst <$> tasks s' = fst <$> tasks s
    /\ results s' = results s ++ omap (returned firecrawl (fst <$> tasks s)) schedule.
Proof.
  induction schedule as [|e rest IH]; intros s s' Hrun.
  - injection Hrun as <-. rewrite app_nil_r. auto.
  - cbn [run] in Hrun.
    destruct (step firecrawl rate_limit window_size e s) as [s1|] eqn:Hstep;
      [|discriminate].
    destruct (step_results _ _ _ _ _ _ Hstep) as [Hl1 Hr1].
    destruct (IH s1 s' Hrun) as [Hl Hr].
    split; [congruence|]. rewrite Hr, Hr1, Hl1, <- app_assoc. f_equal.
    cbn [omap list_omap]. destruct (returned firecrawl (fst <$> tasks s) e); reflexivity.
Qed.

(** X17: the records come out in the order in which the calls return, not
    in the order of the links: the output of [process_job_links_async] is
    the list of the records of the returning tasks, read along the
    schedule. *)
Theorem results_follow_completion_order
    (links : list string) (firecrawl : FirecrawlApp)
    (max_jobs rate_limit window_size max_concurrent : Z) (schedule : list event)
    (w w' : World) (js : list JobSchema) :
  process_job_links_async links firecrawl max_jobs rate_limit window_size
                          max_concurrent schedule w = Some (Ok js, w') ->
  js = omap (returned firecrawl (slice_to links max_jobs)) schedule.
Proof.
  unfold process_job_links_async. intros Hp.
  destruct (max_concurrent <? 0); [discriminate|].
  destruct (run firecrawl rate_limit window_size schedule
                (start links max_jobs max_concurrent w)) as [s|] eqn:Hs; [|discriminate].
  destruct (run_results _ _ _ _ _ _ Hs) as [_ Hr].
  destruct (failure s); [discriminate|].
  destruct (forallb is_finished (tasks s)); [|discriminate].
  injection Hp as <- _. rewrite Hr. cbn [results start app tasks].
  replace (fst <$> spawn links max_jobs) with (slice_to links max_jobs);
    [reflexivity|].
  unfold spawn. rewrite <- list_fmap_compose.
  clear. induction (slice_to links max_jobs) as [|l ls IH]; cbn; congruence.
Qed.

Lemma results_follow_completion_order_witness :
  omap (returned sample_firecrawl (slice_to ["L1"; "L2"; "L3"] 3)) last_in_first_out
  = [designer; engineer].
Proof.
  eassert (Hrun : process_job_links_async ["L1"; "L2"; "L3"] sample_firecrawl 3 10 60 5
                    last_in_first_out fresh_world
                  = Some (Ok [designer; engineer], _))
    by (vm_compute; reflexivity).
  symmetry.
  exact (results_follow_completion_order _ _ _ _ _ _ _ _ _ _ Hrun).
Defined.

Lemma tally_finished (l : list (string * phase)) :
  forallb is_finished l = true -> tally holds_permit l = O.
Proof.
  induction l as [|[link p] l IH]; [reflexivity|].
  cbn. intros H. apply andb_true_iff in H. destruct H as [Hp Hl].
  destruct p; try discriminate. cbn. apply IH. exact Hl.
Qed.

(** X18: when every task has finished, all permits are back: the semaphore
    stands at [max_concurrent] again and no call is outstanding. *)
Theorem permits_returned_when_batch_ends
    (links : list string) (firecrawl : FirecrawlApp)
    (max_jobs rate_limit window_size max_concurrent : Z) (schedule : list event)
    (w : World) (s : Sched) :
  0 <= max_concurrent ->
  run firecrawl rate_limit window_size schedule (start links max_jobs max_concurrent w)
  = Some s ->
  forallb is_finished (tasks s) = true ->
  permits s = max_concurrent /\ holders s = 0 /\ outstanding s = 0.
Proof.
  intros Hc Hrun Hall.
  pose proof (run_inv firecrawl rate_limit window_size _ w max_concurrent schedule
                _ s (start_inv firecrawl rate_limit links max_jobs max_concurrent
                       w Hc) Hrun)
    as (_ & Hperm & _).
  assert (Hh : holders s = 0)
    by (unfold holders; rewrite (tally_finished _ Hall); reflexivity).
  assert (Ho : outstanding s <= holders s)
    by (unfold outstanding, holders; apply inj_le, tally_mono, calling_holds_permit).
  assert (0 <= outstanding s) by (unfold outstanding; lia).
  repeat split; lia.
Qed.

Lemma permits_returned_when_batch_ends_witness :
  exists s : Sched,
    run sample_firecrawl 10 60 last_in_first_out (start ["L1"; "L2"; "L3"] 3 5 fresh_world)
    = Some s
    /\ permits s = 5.
Proof.
  eassert (Hrun : run sample_firecrawl 10 60 last_in_first_out
                      (start ["L1"; "L2"; "L3"] 3 5 fresh_world) = Some _)
    by (vm_compute; reflexivity).
  eexists. split; [exact Hrun|].
  apply (permits_returned_when_batch_ends ["L1"; "L2"; "L3"] sample_firecrawl 3 10 60 5
           last_in_first_out fresh_world _ ltac:(lia) Hrun).
  reflexivity.
Defined.

Lemma time_ordered_snoc (ts : list Q) (now : Q) :
  time_ordered ts -> Forall (fun t => (t <= now)%Q) ts -> time_ordered (ts ++ [now]).
Proof.
  induction ts as [|t rest IH]; intros Hord Hle.
  - cbn. split; [constructor | exact I].
  - destruct Hord as [Hhead Hrest]. inversion Hle as [|? ? Ht Hle']; subst.
    cbn. split; [|apply IH; assumption].
    apply Forall_app. split; [exact Hhead | constructor; [exact Ht | constructor]].
Qed.

Lemma step_window_ok (firecrawl : FirecrawlApp) (rate_limit window_size : Z)
    (e : event) (s s' : Sched) :
  window_ok (world s) ->
  step firecrawl rate_limit window_size e s = Some s' ->
  window_ok (world s').
Proof.
  intros [Hord Hle] Hstep. unfold step in Hstep. destruct (failure s); [discriminate|].
  destruct e as [i|i|i|i|d].
  - destruct (tasks s !! i) as [[link p]|]; [|discriminate].
    destruct p; try discriminate.
    destruct (0 <? permits s); [|discriminate]. injection Hstep as <-. split; assumption.
  - destruct (tasks s !! i) as [[link p]|]; [|discriminate].
    destruct p; try discriminate.
    destruct (Z.of_nat (length (request_timestamps (world s))) >=? rate_limit).
    + destruct (request_timestamps (world s)) as [|oldest rest] eqn:Hts.
      * injection Hstep as <-. unfold window_ok. cbn [world]. rewrite Hts.
        split; assumption.
      * destruct (Qlt_bool (current_time - inject_Z window_size) oldest);
          injection Hstep as <-; unfold window_ok;
          cbn [world set_task set_world request_timestamps set_request_timestamps clock].
        -- rewrite Hts. split; assumption.
        -- destruct Hord as [_ Hrest]. inversion Hle; subst. split; assumption.
    + injection Hstep as <-. split; assumption.
  - destruct (tasks s !! i) as [[link p]|]; [|discriminate].
    destruct p; try discriminate.
    destruct (Qle_bool until (clock (world s))); [|discriminate].
    injection Hstep as <-. split; assumption.
  - destruct (tasks s !! i) as [[link p]|]; [|discriminate].
    destruct p; try discriminate.
    destruct (settle_spec link (extract firecrawl link) (world s))
      as (w' & Hsettle & _ & Hclk & _ & _ & _ & Hts & _).
    rewrite Hsettle in Hstep. injection Hstep as <-.
    unfold window_ok. cbn [world]. rewrite Hts, Hclk.
    destruct (accepted_payload (extract firecrawl link)).
    + split; [apply time_ordered_snoc; assumption|].
      apply Forall_app. split; [exact Hle | constructor; [apply Qle_refl | constructor]].
    + rewrite app_nil_r. split; assumption.
  - destruct (Qle_bool 0 d) eqn:Hd; [|discriminate]. injection Hstep as <-.
    apply Qle_bool_iff in Hd. unfold window_ok.
    cbn [world set_world request_timestamps set_clock clock].
    split; [exact Hord|]. eapply Forall_impl; [exact Hle|].
    intros t Ht. cbn beta in Ht. lra.
Qed.

(** X19: in every state that the event loop can reach the deque is
    time-ordered, oldest first, and holds no timestamp later than the
    clock: the front eviction of the rate-limit loop meets the oldest
    request. *)
Theorem window_stays_time_ordered
    (links : list string) (firecrawl : FirecrawlApp)
    (max_jobs rate_limit window_size max_concurrent : Z) (w : World) :
  forall (schedule : list event) (s : Sched),
    run firecrawl rate_limit window_size schedule (start links max_jobs max_concurrent w)
    = Some s ->
    time_ordered (request_timestamps (world s))
    /\ Forall (fun t => (t <= clock (world s))%Q) (request_timestamps (world s)).
Proof.
  assert (Hrun : forall (schedule : list event) (s s' : Sched),
             window_ok (world s) ->
             run firecrawl rate_limit window_size schedule s = Some s' ->
             window_ok (world s')).
  { induction schedule as [|e rest IH]; intros s s' Hok Hr.
    - injection Hr as <-. exact Hok.
    - cbn [run] in Hr.
      destruct (step firecrawl rate_limit window_size e s) as [s1|] eqn:Hstep;
        [|discriminate].
      apply (IH s1 s'); [eapply step_window_ok; eassumption | exact Hr]. }
  intros schedule s Hs.
  apply (Hrun schedule (start links max_jobs max_concurrent w) s); [|exact Hs].
  unfold window_ok, start. cbn. split; [exact I | constructor].
Qed.

Lemma step_window_bound (firecrawl : FirecrawlApp) (rate_limit window_size : Z)
    (selected : list string) (w0 : World) (c : Z) (e : event) (s s' : Sched) :
  1 <= rate_limit ->
  sched_inv firecrawl rate_limit selected w0 c s ->
  Z.of_nat (length (request_timestamps (world s))) + outstanding s
  <= rate_limit - 1 + c ->
  step firecrawl rate_limit window_size e s = Some s' ->
  Z.of_nat (length (request_timestamps (world s'))) + outstanding s'
  <= rate_limit - 1 + c.
Proof.
  intros HR Hinv Hb Hstep.
  pose proof (step_inv _ _ _ _ _ _ _ _ _ Hinv Hstep) as (_ & Hperm' & Hpos' & _).
  assert (Hcap : outstanding s' <= c).
  { assert (outstanding s' <= holders s')
      by (unfold outstanding, holders; apply inj_le, tally_mono, calling_holds_permit).
    lia. }
  unfold step in Hstep. destruct (failure s); [discriminate|].
  unfold outstanding in *.
  destruct e as [i|i|i|i|d].
  - destruct (tasks s !! i) as [[link p]|] eqn:Ht; [|discriminate].
    destruct p; try discriminate.
    destruct (0 <? permits s); [|discriminate]. injection Hstep as <-.
    pose proof (tally_insert is_calling _ _ _ (link, Gating (clock (world s))) Ht) as Hc.
    cbn in Hc. cbn [tasks world set_task set_permits] in *. lia.
  - destruct (tasks s !! i) as [[link p]|] eqn:Ht; [|discriminate].
    destruct p as [|ct| | | |]; try discriminate.
    destruct (Z.of_nat (length (request_timestamps (world s))) >=? rate_limit) eqn:Hfull.
    + destruct (request_timestamps (world s)) as [|oldest rest] eqn:Hts.
      * apply Z.geb_le in Hfull. cbn [length] in Hfull. lia.
      * destruct (Qlt_bool (ct - inject_Z window_size) oldest); injection Hstep as <-.
        -- pose proof (tally_insert is_calling _ _ _
                         (link, Sleeping (clock (world s)
                            + (oldest - (ct - inject_Z window_size) + (1 # 10)))%Q) Ht)
             as Hc.
           cbn in Hc. cbn [tasks world set_task] in *. rewrite Hts. lia.
        -- cbn [tasks world set_world request_timestamps set_request_timestamps] in *.
           cbn [length] in Hb. lia.
    + injection Hstep as <-. rewrite Z.geb_leb in Hfull. apply Z.leb_gt in Hfull.
      cbn [tasks world set_task set_world request_timestamps set_extract_calls] in *.
      lia.
  - destruct (tasks s !! i) as [[link p]|] eqn:Ht; [|discriminate].
    destruct p as [| |until| | |]; try discriminate.
    destruct (Qle_bool until (clock (world s))); [|discriminate].
    injection Hstep as <-.
    pose proof (tally_insert is_calling _ _ _ (link, Gating (clock (world s))) Ht) as Hc.
    cbn in Hc. cbn [tasks world set_task] in *. lia.
  - destruct (tasks s !! i) as [[link p]|] eqn:Ht; [|discriminate].
    destruct p; try discriminate.
    destruct (settle_spec link (extract firecrawl link) (world s))
      as (w' & Hsettle & _ & _ & _ & _ & _ & Hts & _).
    rewrite Hsettle in Hstep. injection Hstep as <-.
    pose proof (tally_insert is_calling _ _ _
                  (link, Finished (extracted (extract firecrawl link))) Ht) as Hc.
    cbn in Hc. cbn [tasks world] in *. rewrite Hts, length_app.
    destruct (accepted_payload (extract firecrawl link)); cbn [length]; lia.
  - destruct (Qle_bool 0 d); [|discriminate]. injection Hstep as <-.
    cbn [tasks world set_world request_timestamps set_clock] in *. lia.
Qed.

(** X20: with a limit of at least one, the deque never holds more than
    [rate_limit - 1 + max_concurrent] timestamps, counting the calls that
    are outstanding as if they were recorded already; with a single permit
    it never holds more than [rate_limit]. *)
Theorem window_exceeds_limit_by_at_most_concurrency
    (links : list string) (firecrawl : FirecrawlApp)
    (max_jobs rate_limit window_size max_concurrent : Z) (w : World) :
  1 <= rate_limit -> 0 <= max_concurrent ->
  forall (schedule : list event) (s : Sched),
    run firecrawl rate_limit window_size schedule (start links max_jobs max_concurrent w)
    = Some s ->
    Z.of_nat (length (request_timestamps (world s))) + outstanding s
    <= rate_limit - 1 + max_concurrent.
Proof.
  intros HR Hc.
  assert (Hrun : forall (schedule : list event) (s s' : Sched),
             sched_inv firecrawl rate_limit (slice_to links max_jobs) w max_concurrent s ->
             Z.of_nat (length (request_timestamps (world s))) + outstanding s
             <= rate_limit - 1 + max_concurrent ->
             run firecrawl rate_limit window_size schedule s = Some s' ->
             Z.of_nat (length (request_timestamps (world s'))) + outstanding s'
             <= rate_limit - 1 + max_concurrent).
  { induction schedule as [|e rest IH]; intros s s' Hinv Hb Hr.
    - injection Hr as <-. exact Hb.
    - cbn [run] in Hr.
      destruct (step firecrawl rate_limit window_size e s) as [s1|] eqn:Hstep;
        [|discriminate].
      apply (IH s1 s'); [eapply step_inv; eassumption | | exact Hr].
      eapply step_window_bound; eassumption. }
  intros schedule s Hs.
  apply (Hrun schedule (start links max_jobs max_concurrent w) s); [| |exact Hs].
  - apply start_inv. exact Hc.
  - unfold start, outstanding, spawn. cbn [world tasks request_timestamps
      set_request_timestamps length].
    rewrite tally_spawn by reflexivity. lia.
Qed.

Lemma window_exceeds_limit_by_at_most_concurrency_witness :
  exists s : Sched,
    run sample_firecrawl 1 60 last_in_first_out (start ["L1"; "L2"; "L3"] 3 5 fresh_world)
    = Some s
    /\ length (request_timestamps (world s)) = 2%nat
    /\ Z.of_nat (length (request_timestamps (world s))) + outstanding s <= 1 - 1 + 5.
Proof.
  eassert (Hrun : run sample_firecrawl 1 60 last_in_first_out
                      (start ["L1"; "L2"; "L3"] 3 5 fresh_world) = Some _)
    by (vm_compute; reflexivity).
  eexists. split; [exact Hrun|]. split; [reflexivity|].
  apply (window_exceeds_limit_by_at_most_concurrency ["L1"; "L2"; "L3"] sample_firecrawl
           3 1 60 5 fresh_world ltac:(lia) ltac:(lia) last_in_first_out _ Hrun).
Defined.

Lemma tally_calling_app (done : list (string * phase)) (todo : list string) :
  tally is_calling (done ++ ((fun link => (link, Calling)) <$> todo))
  = (tally is_calling done + length todo)%nat.
Proof.
  induction done as [|t done IH]; cbn.
  - induction todo as [|l todo IHt]; cbn; [reflexivity | rewrite IHt; reflexivity].
  - rewrite IH. lia.
Qed.

(** With an empty deque, waiting tasks for which there are permits can all
    be let in and through the gate, one after the other, without any call
    returning in between. *)
Lemma drive_burst (firecrawl : FirecrawlApp) (rate_limit window_size : Z) :
  1 <= rate_limit ->
  forall (todo : list string) (done : list (string * phase)) (s : Sched),
    failure s = None ->
    request_timestamps (world s) = [] ->
    tasks s = done ++ ((fun link => (link, Created)) <$> todo) ->
    Z.of_nat (length todo) <= permits s ->
    exists (evs : list event) (s' : Sched),
      run firecrawl rate_limit window_size evs s = Some s'
      /\ request_timestamps (world s') = []
      /\ tasks s' = done ++ ((fun link => (link, Calling)) <$> todo)
      /\ extract_calls (world s') = extract_calls (world s) ++ todo.
Proof.
  intros HR. induction todo as [|link todo IH]; intros done s Hok Hempty Htasks Hperm.
  - exists [], s. cbn [run fmap list_fmap]. cbn in Htasks.
    rewrite !app_nil_r in *. auto.
  - set (i := length done).
    assert (Ht : tasks s !! i = Some (link, Created)).
    { rewrite Htasks. subst i. cbn. apply list_lookup_middle. reflexivity. }
    set (s1 := set_task i link (Gating (clock (world s)))
                        (set_permits (permits s - 1) s)).
    assert (H1 : step firecrawl rate_limit window_size (Enter i) s = Some s1).
    { apply (step_Enter _ _ _ _ _ _ Hok Ht). cbn [length] in Hperm. lia. }
    assert (Ht1 : tasks s1 !! i = Some (link, Gating (clock (world s)))).
    { subst s1. cbn [tasks set_task set_permits]. apply list_lookup_insert_eq.
      eapply lookup_lt_Some. exact Ht. }
    set (s2 := set_task i link Calling
                 (set_world (set_extract_calls (extract_calls (world s1) ++ [link])
                                               (world s1)) s1)).
    assert (H2 : step firecrawl rate_limit window_size (Iterate i) s1 = Some s2).
    { apply (step_Iterate_pass _ _ _ s1 i link (clock (world s)) Hok Ht1).
      change (request_timestamps (world s1)) with (request_timestamps (world s)).
      rewrite Hempty, Z.geb_leb. apply Z.leb_gt. cbn [length]. lia. }
    destruct (IH (done ++ [(link, Calling)]) s2) as (evs & s' & Hrun & He & Ht' & Hc').
    + exact Hok.
    + exact Hempty.
    + subst s2 s1. cbn [tasks set_task set_world set_permits].
      rewrite list_insert_insert_eq, Htasks. subst i. cbn [fmap list_fmap].
      rewrite insert_app_r_alt by lia. rewrite Nat.sub_diag. cbn.
      rewrite <- app_assoc. reflexivity.
    + subst s2 s1. cbn [permits set_task set_world set_permits].
      cbn [length] in Hperm. lia.
    + exists (Enter i :: Iterate i :: evs), s'. cbn [run]. rewrite H1, H2.
      split; [exact Hrun|]. split; [exact He|]. split.
      * rewrite Ht', <- app_assoc. reflexivity.
      * rewrite Hc'. subst s2 s1.
        cbn [world set_task set_world set_permits extract_calls set_extract_calls].
        rewrite <- app_assoc. reflexivity.
Qed.

(** X21: the rate limit does not bound the first burst.  Timestamps are
    recorded only when a call returns, so as long as there are permits all
    selected links can be called at once, whatever [rate_limit] is: some
    schedule brings every task to its outstanding call with the deque still
    empty. *)
Theorem first_burst_ignores_rate_limit
    (links : list string) (firecrawl : FirecrawlApp)
    (max_jobs rate_limit window_size max_concurrent : Z) (w : World) :
  1 <= rate_limit ->
  Z.of_nat (length (slice_to links max_jobs)) <= max_concurrent ->
  exists (schedule : list event) (s : Sched),
    run firecrawl rate_limit window_size schedule (start links max_jobs max_concurrent w)
    = Some s
    /\ outstanding s = Z.of_nat (length (slice_to links max_jobs))
    /\ request_timestamps (world s) = []
    /\ extract_calls (world s) = extract_calls w ++ slice_to links max_jobs.
Proof.
  intros HR Hc.
  destruct (drive_burst firecrawl rate_limit window_size HR (slice_to links max_jobs) []
              (start links max_jobs max_concurrent w) eq_refl eq_refl eq_refl Hc)
    as (evs & s & Hrun & He & Ht & Hcalls).
  exists evs, s. split; [exact Hrun|]. split; [|split; [exact He | exact Hcalls]].
  unfold outstanding. rewrite Ht, tally_calling_app. cbn. reflexivity.
Qed.

Lemma first_burst_ignores_rate_limit_witness :
  exists (schedule : list event) (s : Sched),
    run sample_firecrawl 1 60 schedule (start ["L1"; "L2"; "L3"] 3 5 fresh_world) = Some s
    /\ outstanding s = 3.
Proof.
  destruct (first_burst_ignores_rate_limit ["L1"; "L2"; "L3"] sample_firecrawl 3 1 60 5
              fresh_world ltac:(lia) ltac:(vm_compute; intros H; discriminate H))
    as (schedule & s & Hrun & Hout & _).
  exists schedule, s. split; [exact Hrun | exact Hout].
Defined.

Lemma zero_concurrency_never_returns_witness :
  process_job_links_async ["L1"; "L2"; "L3"] sample_firecrawl 3 10 60 0 one_by_one
                          fresh_world
  = None.
Proof.
  apply (zero_concurrency_never_returns ["L1"; "L2"; "L3"] sample_firecrawl 3 10 60
           one_by_one fresh_world).
  discriminate.
Defined.

(** ** main.py and api.initialize_api_clients *)

Lemma scrape_jobs_page_hit (firecrawl : FirecrawlApp) (url output_dir : string)
    (w : World) (v : json) :
  files w !! scrape_result_path output_dir url = Some (JsonText v) ->
  scrape_jobs_page firecrawl url output_dir w = Some (Ok v, w).
Proof.
  intros Hfile. unfold scrape_jobs_page, bind.
  rewrite (path_exists_Some _ _ _ Hfile). apply (json_load_text _ _ _ Hfile).
Qed.

Lemma process_job_links_hit (links : list string) (firecrawl : FirecrawlApp)
    (url : string) (max_jobs rate_limit window_size : Z) (output_dir : string)
    (schedule : list event) (w : World) (items : list json) :
  files w !! processed_jobs_path output_dir url = Some (JsonText (JArr items)) ->
  process_job_links links firecrawl url max_jobs rate_limit window_size output_dir
                    schedule w
  = Some (JobSchema_list items, w).
Proof.
  intros Hfile. unfold process_job_links, bind, lift.
  rewrite (path_exists_Some _ _ _ Hfile), (json_load_text _ _ _ Hfile). cbn.
  destruct (JobSchema_list items); reflexivity.
Qed.

(** X22: with the three caches in place [main] succeeds without a single
    call to Firecrawl or OpenAI and without writing a file: it only logs.
    The scrape and the recommendation are looked up under [output_dir], the
    batch under [results] whatever [output_dir] is. *)
Theorem fully_cached_run_makes_no_call
    (firecrawl : FirecrawlApp) (openai : OpenAI) (jobs_url resume : string)
    (max_jobs num_recommendations rate_limit window_size : Z) (output_dir : string)
    (schedule : list event) (w : World)
    (page : json) (links : list string) (items : list json) (j : JobSchema)
    (js : list JobSchema) (data : json) (r : JobSchemas) :
  resume <> "" ->
  files w !! scrape_result_path output_dir jobs_url = Some (JsonText page) ->
  lists_links page links ->
  files w !! processed_jobs_path "results" jobs_url = Some (JsonText (JArr items)) ->
  JobSchema_list items = Ok (j :: js) ->
  files w !! recommendations_path output_dir jobs_url = Some (JsonText data) ->
  read_recommendations data = Ok r ->
  exists w' : World,
    main firecrawl openai jobs_url resume max_jobs num_recommendations rate_limit
         window_size output_dir schedule w
    = Some (Ok tt, w')
    /\ files w' = files w
    /\ scrape_calls w' = scrape_calls w
    /\ extract_calls w' = extract_calls w
    /\ completion_calls w' = completion_calls w
    /\ Forall (fun rec => fst rec = INFO) (drop (length (records w)) (records w')).
Proof.
  intros Hresume Hscrape (Htruthy & entry & apply_links & Hentry & Hget & Hal & Hlinks)
         Hbatch Hitems Hrec Hread.
  apply String.eqb_neq in Hresume.
  destruct (link_list_has_len _ _ Hlinks) as [n Hlen].
  eexists. split.
  - unfold main. unfold bind at 1. unfold attempt at 1.
    unfold bind at 1, mkdir_parents at 1.
    unfold bind at 1. rewrite Hresume. unfold ret at 1.
    unfold bind at 1, logger_info at 1, emit at 1.
    unfold bind at 1.
    rewrite (scrape_jobs_page_hit firecrawl jobs_url output_dir _ page) by exact Hscrape.
    unfold bind at 1. rewrite Htruthy. cbn [negb]. unfold ret at 1.
    unfold bind at 1, lift at 1. rewrite Hentry.
    unfold bind at 1, lift at 1. rewrite Hget.
    unfold bind at 1. rewrite Hal. cbn [negb]. unfold ret at 1.
    unfold bind at 1, lift at 1. rewrite Hlen.
    unfold bind at 1, logger_info at 1, emit at 1.
    unfold bind at 1.
    rewrite (process_apply_links_listed _ _ _ _ _ _ _ _ _ Hlinks).
    rewrite (process_job_links_hit links firecrawl jobs_url max_jobs rate_limit
               window_size "results" schedule _ items) by exact Hbatch.
    rewrite Hitems.
    unfold bind at 1, require_jobs at 1, ret at 1.
    unfold bind at 1, logger_info at 1, emit at 1.
    unfold bind at 1.
    rewrite (get_job_recommendations_hit openai resume jobs_url (j :: js)
               num_recommendations output_dir _ data r) by assumption.
    unfold bind at 1, logger_info at 1, emit at 1.
    unfold bind at 1, logger_info at 1, emit at 1.
    unfold log_jobs. rewrite log_each_spec. unfold ret. reflexivity.
  - cbn [files scrape_calls extract_calls completion_calls records set_records
         set_dirs].
    repeat split.
    rewrite <- !app_assoc, drop_app_length.
    repeat (apply Forall_cons; split; [reflexivity|]).
    apply Forall_fmap, Forall_forall. intros; reflexivity.
Qed.

Lemma fully_cached_run_makes_no_call_witness :
  exists w' : World,
    main broken_firecrawl silent_openai "https://x/jobs" "5 years backend" 3 1 10 60
         "out" [] all_cached
    = Some (Ok tt, w')
    /\ files w' = files all_cached.
Proof.
  destruct (fully_cached_run_makes_no_call broken_firecrawl silent_openai
              "https://x/jobs" "5 years backend" 3 1 10 60 "out" [] all_cached
              sample_page ["L1"; "L2"; "L3"] [model_dump designer] designer []
              (dump_jobs (mkJobs [designer])) (mkJobs [designer]))
    as (w' & Hrun & Hfiles & _).
  - discriminate.
  - vm_compute. reflexivity.
  - split; [reflexivity|].
    exists (JObj [("apply_links", JArr [JStr "L1"; JStr "L2"; JStr "L3"])]),
           (JArr [JStr "L1"; JStr "L2"; JStr "L3"]).
    repeat split.
  - vm_compute. reflexivity.
  - reflexivity.
  - vm_compute. reflexivity.
  - reflexivity.
  - exists w'. split; assumption.
Defined.

(** X23: a missing key stops the command at once.  If either API key is
    unset or empty, [initialize_api_clients] raises [ValueError] and the
    command exits with code 1 having only logged: nothing is scraped,
    extracted, requested or written.  With both keys set it is [main] on the
    two clients built from them. *)
Theorem missing_api_key_exits_before_any_work
    (env : gmap string string)
    (connect_firecrawl : string -> FirecrawlApp) (connect_openai : string -> OpenAI)
    (jobs_url resume : string)
    (max_jobs num_recommendations rate_limit window_size : Z) (output_dir : string)
    (schedule : list event) (w : World) :
  (key_missing env "FIRECRAWL_API_KEY" \/ key_missing env "OPENAI_API_KEY" ->
   initialize_api_clients env connect_firecrawl connect_openai
   = Raise (ValueError "Missing required API keys in environment variables")
   /\ main_command env connect_firecrawl connect_openai jobs_url resume max_jobs
                   num_recommendations rate_limit window_size output_dir schedule w
      = Some (Raise (Exit 1),
              set_records (records w ++ [(ERROR, "Main execution failed")]) w))
  /\ (forall fk ok : string,
         env !! "FIRECRAWL_API_KEY" = Some fk -> fk <> "" ->
         env !! "OPENAI_API_KEY" = Some ok -> ok <> "" ->
         initialize_api_clients env connect_firecrawl connect_openai
         = Ok (connect_firecrawl fk, connect_openai ok)
         /\ main_command env connect_firecrawl connect_openai jobs_url resume max_jobs
                         num_recommendations rate_limit window_size output_dir
                         schedule w
            = main (connect_firecrawl fk) (connect_openai ok) jobs_url resume max_jobs
                   num_recommendations rate_limit window_size output_dir schedule w).
Proof.
  split.
  - intros Hmissing.
    assert (Hinit : initialize_api_clients env connect_firecrawl connect_openai
                    = Raise (ValueError
                               "Missing required API keys in environment variables")).
    { unfold initialize_api_clients, key_missing in *.
      destruct Hmissing as [[-> | ->] | [-> | ->]]; cbn;
        try reflexivity;
        destruct (env !! "FIRECRAWL_API_KEY") as [k|]; cbn; try reflexivity;
        destruct (String.eqb k ""); reflexivity. }
    split; [exact Hinit|]. unfold main_command. rewrite Hinit. reflexivity.
  - intros fk ok Hfk Hfk' Hok Hok'.
    assert (Hinit : initialize_api_clients env connect_firecrawl connect_openai
                    = Ok (connect_firecrawl fk, connect_openai ok)).
    { unfold initialize_api_clients. rewrite Hfk, Hok. cbn.
      apply String.eqb_neq in Hfk', Hok'. rewrite Hfk', Hok'. reflexivity. }
    split; [exact Hinit|]. unfold main_command. rewrite Hinit. reflexivity.
Qed.

Lemma missing_api_key_exits_before_any_work_witness :
  main_command partial_env (fun _ => sample_firecrawl) (fun _ => sample_openai)
               "https://x/jobs" "5 years backend" 3 1 10 60 "results" one_by_one
               fresh_world
  = Some (Raise (Exit 1),
          set_records (records fresh_world ++ [(ERROR, "Main execution failed")])
                      fresh_world).
Proof.
  apply (proj1 (missing_api_key_exits_before_any_work partial_env
                  (fun _ => sample_firecrawl) (fun _ => sample_openai)
                  "https://x/jobs" "5 years backend" 3 1 10 60 "results" one_by_one
                  fresh_world)).
  right. right. vm_compute. reflexivity.
Defined.

Lemma append_empty_r (s : string) : s +:+ "" = s.
Proof.
  induction s as [|c s IH]; [reflexivity|].
  change (String c (s +:+ "") = String c s). rewrite IH. reflexivity.
Qed.

Lemma append_char_assoc (s : string) (c : ascii) (rest : string) :
  (s +:+ String c EmptyString) +:+ rest = s +:+ String c rest.
Proof.
  induction s as [|d s IH]; [reflexivity|].
  change (String d ((s +:+ String c EmptyString) +:+ rest)
          = String d (s +:+ String c rest)).
  rewrite IH. reflexivity.
Qed.

Lemma path_and_parents_self (rest seen : string) :
  seen +:+ rest ∈ path_and_parents seen rest.
Proof.
  revert seen. induction rest as [|c rest IH]; intros seen; cbn [path_and_parents].
  - rewrite append_empty_r. apply list_elem_of_here.
  - apply elem_of_app. right. rewrite <- append_char_assoc. apply IH.
Qed.

Lemma scrape_jobs_page_raises_world (firecrawl : FirecrawlApp)
    (url output_dir : string) (w : World) (e : exn) :
  files w !! scrape_result_path output_dir url = None ->
  scrape_url firecrawl (length (scrape_calls w)) url = Raise e ->
  scrape_jobs_page firecrawl url output_dir w
  = Some (Ok JNull,
          set_records (records w ++ [(ERROR, "Failed to scrape jobs from " +:+ url)])
                      (set_scrape_calls (scrape_calls w ++ [url]) w)).
Proof.
  intros Hmiss Hscrape. unfold scrape_jobs_page. unfold bind at 1.
  rewrite (path_exists_None _ _ Hmiss).
  unfold bind, attempt, firecrawl_scrape_url, lift, ret, raise, logger_exception, emit.
  rewrite Hscrape. reflexivity.
Qed.

(** X24: [main] turns every failure into exit code 1, and stops at the
    stage that fails.  The output directory is made first.  Whatever a stage
    raises, [main] returns or raises [Exit 1], nothing else.  With an empty
    resume it has made the output directory and changes nothing else but
    the log.  When there is no scrape cache and the scrape raises, the
    directory has been made, no link is extracted, no completion requested
    and no file written. *)
Theorem main_stops_at_the_failing_stage
    (firecrawl : FirecrawlApp) (openai : OpenAI) (jobs_url resume : string)
    (max_jobs num_recommendations rate_limit window_size : Z) (output_dir : string)
    (schedule : list event) (w : World) :
  let made := set_dirs (dirs w ∪ list_to_set (path_and_parents "" output_dir)) w in
  output_dir ∈ dirs made
  /\ (forall r w',
         main firecrawl openai jobs_url resume max_jobs num_recommendations rate_limit
              window_size output_dir schedule w = Some (r, w') ->
         r = Ok tt \/ r = Raise (Exit 1))
  /\ (resume = "" ->
      main firecrawl openai jobs_url resume max_jobs num_recommendations rate_limit
           window_size output_dir schedule w
      = Some (Raise (Exit 1),
              set_records (records w ++ [(ERROR, "Main execution failed")]) made))
  /\ (resume <> "" ->
      files w !! scrape_result_path output_dir jobs_url = None ->
      (exists e, scrape_url firecrawl (length (scrape_calls w)) jobs_url = Raise e) ->
      exists w' : World,
        main firecrawl openai jobs_url resume max_jobs num_recommendations rate_limit
             window_size output_dir schedule w
        = Some (Raise (Exit 1), w')
        /\ files w' = files w
        /\ dirs w' = dirs made
        /\ scrape_calls w' = scrape_calls w ++ [jobs_url]
        /\ extract_calls w' = extract_calls w
        /\ completion_calls w' = completion_calls w).
Proof.
  intros made. split; [|split; [|split]].
  - unfold made. cbn [dirs set_dirs]. apply elem_of_union. right.
    apply elem_of_list_to_set. apply (path_and_parents_self output_dir "").
  - intros r w' Hmain. unfold main in Hmain. unfold bind at 1 in Hmain.
    unfold attempt at 1 in Hmain.
    match type of Hmain with
    | match match ?c with _ => _ end with _ => _ end = _ =>
        destruct c as [[[[]|e] w1]|]
    end; try discriminate.
    + injection Hmain as <- _. left. reflexivity.
    + unfold bind, logger_exception, emit, raise in Hmain.
      injection Hmain as <- _. right. reflexivity.
  - intros ->. reflexivity.
  - intros Hresume Hmiss [e He]. apply String.eqb_neq in Hresume.
    eexists. split.
    + unfold main. unfold bind at 1. unfold attempt at 1.
      unfold bind at 1, mkdir_parents at 1. fold made.
      unfold bind at 1. rewrite Hresume. unfold ret at 1.
      unfold bind at 1, logger_info at 1, emit at 1.
      unfold bind at 1.
      rewrite (scrape_jobs_page_raises_world firecrawl jobs_url output_dir
                 (set_records (records made ++ [(INFO, "Loaded resume")]) made) e
                 Hmiss He).
      unfold bind at 1. cbn [truthy negb]. unfold raise at 1.
      unfold bind, logger_exception, emit, raise. reflexivity.
    + cbn [files dirs scrape_calls extract_calls completion_calls set_records
           set_scrape_calls]. unfold made. cbn [files dirs scrape_calls extract_calls
           completion_calls set_dirs]. repeat split.
Qed.

Lemma main_stops_at_the_failing_stage_witness :
  exists w' : World,
    main broken_firecrawl sample_openai "https://x/jobs" "5 years backend" 3 1 10 60
         "results" one_by_one fresh_world
    = Some (Raise (Exit 1), w')
    /\ extract_calls w' = [] /\ completion_calls w' = [].
Proof.
  destruct (main_stops_at_the_failing_stage broken_firecrawl sample_openai
              "https://x/jobs" "5 years backend" 3 1 10 60 "results" one_by_one
              fresh_world) as (_ & _ & _ & Hscrape).
  destruct Hscrape as (w' & Hrun & _ & _ & _ & He & Hc).
  - discriminate.
  - reflexivity.
  - exists (ApiError "no scrape"). reflexivity.
  - exists w'. auto.
Defined.

(** ** logger.setup_logger *)

(** X25: [setup_logger] configures a logger once.  After it the logger has
    a handler; a logger that had none gets exactly one, on stdout with the
    given format, and the given level; a logger that had handlers is left
    as it was, level included.  So a second call, with whatever level and
    format, changes nothing; and no other logger is touched. *)
Theorem setup_logger_configures_once
    (name : option string) (level level' : Z) (format_string format_string' : string)
    (loggers : gmap string Logger) :
  handlers (getLogger name (setup_logger name level format_string loggers)) <> []
  /\ (handlers (getLogger name loggers) = [] ->
      getLogger name (setup_logger name level format_string loggers)
      = mkLogger [mkHandler "stdout" format_string] level)
  /\ (handlers (getLogger name loggers) <> [] ->
      getLogger name (setup_logger name level format_string loggers)
      = getLogger name loggers)
  /\ setup_logger name level' format_string'
                  (setup_logger name level format_string loggers)
     = setup_logger name level format_string loggers
  /\ (forall other : option string,
         logger_key other <> logger_key name ->
         getLogger other (setup_logger name level format_string loggers)
         = getLogger other loggers).
Proof.
  assert (Hget : forall l, getLogger name (<[logger_key name := l]> loggers) = l).
  { intros l. unfold getLogger. rewrite lookup_insert_eq. reflexivity. }
  unfold setup_logger.
  destruct (handlers (getLogger name loggers)) as [|h hs] eqn:Hh.
  - rewrite !Hget. cbn [handlers]. rewrite insert_insert_eq.
    repeat split; try discriminate; try congruence.
    intros other Hne. unfold getLogger. rewrite lookup_insert_ne by congruence.
    reflexivity.
  - rewrite !Hget, Hh. rewrite insert_insert_eq.
    repeat split; try congruence.
    intros other Hne. unfold getLogger. rewrite lookup_insert_ne by congruence.
    reflexivity.
Qed.

Lemma setup_logger_configures_once_witness :
  getLogger (Some "ai_jobfinder") (module_logger ∅)
  = mkLogger [mkHandler "stdout" default_format] 20
  /\ setup_logger (Some "ai_jobfinder") 10 "%(message)s" (module_logger ∅)
     = module_logger ∅.
Proof.
  destruct (setup_logger_configures_once (Some "ai_jobfinder") 20 10 default_format
              "%(message)s" ∅) as (_ & Hnew & _ & Hagain & _).
  split; [apply Hnew; reflexivity | exact Hagain].
Defined.

Lemma cache_key_is_slash_free_witness :
  safe_url "https:__x_jobs" = "https:__x_jobs".
Proof.
  apply (proj1 (proj2 (proj2 (cache_key_is_slash_free "https:__x_jobs")))).
  reflexivity.
Defined.

Lemma extract_job_data_calls_once_witness :
  exists w' : World,
    extract_job_data "L1" sample_firecrawl fresh_world = Some (Ok (Some engineer), w')
    /\ records w' = [].
Proof.
  destruct (extract_job_data_calls_once "L1" sample_firecrawl fresh_world)
    as (w' & Hrun & _ & _ & _ & _ & _ & _ & Hquiet).
  exists w'. split; [exact Hrun | apply (Hquiet engineer); reflexivity].
Defined.

Lemma window_stays_time_ordered_witness :
  exists s : Sched,
    run sample_firecrawl 10 60 last_in_first_out (start ["L1"; "L2"; "L3"] 3 5 fresh_world)
    = Some s
    /\ time_ordered (request_timestamps (world s)).
Proof.
  eassert (Hrun : run sample_firecrawl 10 60 last_in_first_out
                      (start ["L1"; "L2"; "L3"] 3 5 fresh_world) = Some _)
    by (vm_compute; reflexivity).
  eexists. split; [exact Hrun|].
  apply (window_stays_time_ordered ["L1"; "L2"; "L3"] sample_firecrawl 3 10 60 5
           fresh_world last_in_first_out _ Hrun).
Defined.
